(* ===== verification/_CoqProject ===== *)
-Q . S2P
Prelude.v
JsValue.v
Schema.v
Store.v
Context.v
Resolvers.v
Gateway.v
QueryGuard.v
Execute.v
Queries.v
Session.v
Server.v
Boot.v
Responses.v
Concurrency.v
Inflight.v
