(* ===== verification/Prelude.v ===== *)
(** * Notedly API gateway: a verification development

    The program is the GraphQL gateway of a note-taking service
    (repository javascripteverywhere/notedly).  Three source files are
    verified here:

    - [src/api/schema.js]: the GraphQL type definitions ([typeDefs]);
    - [src/api/resolvers/Mutation.js]: the resolvers [newNote],
      [updateNote] and [deleteNote];
    - [src/api/index.js]: the Express application: middleware chain,
      session configuration, Apollo server with its validation rules
      ([depthLimit(5)], [createComplexityLimitRule(1000)]) and the
      per-request [context] function, and the socket timeout.

    ** How the parts interact

    A request passes the middleware of [index.js] in the order of its
    [app.use] calls (helmet, cors, express-session, passport, the
    authentication routes) and reaches the Apollo server at [/api].
    The server builds the context from the request ([context], which
    reads [req.session.user]), validates the operation against the
    schema and the two validation rules, and executes an accepted
    operation: the resolver of every root field is called with
    [(parent, args, context)] and its result is completed at the type
    [schema.js] declares for the field, along the selection set: of an
    object the selected fields are resolved and completed in turn.  The
    mutation resolvers render
    Markdown with [marked] and call the note model ([../models/note],
    not among the sources) to change the store.  The session middleware
    persists the session when the response ends.

    ** Files of the development, in dependency order

    - [Prelude] (this file): the outcome type of a JavaScript
      computation (a value or a thrown exception), the state-and-
      exception monad [eff] every effectful definition lives in, its
      notation (scope [eff_scope]), the tactics and the hint databases
      [notedly] and [notedly_rw] shared by all files, and generic lemmas
      on sums, maxima and finite sets.
    - [JsValue]: the fragment of JavaScript's dynamic semantics the
      sources use: values ([jsval]), truthiness ([truthy], [js_not],
      [js_or]), property access ([get_prop], which throws a [TypeError]
      on [undefined] and [null]), object literals and destructuring.
    - [Schema]: the GraphQL type-system AST as graphql-js names it
      ([NamedType], [ListType], [NonNullType], [FieldDefinition], ...),
      the document [typeDefs] of [schema.js] transcribed declaration by
      declaration, well-formedness as a decidable proposition
      ([WfDocument], [wf_document]), field lookup, and the conformance
      of an argument object to a field's declared arguments
      ([args_conform]).
    - [Store]: the note store.  [NoteSpec] is the abstract
      specification (a finite map from ids to notes, the transitions
      [step] of the three calls, and histories [steps]);
      [NoteModel.Ops] is the interface the resolvers call
      ([insertNote], [updateNote], [deleteNote] with the argument lists
      of [Mutation.js]); [NoteModel.Laws] states that an implementation
      refines [NoteSpec] through an abstraction function and an
      invariant; [MemStore] is an in-memory implementation (id counter,
      logical clock, access counter) with the proof that it satisfies
      the laws.
    - [Context]: the [context] function of [index.js] (lines 55-59) and
      the request argument it destructures.
    - [Resolvers]: module [Mutation] transcribes [Mutation.js]: [md]
      (marked with its options), [newNote], [updateNote], [deleteNote]
      and the exported resolver map [exports].
    - [Gateway]: one mutation field from the session to the response:
      context, resolver lookup with the default resolver of graphql-js,
      and [complete_field], the completion of a resolver's result at the
      declared type (null, non-null propagation, serialization of
      scalars).
    - [QueryGuard]: [validationRules] of [index.js] line 54: selections
      and fragments, inlining ([inline], [inlines]), [depth], [cost], the
      two rules, [validate] and [guard].
    - [Execute]: the completion of a resolver's result along the
      selection set ([complete_value], [execute_field], [complete_root])
      as graphql-js does it, and the shape the schema promises for a
      response ([conforms_type]).
    - [Queries]: the resolvers that are not among the sources, from the
      specification: the queries ([Query]), the fields of [Note] and
      [User] ([Fields]), [toggleReaction] over the in-memory store
      ([Reaction]), and the identity of a session as the specification
      has it ([Identity.resolveIdentity]).
    - [Session]: the options of [session(...)] ([index.js] lines 33-42)
      and the behaviour of the middleware and its store: [store_get],
      [store_set], [store_touch], [load], [finish].
    - [Server]: the rest of [index.js]: [port], [session_options], the
      middleware [helmet], [cors], [session], [passport_initialize],
      [authRoutes], [apollo] (with [graphql], the processing of one
      operation), the list [app], one request through it ([handle]),
      sequences of requests ([handle_all]) and the socket timeout
      ([serve]).
    - [Boot]: the top level of [index.js] as the sequence of its
      effects ([main]): dotenv, the database connection, the session
      store, the strategies, [listen], the timeout and the log.
    - [Responses]: the guard, the dispatch and the completion composed:
      the shape of the data the server sends, and the server run whole
      with the resolvers of [Queries].
    - [Concurrency]: operations in flight at the same time: a [pool] of
      [flight]s over the data store, [schedule_step] and [run_schedule],
      which resume one operation at its next root field, and the
      relation [step] of what the scheduler may do.
    - [Inflight]: whole requests in flight at the same time: the
      [stage] a request waits at, [dispatch] (the handlers behind the
      session middleware up to the first root field), [resume] (one
      request from one wait to the next), [node_step] and [run_node]
      over the state of the server, and [disconnect], the client going
      away.

    ** Modelling conventions

    - JavaScript values are [jsval]; numbers are [Z] (the sources use
      integers only: timestamps, counts); objects are finite maps from
      property names to values ([gmap string jsval]); a missing property
      reads as [JUndefined], as in JavaScript.
    - A computation that may throw returns [outcome js_error A]; one
      that also reads or writes the store is [eff St js_error A], a
      function from the store to an outcome and the new store.  A thrown
      exception keeps the store as it was at the throw.
    - Promises are not modelled: an [async] function is its body, and
      the model's operations complete before the resolver returns.
      [Server] handles requests one after the other.  [Concurrency]
      interleaves operations at their root fields: a resolver of
      [Mutation.js] calls the note model once and returns its promise,
      so the run of a root field is the unit the event loop schedules.
      [Inflight] interleaves whole requests wherever one waits: when
      it has read its session from the store, between its root fields,
      and before its session is written back.  A read or a write of a
      store is one step; the time of a request is that of its arrival.
    - A middleware is a function of the request, the continuation
      [next] and the state of the connection ([conn]: session store,
      data store, [req.session], response headers), as Express calls it
      with [(req, res, next)].
    - [marked], the [models] object, the authentication routes, the
      query resolvers and the resolvers of the fields of [Note] and
      [User] are parameters of the sections that use them: every
      theorem holds for every renderer, every set of routes (a route may
      answer a request and set or clear [req.session.user]), every set
      of query resolvers that keep the invariant of the data store and
      every set of field resolvers, which read the store ([reader]).
      [Queries] has the resolvers of the specification, and
      [Responses] runs the server with them.
    - The key of a field in a response is its name: aliases are not
      modelled, and a field that occurs twice in a selection set stands
      for two aliased occurrences.
    - Code that is not among the sources (the note model, the Apollo
      execution engine, express-session, helmet, cors, the two
      validation-rule packages) is modelled from the specification and
      from the documented behaviour of the libraries, and marked as
      such in the manifest.

    ** Theorem groups

    - outcome and monad laws, sums and maxima, toggling membership in a
      finite set (this file);
    - truthiness and property access: which values are falsy, when an
      access throws ([JsValue]);
    - schema: [typeDefs] is well formed, its fields and arguments are
      declared and its arguments are strings ([Schema]);
    - store: the transitions of [NoteSpec] keep notes under their ids
      and rendered; [MemStore] keeps its invariant and satisfies
      [NoteModel.Laws] ([Store]);
    - context: the object [context] returns and the identity it
      carries ([Context]);
    - resolvers: the behaviour of each resolver on every branch, errors
      included; every run is at most one transition of [NoteSpec] by a
      call that passes rendered text; after any sequence of mutations
      every note is rendered; the trace refinement of [NoteSpec]
      ([Resolvers]);
    - gateway: the outcome of each mutation field for every session,
      the error paths that reach the client, and what the code does and
      does not check of the caller's identity ([Gateway]);
    - guard: inlining with fuel agrees with its reference definition;
      the guard accepts exactly the documents that pass each check;
      what acceptance bounds (levels, leaves, fields, nested lists);
      refusal of deep and of costly operations ([QueryGuard]);
    - sessions: a saved session is read back until it expires; new ids
      are fresh; other sessions are untouched ([Session]);
    - server: a refused operation does not reach the data store; the
      data store changes only by an accepted operation; the invariant
      of the server holds after any sequence of requests; the context
      is always built; every response carries the security headers; a
      login lasts two weeks; [newNote] with and without a login, end to
      end; the timeout undoes nothing ([Server]);
    - execution: every completed result has the shape of its type
      along the selection set; completion at a scalar type is that of
      [Gateway]; [favoriteCount] fits [Int] below [2^31] ([Execute]);
    - queries: a note [newNote] created is read back by [singleNote]
      and listed by [myNotes] for its author only; a deleted note is not
      found; [toggleReaction] is idempotent in pairs, and concurrent
      reactions need the atomic update; the context does not look the
      user of a session up, so that a user who no longer exists is
      still authenticated ([Queries]);
    - start: the port the process listens on and the address it logs;
      the order of its effects ([Boot]);
    - responses: the data of every response conforms to the schema for
      the operation sent ([Responses]);
    - concurrency: an operation alone runs as [Server.run_fields] does;
      every interleaving of mutations is a history of whole resolver
      runs and keeps the invariant of the system; every operation in
      flight completes, whatever the scheduler does; an operation of
      several root fields is not atomic ([Concurrency]);
    - requests in flight: a request alone is handled as
      [Server.handle] says, and requests in turn as
      [Server.handle_all] says; every interleaving keeps the invariant of
      the server; a stored session that no request in flight has to do
      with stays as it is; every request is answered; a client that
      goes away stops nothing; and with [resave: true] the response
      that ends last writes the session it read at its arrival over
      what was stored since, a login included ([Inflight]).

    ** Fuel and bounds

    The only recursion that is not structural is the inlining of
    fragment spreads.  [QueryGuard.inline] takes fuel and the set of
    fragments being expanded; a spread of a fragment in that set fails,
    so every chain of spreads is of distinct fragments, and
    [QueryGuard.fuel_for], one more than the number of fragments of the
    document, is never used up: [QueryGuard.root_fields_inlines] proves
    that the result is that of the reference definition [inlines],
    which has no fuel.  Execution is structural: [Execute.execute_field]
    recurses on the selection set and [Execute.complete_value] on the
    type.  The schedulers of [Concurrency] and [Inflight] need no
    fuel: every step takes a root field off the pool
    ([Concurrency.work]) or a step off what the requests have left
    ([Inflight.pending]: three for a request and one for each root
    field of its operation).  Costs are
    binary naturals ([N]), so that the cost of a deep operation can be
    computed; depths and counts are [nat].  Times are milliseconds in
    [Z]; the bound of [Int] is stated in [Z].

    ** What is not modelled

    The parsing of request bodies and the HTTP wire format (a request
    carries its operation as a syntax tree); aliases, variables,
    directives and [__typename]; the merging of fields that occur twice
    in a selection set; the errors recorded below a position that then
    fails the operation; the signing of the session cookie; what
    [db.connect], passport and the socket do (the top level is modelled
    as the order of these effects); the interleaving of the
    resolvers below a root field, and of the steps inside a call of the
    note model or of the session store; the time that passes while a
    request is in flight.  The resolvers
    of the queries, of the fields of [Note] and [User] and of
    [toggleReaction] are not among the sources: [Queries] follows the
    specification for them, and nothing in [Server] depends on it. *)

From stdpp Require Export base option list gmap strings.

(** ** Outcomes: a value or a thrown exception *)

Inductive outcome (E A : Type) : Type :=
| Ok (a : A)
| Thrown (e : E).
Arguments Ok {E A} a.
Arguments Thrown {E A} e.

Definition is_ok {E A} (o : outcome E A) : bool :=
  match o with Ok _ => true | Thrown _ => false end.

Definition obind {E A B} (o : outcome E A) (k : A -> outcome E B) : outcome E B :=
  match o with
  | Ok a => k a
  | Thrown e => Thrown e
  end.

Definition omap_ok {E A B} (f : A -> B) (o : outcome E A) : outcome E B :=
  obind o (fun a => Ok (f a)).

(** ** The state-and-exception monad *)

Definition eff (St E A : Type) : Type := St -> outcome E A * St.

Definition eret {St E A} (a : A) : eff St E A := fun s => (Ok a, s).

Definition throw {St E A} (e : E) : eff St E A := fun s => (Thrown e, s).

Definition lift_outcome {St E A} (o : outcome E A) : eff St E A := fun s => (o, s).

Definition ebind {St E A B} (m : eff St E A) (k : A -> eff St E B) : eff St E B :=
  fun s =>
    match m s with
    | (Ok a, s') => k a s'
    | (Thrown e, s') => (Thrown e, s')
    end.

Definition eget {St E} : eff St E St := fun s => (Ok s, s).

Definition emodify {St E} (f : St -> St) : eff St E unit := fun s => (Ok tt, f s).

Declare Scope eff_scope.
Delimit Scope eff_scope with eff.

Notation "'let*' x ':=' m 'in' k" := (ebind m (fun x => k))
  (at level 10, x name, m at level 100, k at level 200) : eff_scope.
Notation "'let?' x ':=' o 'in' k" := (obind o (fun x => k))
  (at level 10, x name, o at level 100, k at level 200) : eff_scope.

Open Scope eff_scope.

(** ** Automation shared by the development *)

Create HintDb notedly discriminated.
Create Rewrite HintDb notedly_rw.

(** [eff_unfold] exposes the state passing of a monadic definition. *)
Ltac eff_unfold :=
  unfold ebind, eret, throw, lift_outcome, eget, emodify, obind, omap_ok in *.

(** [case_outcome] splits on the first outcome scrutinised in the goal. *)
Ltac case_outcome :=
  match goal with
  | |- context [match ?o with Ok _ => _ | Thrown _ => _ end] =>
      let E := fresh "Hout" in destruct o eqn:E
  end.

(** [destruct_pair_match] splits on a pair bound by a match in the goal. *)
Ltac destruct_pair_match :=
  match goal with
  | |- context [match ?p with (_, _) => _ end] =>
      let E := fresh "Hrun" in destruct p eqn:E
  end.

(** [decide_by_compute] proves a decidable proposition by evaluating its
    decision procedure. *)
Ltac decide_by_compute := apply (bool_decide_unpack _); vm_compute; exact I.

(** ** Laws of the two monads *)

Section outcome_laws.
Context {E A B C : Type}.

Lemma obind_ok_l (a : A) (k : A -> outcome E B) : obind (Ok a) k = k a.
Proof. reflexivity. Qed.

Lemma obind_ok_r (o : outcome E A) : obind o Ok = o.
Proof. by destruct o. Qed.

Lemma obind_assoc (o : outcome E A) (k : A -> outcome E B) (h : B -> outcome E C) :
  obind (obind o k) h = obind o (fun a => obind (k a) h).
Proof. by destruct o. Qed.

Lemma obind_thrown (e : E) (k : A -> outcome E B) : obind (Thrown e) k = Thrown e.
Proof. reflexivity. Qed.

Lemma obind_is_ok (o : outcome E A) (k : A -> outcome E B) b :
  obind o k = Ok b -> exists a, o = Ok a /\ k a = Ok b.
Proof. destruct o; naive_solver. Qed.

End outcome_laws.

Section eff_laws.
Context {St E A B C : Type}.
Implicit Types (s : St) (m : eff St E A).

Lemma ebind_eret_l (a : A) (k : A -> eff St E B) s : ebind (eret a) k s = k a s.
Proof. reflexivity. Qed.

Lemma ebind_eret_r m s : ebind m eret s = m s.
Proof. unfold ebind, eret. by destruct (m s) as [[]]. Qed.

Lemma ebind_assoc m (k : A -> eff St E B) (h : B -> eff St E C) s :
  ebind (ebind m k) h s = ebind m (fun a => ebind (k a) h) s.
Proof. unfold ebind. by destruct (m s) as [[]]. Qed.

Lemma ebind_throw (e : E) (k : A -> eff St E B) s : ebind (throw e) k s = (Thrown e, s).
Proof. reflexivity. Qed.

Lemma ebind_lift_ok (a : A) (k : A -> eff St E B) s :
  ebind (lift_outcome (Ok a)) k s = k a s.
Proof. reflexivity. Qed.

Lemma ebind_lift_thrown (e : E) (k : A -> eff St E B) s :
  ebind (lift_outcome (Thrown e)) k s = (Thrown e, s).
Proof. reflexivity. Qed.

(** A computation that does not touch the store, lifted, leaves it alone. *)
Lemma lift_outcome_state (o : outcome E A) s : (lift_outcome o s).2 = s.
Proof. reflexivity. Qed.

End eff_laws.

#[export] Hint Rewrite @obind_ok_l @obind_thrown @ebind_eret_l @ebind_throw
  @ebind_lift_ok @ebind_lift_thrown : notedly_rw.

(** ** Lists in the monad *)

Section emapM.
Context {St E A B : Type} (f : A -> eff St E B).

(** [f] on every element in order, threading the state; the first
    exception ends the traversal. *)
Fixpoint emapM (l : list A) : eff St E (list B) :=
  match l with
  | [] => eret []
  | x :: l' => let* y := f x in let* ys := emapM l' in eret (y :: ys)
  end.

Lemma emapM_cons (x : A) (l : list A) (s : St) :
  emapM (x :: l) s =
    match f x s with
    | (Ok y, s1) =>
        match emapM l s1 with
        | (Ok ys, s2) => (Ok (y :: ys), s2)
        | (Thrown e, s2) => (Thrown e, s2)
        end
    | (Thrown e, s1) => (Thrown e, s1)
    end.
Proof.
  simpl. unfold ebind at 1. destruct (f x s) as [[y|e] s1]; [|done].
  unfold ebind. by destruct (emapM l s1) as [[ys|e] s2].
Qed.

(** What holds of every call that returns holds of the traversal. *)
Lemma emapM_Forall2 (P : A -> B -> Prop) (l : list A) :
  Forall (fun x => forall s y s', f x s = (Ok y, s') -> P x y) l ->
  forall s ys s', emapM l s = (Ok ys, s') -> Forall2 P l ys.
Proof.
  induction 1 as [|x l Hx _ IH]; intros s ys s'.
  - intros [= <- _]. constructor.
  - rewrite emapM_cons. destruct (f x s) as [[y|e] s1] eqn:Hy; [|done].
    destruct (emapM l s1) as [[ys'|e] s2] eqn:Hys; [|done].
    intros [= <- _]. constructor; eauto.
Qed.

Lemma emapM_Forall (Q : B -> Prop) (l : list A) :
  (forall x s y s', f x s = (Ok y, s') -> Q y) ->
  forall s ys s', emapM l s = (Ok ys, s') -> Forall Q ys.
Proof.
  intros Hf. induction l as [|x l IH]; intros s ys s'.
  - intros [= <- _]. constructor.
  - rewrite emapM_cons. destruct (f x s) as [[y|e] s1] eqn:Hy; [|done].
    destruct (emapM l s1) as [[ys'|e] s2] eqn:Hys; [|done].
    intros [= <- _]. constructor; eauto.
Qed.

End emapM.

(** ** Sums of binary naturals *)

Definition sum_listN (l : list N) : N := foldr N.add 0%N l.

Lemma sum_listN_cons (x : N) (l : list N) : sum_listN (x :: l) = (x + sum_listN l)%N.
Proof. reflexivity. Qed.

Lemma sum_listN_app (l k : list N) : sum_listN (l ++ k) = (sum_listN l + sum_listN k)%N.
Proof.
  induction l as [|x l IH]; [done|]. rewrite <- app_comm_cons, !sum_listN_cons, IH. lia.
Qed.

Lemma sum_listN_elem_of_le (x : N) (l : list N) : x ∈ l -> (x <= sum_listN l)%N.
Proof. induction 1; rewrite sum_listN_cons; lia. Qed.

(** A sum scales with its terms. *)
Lemma sum_listN_scale {A : Type} (k : N) (f g : A -> N) (l : list A) :
  Forall (fun x => f x = (k * g x)%N) l ->
  sum_listN (f <$> l) = (k * sum_listN (g <$> l))%N.
Proof.
  induction 1 as [|x l Hx _ IH]; [simpl; lia|].
  rewrite !fmap_cons, !sum_listN_cons, Hx, IH. lia.
Qed.

(** A sum is bounded term by term. *)
Lemma sum_listN_le {A : Type} (f g : A -> N) (l : list A) :
  Forall (fun x => (f x <= g x)%N) l -> (sum_listN (f <$> l) <= sum_listN (g <$> l))%N.
Proof. induction 1 as [|x l Hx _ IH]; [done|]. rewrite !fmap_cons, !sum_listN_cons. lia. Qed.

(** Replacing an element of a list moves its sum by the difference. *)
Lemma sum_list_insert (l : list nat) (i x y : nat) :
  l !! i = Some y -> sum_list (<[i := x]> l) + y = sum_list l + x.
Proof.
  revert i. induction l as [|z l IH]; intros [|i] Hi; simplify_eq/=; [lia|].
  specialize (IH i Hi). lia.
Qed.

Lemma sum_list_le {A : Type} (f g : A -> nat) (l : list A) :
  Forall (fun x => f x <= g x) l -> sum_list (f <$> l) <= sum_list (g <$> l).
Proof. induction 1 as [|x l Hx _ IH]; [done|]. rewrite !fmap_cons. simpl. lia. Qed.

Lemma sum_list_mul_r {A : Type} (f : A -> nat) (c : nat) (l : list A) :
  sum_list ((fun x => f x * c) <$> l) = sum_list (f <$> l) * c.
Proof. induction l as [|x l IH]; [done|]. rewrite !fmap_cons. simpl. lia. Qed.

Lemma max_list_le (n : nat) (l : list nat) : Forall (fun x => x <= n) l <-> max_list l <= n.
Proof.
  split.
  - induction 1; simpl; lia.
  - induction l as [|x l IH]; simpl; [constructor|]. intros. constructor; [lia|]. apply IH. lia.
Qed.

Lemma forallb_Forall {A : Type} (f : A -> bool) (l : list A) :
  forallb f l = true <-> Forall (fun x => f x = true) l.
Proof.
  induction l as [|x l IH]; simpl; [by split|].
  rewrite andb_true_iff, IH, Forall_cons. tauto.
Qed.

(** ** Finite sets: toggling membership *)

Section toggle.
Context `{Countable K}.
Implicit Types (x y : K) (X : gset K).

(** Remove [x] when it is a member, add it otherwise. *)
Definition toggle x X : gset K :=
  if decide (x ∈ X) then X ∖ {[x]} else X ∪ {[x]}.

Lemma elem_of_toggle x y X :
  y ∈ toggle x X <-> (y = x /\ x ∉ X) \/ (y ≠ x /\ y ∈ X).
Proof. unfold toggle. case_decide; set_solver. Qed.

Lemma toggle_involutive x X : toggle x (toggle x X) = X.
Proof.
  apply set_eq. intros y. rewrite !elem_of_toggle.
  destruct (decide (y = x)), (decide (x ∈ X)); naive_solver.
Qed.

Lemma size_toggle_in x X : x ∈ X -> S (size (toggle x X)) = size X.
Proof.
  intros Hx. unfold toggle. rewrite decide_True by done.
  rewrite size_difference by set_solver. rewrite size_singleton.
  assert (size X ≠ 0) by (rewrite size_empty_iff; set_solver). lia.
Qed.

Lemma size_toggle_notin x X : x ∉ X -> size (toggle x X) = S (size X).
Proof.
  intros Hx. unfold toggle. rewrite decide_False by done.
  rewrite size_union by set_solver. rewrite size_singleton. lia.
Qed.

End toggle.
