(* ===== verification/JsValue.v ===== *)
(** * JsValue: the fragment of JavaScript the sources rely on

    Values, truthiness ([!v], [a || b], [if (v)]), property access
    ([v.k], which throws a [TypeError] when [v] is [undefined] or
    [null]), object literals and parameter destructuring.  Numbers are
    integers; prototype properties other than [length] are not
    modelled, so reading one yields [undefined]. *)

From S2P Require Import Prelude.

(** ** Values and exceptions *)

Inductive jsval : Type :=
| JUndefined
| JNull
| JBool (b : bool)
| JNum (n : Z)
| JStr (s : string)
| JArr (l : list jsval)
| JObj (o : gmap string jsval).

Inductive js_error : Type :=
| TypeError (msg : string)
| Error (msg : string)
| NotFound (what : string).

#[export] Instance js_error_eq_dec : EqDecision js_error.
Proof. solve_decision. Defined.

#[export] Instance jsval_inhabited : Inhabited jsval := populate JUndefined.

(** A computation that may throw. *)
Abbreviation js A := (outcome js_error A).

(** ** Type tags and truthiness *)

(** The [typeof] operator. *)
Definition js_typeof (v : jsval) : string :=
  match v with
  | JUndefined => "undefined"
  | JNull => "object"
  | JBool _ => "boolean"
  | JNum _ => "number"
  | JStr _ => "string"
  | JArr _ => "object"
  | JObj _ => "object"
  end.

(** ToBoolean: [undefined], [null], [false], [0] and the empty string
    are falsy; every other value, every object included, is truthy. *)
Definition truthy (v : jsval) : bool :=
  match v with
  | JUndefined => false
  | JNull => false
  | JBool b => b
  | JNum n => negb (Z.eqb n 0)
  | JStr s => negb (String.eqb s "")
  | JArr _ => true
  | JObj _ => true
  end.

(** [!v] *)
Definition js_not (v : jsval) : bool := negb (truthy v).

(** [a || b]: the left operand when it is truthy, the right one otherwise. *)
Definition js_or (a b : jsval) : jsval := if truthy a then a else b.

(** [v === null || typeof v === 'undefined'] *)
Definition is_nullish (v : jsval) : bool :=
  match v with
  | JUndefined | JNull => true
  | _ => false
  end.

(** ** Property access *)

(** [v.k].  Reading a property of [undefined] or [null] throws; a
    missing property of an object reads as [undefined]; strings and
    arrays have [length]; other primitives have no own properties. *)
Definition get_prop (v : jsval) (k : string) : js jsval :=
  match v with
  | JUndefined => Thrown (TypeError ("Cannot read property '" +:+ k +:+ "' of undefined"))
  | JNull => Thrown (TypeError ("Cannot read property '" +:+ k +:+ "' of null"))
  | JObj o => Ok (default JUndefined (o !! k))
  | JStr s => Ok (if String.eqb k "length" then JNum (Z.of_nat (String.length s)) else JUndefined)
  | JArr l => Ok (if String.eqb k "length" then JNum (Z.of_nat (length l)) else JUndefined)
  | JBool _ | JNum _ => Ok JUndefined
  end.

(** An object literal [{ k1: v1, ..., kn: vn }]: a later duplicate key
    overrides an earlier one. *)
Definition js_object (kvs : list (string * jsval)) : jsval :=
  JObj (foldl (fun o kv => <[kv.1 := kv.2]> o) ∅ kvs).

(** ** Views of a value at a type the callee expects *)

Definition as_string (v : jsval) : option string :=
  match v with JStr s => Some s | _ => None end.

Definition as_object (v : jsval) : option (gmap string jsval) :=
  match v with JObj o => Some o | _ => None end.

(** ** Truthiness *)

Inductive falsy : jsval -> Prop :=
| falsy_undefined : falsy JUndefined
| falsy_null : falsy JNull
| falsy_false : falsy (JBool false)
| falsy_zero : falsy (JNum 0)
| falsy_empty : falsy (JStr "").

#[export] Hint Constructors falsy : notedly.

Lemma string_eqb_empty (s : string) : String.eqb s "" = true <-> s = "".
Proof. apply String.eqb_eq. Qed.

(** The falsy values are exactly these five. *)
Lemma truthy_false_iff (v : jsval) : truthy v = false <-> falsy v.
Proof.
  split.
  - destruct v as [| |[]|n|s| |]; simpl; try done; try constructor.
    + rewrite negb_false_iff, Z.eqb_eq. intros ->. constructor.
    + rewrite negb_false_iff, String.eqb_eq. intros ->. constructor.
  - by destruct 1.
Qed.

Lemma truthy_true_iff (v : jsval) : truthy v = true <-> ~ falsy v.
Proof. rewrite <- truthy_false_iff. destruct (truthy v); naive_solver. Qed.

Lemma js_not_true_iff (v : jsval) : js_not v = true <-> falsy v.
Proof. unfold js_not. rewrite negb_true_iff. apply truthy_false_iff. Qed.

Lemma truthy_obj (o : gmap string jsval) : truthy (JObj o) = true.
Proof. reflexivity. Qed.

Lemma truthy_str (s : string) : truthy (JStr s) = true <-> s ≠ "".
Proof.
  simpl. rewrite negb_true_iff, <- not_true_iff_false. by rewrite String.eqb_eq.
Qed.

Lemma truthy_not_nullish (v : jsval) : truthy v = true -> is_nullish v = false.
Proof. by destruct v. Qed.

(** ** The [||] operator *)

Lemma js_or_truthy_l (a b : jsval) : truthy a = true -> js_or a b = a.
Proof. unfold js_or. by intros ->. Qed.

Lemma js_or_falsy_l (a b : jsval) : truthy a = false -> js_or a b = b.
Proof. unfold js_or. by intros ->. Qed.

(** [a || b] is truthy exactly when one of the operands is. *)
Lemma truthy_js_or (a b : jsval) : truthy (js_or a b) = truthy a || truthy b.
Proof. unfold js_or. by destruct (truthy a) eqn:Ha. Qed.

(** ** Property access *)

(** An access throws exactly on [undefined] and [null]. *)
Lemma get_prop_is_ok (v : jsval) (k : string) :
  is_ok (get_prop v k) = negb (is_nullish v).
Proof. by destruct v. Qed.

Lemma get_prop_truthy (v : jsval) (k : string) :
  truthy v = true -> exists w, get_prop v k = Ok w.
Proof. destruct v; simpl; try done; eauto. Qed.

Lemma get_prop_obj (o : gmap string jsval) (k : string) :
  get_prop (JObj o) k = Ok (default JUndefined (o !! k)).
Proof. reflexivity. Qed.

Lemma get_prop_obj_Some (o : gmap string jsval) (k : string) (v : jsval) :
  o !! k = Some v -> get_prop (JObj o) k = Ok v.
Proof. simpl. by intros ->. Qed.

Lemma get_prop_obj_None (o : gmap string jsval) (k : string) :
  o !! k = None -> get_prop (JObj o) k = Ok JUndefined.
Proof. simpl. by intros ->. Qed.

(** A thrown access is a [TypeError]. *)
Lemma get_prop_thrown (v : jsval) (k : string) (e : js_error) :
  get_prop v k = Thrown e -> is_nullish v = true /\ exists msg, e = TypeError msg.
Proof. destruct v; simpl; intros; simplify_eq; eauto. Qed.

#[export] Hint Rewrite get_prop_obj : notedly_rw.
#[export] Hint Resolve get_prop_obj_Some get_prop_obj_None : notedly.

(** ** Object literals *)

Lemma js_object_nil : js_object [] = JObj ∅.
Proof. reflexivity. Qed.

Lemma js_object_snoc (kvs : list (string * jsval)) (k : string) (v : jsval) (o : gmap string jsval) :
  js_object kvs = JObj o -> js_object (kvs ++ [(k, v)]) = JObj (<[k := v]> o).
Proof. unfold js_object. rewrite foldl_app. simpl. by intros [= ->]. Qed.

(** A two-field literal, the shape of the context object. *)
Lemma js_object_pair (k1 k2 : string) (v1 v2 : jsval) :
  js_object [(k1, v1); (k2, v2)] = JObj (<[k2 := v2]> (<[k1 := v1]> ∅)).
Proof. reflexivity. Qed.

Lemma get_prop_js_object_pair_1 (k1 k2 : string) (v1 v2 : jsval) :
  k1 ≠ k2 -> get_prop (js_object [(k1, v1); (k2, v2)]) k1 = Ok v1.
Proof.
  intros Hne. rewrite js_object_pair. apply get_prop_obj_Some.
  by rewrite lookup_insert_ne, lookup_insert_eq.
Qed.

Lemma get_prop_js_object_pair_2 (k1 k2 : string) (v1 v2 : jsval) :
  get_prop (js_object [(k1, v1); (k2, v2)]) k2 = Ok v2.
Proof. rewrite js_object_pair. apply get_prop_obj_Some. by rewrite lookup_insert_eq. Qed.

Lemma get_prop_js_object_pair_other (k1 k2 k : string) (v1 v2 : jsval) :
  k ≠ k1 -> k ≠ k2 -> get_prop (js_object [(k1, v1); (k2, v2)]) k = Ok JUndefined.
Proof.
  intros H1 H2. rewrite js_object_pair. apply get_prop_obj_None.
  by rewrite !lookup_insert_ne, lookup_empty.
Qed.
