(* ===== verification/Schema.v ===== *)
(** * Schema: the GraphQL type definitions of [src/api/schema.js]

    The type-system AST under the names graphql-js gives its nodes, the
    document [typeDefs] transcribed declaration by declaration, the
    well-formedness conditions graphql-js checks when it builds a schema
    from such a document (as decidable propositions), and lookup of
    types and fields. *)

From S2P Require Import Prelude JsValue.

(** ** The type-system AST *)

(** A type reference: [Name], [[T]] or [T!]. *)
Inductive gql_type : Type :=
| NamedType (name : string)
| ListType (t : gql_type)
| NonNullType (t : gql_type).

#[export] Instance gql_type_eq_dec : EqDecision gql_type.
Proof. solve_decision. Defined.

(** An argument of a field: [name: Type]. *)
Record InputValueDefinition : Type := mkInputValue {
  iv_name : string;
  iv_type : gql_type;
}.

#[export] Instance InputValueDefinition_eq_dec : EqDecision InputValueDefinition.
Proof. solve_decision. Defined.

(** A field of an object type: [name(args): Type]. *)
Record FieldDefinition : Type := mkField {
  fd_name : string;
  fd_arguments : list InputValueDefinition;
  fd_type : gql_type;
}.

#[export] Instance FieldDefinition_eq_dec : EqDecision FieldDefinition.
Proof. solve_decision. Defined.

(** A top-level definition: [scalar Name] or [type Name { fields }]. *)
Inductive definition : Type :=
| ScalarTypeDefinition (name : string)
| ObjectTypeDefinition (name : string) (fields : list FieldDefinition).

#[export] Instance definition_eq_dec : EqDecision definition.
Proof. solve_decision. Defined.

Definition document : Type := list definition.

(** ** The document of [schema.js] *)

Declare Scope gql_scope.
Delimit Scope gql_scope with gql.

(** [T !] is the non-null type and [[: T :]] the list type. *)
Notation "t !" := (NonNullType t) (at level 2, left associativity, format "t !") : gql_scope.
Notation "[: t :]" := (ListType t) (at level 0, t at level 200) : gql_scope.

Local Open Scope gql_scope.

(** The named types the document refers to. *)
Abbreviation tID := (NamedType "ID").
Abbreviation tString := (NamedType "String").
Abbreviation tInt := (NamedType "Int").
Abbreviation tBoolean := (NamedType "Boolean").
Abbreviation tDate := (NamedType "Date").
Abbreviation tNote := (NamedType "Note").
Abbreviation tUser := (NamedType "User").

(** [scalar Date] *)
Definition Date_def : definition := ScalarTypeDefinition "Date".

(** [type Note { ... }] *)
Definition Note_def : definition :=
  ObjectTypeDefinition "Note" [
    mkField "id" [] tID!;
    mkField "content" [] tString!;
    mkField "htmlContent" [] tString!;
    mkField "author" [] tUser!;
    mkField "favoriteCount" [] tInt!;
    mkField "favoritedBy" [] [: tUser! :];
    mkField "createdAt" [] tDate!;
    mkField "updatedAt" [] tDate!
  ].

(** [type User { ... }] *)
Definition User_def : definition :=
  ObjectTypeDefinition "User" [
    mkField "id" [] tID!;
    mkField "name" [] tString;
    mkField "avatar" [] tString;
    mkField "notes" [] [: tNote! :]!;
    mkField "favorites" [] [: tNote! :]!
  ].

(** [type Query { ... }] *)
Definition Query_def : definition :=
  ObjectTypeDefinition "Query" [
    mkField "singleNote" [mkInputValue "id" tID!] tNote;
    mkField "allNotes" [] [: tNote! :]!;
    mkField "myNotes" [] [: tNote! :]
  ].

(** [type Mutation { ... }] *)
Definition Mutation_def : definition :=
  ObjectTypeDefinition "Mutation" [
    mkField "newNote" [mkInputValue "content" tString!] tNote;
    mkField "updateNote" [mkInputValue "id" tID!; mkInputValue "content" tString!] tNote!;
    mkField "deleteNote" [mkInputValue "id" tID!] tBoolean!;
    mkField "toggleReaction" [mkInputValue "noteID" tID!] tNote
  ].

Definition typeDefs : document :=
  [Date_def; Note_def; User_def; Query_def; Mutation_def].

(** ** Names, lookup *)

(** The scalars every GraphQL schema has. *)
Definition builtin_scalars : list string := ["Int"; "Float"; "String"; "Boolean"; "ID"].

Definition def_name (d : definition) : string :=
  match d with
  | ScalarTypeDefinition n => n
  | ObjectTypeDefinition n _ => n
  end.

Definition def_fields (d : definition) : list FieldDefinition :=
  match d with
  | ScalarTypeDefinition _ => []
  | ObjectTypeDefinition _ fs => fs
  end.

Definition is_object_def (d : definition) : bool :=
  match d with
  | ScalarTypeDefinition _ => false
  | ObjectTypeDefinition _ _ => true
  end.

(** The name under the list and non-null wrappers. *)
Fixpoint named_type (t : gql_type) : string :=
  match t with
  | NamedType n => n
  | ListType t' => named_type t'
  | NonNullType t' => named_type t'
  end.

Definition is_non_null (t : gql_type) : bool :=
  match t with NonNullType _ => true | _ => false end.

(** The first definition of that name. *)
Fixpoint lookup_type (doc : document) (n : string) : option definition :=
  match doc with
  | [] => None
  | d :: doc' => if decide (def_name d = n) then Some d else lookup_type doc' n
  end.

Fixpoint find_field (fs : list FieldDefinition) (f : string) : option FieldDefinition :=
  match fs with
  | [] => None
  | fd :: fs' => if decide (fd_name fd = f) then Some fd else find_field fs' f
  end.

(** The field [f] of the object type [t]. *)
Definition lookup_field (doc : document) (t f : string) : option FieldDefinition :=
  d ← lookup_type doc t; find_field (def_fields d) f.

Definition field_names (doc : document) (t : string) : list string :=
  match lookup_type doc t with
  | Some d => fd_name <$> def_fields d
  | None => []
  end.

(** ** Well-formedness *)

(** A scalar: built in, or declared by a [scalar] definition. *)
Definition ScalarName (doc : document) (n : string) : Prop :=
  n ∈ builtin_scalars \/ ScalarTypeDefinition n ∈ doc.

Definition ObjectName (doc : document) (n : string) : Prop :=
  exists d, lookup_type doc n = Some d /\ is_object_def d = true.

(** A field may return a scalar or an object; an argument takes a scalar
    (the document declares no input object types or enums). *)
Definition OutputName (doc : document) (n : string) : Prop :=
  ScalarName doc n \/ ObjectName doc n.

(** [T!!] is not a type. *)
Fixpoint WfType (t : gql_type) : Prop :=
  match t with
  | NamedType _ => True
  | ListType t' => WfType t'
  | NonNullType t' => is_non_null t' = false /\ WfType t'
  end.

Definition WfInputValue (doc : document) (iv : InputValueDefinition) : Prop :=
  WfType (iv_type iv) /\ ScalarName doc (named_type (iv_type iv)).

Definition WfField (doc : document) (fd : FieldDefinition) : Prop :=
  WfType (fd_type fd) /\
  OutputName doc (named_type (fd_type fd)) /\
  NoDup (iv_name <$> fd_arguments fd) /\
  Forall (WfInputValue doc) (fd_arguments fd).

Definition WfDefinition (doc : document) (d : definition) : Prop :=
  match d with
  | ScalarTypeDefinition _ => True
  | ObjectTypeDefinition _ fs =>
      fs ≠ [] /\ NoDup (fd_name <$> fs) /\ Forall (WfField doc) fs
  end.

(** The conditions under which graphql-js accepts the document as a
    schema: type names are distinct and none redefines a built-in
    scalar, every definition is well formed, and the root type [Query]
    is an object type. *)
Definition WfDocument (doc : document) : Prop :=
  NoDup (def_name <$> doc) /\
  Forall (fun d => def_name d ∉ builtin_scalars) doc /\
  Forall (WfDefinition doc) doc /\
  ObjectName doc "Query".

#[export] Instance ScalarName_dec doc n : Decision (ScalarName doc n).
Proof. unfold ScalarName. apply _. Defined.

#[export] Instance ObjectName_dec doc n : Decision (ObjectName doc n).
Proof.
  unfold ObjectName. destruct (lookup_type doc n) as [d|] eqn:Hd.
  - destruct (is_object_def d) eqn:Ho.
    + left. eauto.
    + right. intros (d' & [= <-] & ?). congruence.
  - right. intros (d' & ? & ?). congruence.
Defined.

#[export] Instance OutputName_dec doc n : Decision (OutputName doc n).
Proof. unfold OutputName. apply _. Defined.

#[export] Instance WfType_dec t : Decision (WfType t).
Proof. induction t; simpl; apply _. Defined.

#[export] Instance WfInputValue_dec doc iv : Decision (WfInputValue doc iv).
Proof. unfold WfInputValue. apply _. Defined.

#[export] Instance WfField_dec doc fd : Decision (WfField doc fd).
Proof. unfold WfField. apply _. Defined.

#[export] Instance WfDefinition_dec doc d : Decision (WfDefinition doc d).
Proof. destruct d; simpl; apply _. Defined.

#[export] Instance WfDocument_dec doc : Decision (WfDocument doc).
Proof. unfold WfDocument. apply _. Defined.

(** The executable check. *)
Definition wf_document (doc : document) : bool := bool_decide (WfDocument doc).

(** ** Argument values *)

(** The values an argument of a scalar type can have when the resolver
    is called: graphql-js has coerced them to the scalar's JavaScript
    type ([Int] is a 32-bit integer) or rejected the operation. *)
Definition scalar_input (n : string) (v : jsval) : Prop :=
  if decide (n = "ID") then is_Some (as_string v)
  else if decide (n = "String") then is_Some (as_string v)
  else if decide (n = "Boolean") then exists b, v = JBool b
  else if decide (n = "Int") then exists z, v = JNum z /\ (- 2 ^ 31 <= z < 2 ^ 31)%Z
  else True.

(** A non-null argument has a value of its scalar; a nullable one may
    also be absent or [null]. *)
Definition input_ok (t : gql_type) (v : jsval) : Prop :=
  match t with
  | NonNullType (NamedType n) => scalar_input n v
  | NamedType n => is_nullish v = true \/ scalar_input n v
  | _ => True
  end.

(** The [args] object of a field: every declared argument is present
    with a value of its type. *)
Definition args_conform (fd : FieldDefinition) (args : jsval) : Prop :=
  exists o, args = JObj o /\
    Forall (fun iv => input_ok (iv_type iv) (default JUndefined (o !! iv_name iv)))
      (fd_arguments fd).

(** ** Lookup *)

Section lookup.
Implicit Types (doc : document) (d : definition) (fs : list FieldDefinition)
  (fd : FieldDefinition) (n t f : string).

Lemma lookup_type_Some doc n d :
  lookup_type doc n = Some d -> d ∈ doc /\ def_name d = n.
Proof.
  induction doc as [|d' doc IH]; simpl; [done|].
  case_decide; intros; simplify_eq; set_solver.
Qed.

Lemma lookup_type_None doc n :
  lookup_type doc n = None <-> n ∉ def_name <$> doc.
Proof.
  induction doc as [|d' doc IH]; simpl; [set_solver|].
  case_decide; [set_solver|]. rewrite IH. set_solver.
Qed.

(** With distinct names, lookup finds every definition of the document. *)
Lemma lookup_type_elem_of doc d :
  NoDup (def_name <$> doc) -> d ∈ doc -> lookup_type doc (def_name d) = Some d.
Proof.
  induction doc as [|d' doc IH]; simpl; [set_solver|].
  rewrite NoDup_cons. intros [Hd' Hnd] Hin. case_decide as Heq.
  - apply elem_of_cons in Hin as [->|Hin]; [done|].
    destruct Hd'. rewrite Heq. by apply list_elem_of_fmap_2.
  - apply elem_of_cons in Hin as [->|Hin]; [done|]. by apply IH.
Qed.

Lemma find_field_Some fs f fd :
  find_field fs f = Some fd -> fd ∈ fs /\ fd_name fd = f.
Proof.
  induction fs as [|fd' fs IH]; simpl; [done|].
  case_decide; intros; simplify_eq; set_solver.
Qed.

Lemma find_field_None fs f :
  find_field fs f = None <-> f ∉ fd_name <$> fs.
Proof.
  induction fs as [|fd' fs IH]; simpl; [set_solver|].
  case_decide; [set_solver|]. rewrite IH. set_solver.
Qed.

Lemma lookup_field_Some doc t f fd :
  lookup_field doc t f = Some fd ->
  exists d, d ∈ doc /\ def_name d = t /\ fd ∈ def_fields d /\ fd_name fd = f.
Proof.
  unfold lookup_field. intros (d & Hd & Hf)%bind_Some.
  apply lookup_type_Some in Hd as [??]. apply find_field_Some in Hf as [??]. eauto.
Qed.

Lemma elem_of_field_names doc t f :
  f ∈ field_names doc t <-> is_Some (lookup_field doc t f).
Proof.
  unfold field_names, lookup_field. destruct (lookup_type doc t) as [d|]; simpl.
  - rewrite <- not_eq_None_Some, find_field_None. split; [tauto|].
    intros ?. by destruct (decide (f ∈ fd_name <$> def_fields d)).
  - split; [set_solver|]. by intros [].
Qed.

End lookup.

(** ** Well-formedness *)

Lemma wf_document_spec (doc : document) : wf_document doc = true <-> WfDocument doc.
Proof. apply bool_decide_eq_true. Qed.

Lemma WfDocument_definition (doc : document) (d : definition) :
  WfDocument doc -> d ∈ doc -> WfDefinition doc d.
Proof. intros (_ & _ & Hall & _) Hd. by eapply Forall_forall in Hall. Qed.

(** Every field that lookup finds in a well-formed document is well formed. *)
Lemma WfDocument_lookup_field (doc : document) (t f : string) (fd : FieldDefinition) :
  WfDocument doc -> lookup_field doc t f = Some fd -> WfField doc fd.
Proof.
  intros Hwf (d & Hd & _ & Hfd & _)%lookup_field_Some.
  pose proof (WfDocument_definition doc d Hwf Hd) as Hdef.
  destruct d as [|n fs]; simpl in *; [set_solver|].
  destruct Hdef as (_ & _ & Hall). by eapply Forall_forall in Hall.
Qed.

(** In a well-formed document the type a field returns is declared: it
    is a scalar or an object type of the document. *)
Lemma WfDocument_field_type_declared (doc : document) (t f : string) (fd : FieldDefinition) :
  WfDocument doc -> lookup_field doc t f = Some fd ->
  OutputName doc (named_type (fd_type fd)).
Proof. intros Hwf Hf. by destruct (WfDocument_lookup_field doc t f fd Hwf Hf) as (_ & ? & _). Qed.

(** In a well-formed document every argument has a scalar type. *)
Lemma WfDocument_argument_scalar (doc : document) (t f : string) (fd : FieldDefinition)
    (iv : InputValueDefinition) :
  WfDocument doc -> lookup_field doc t f = Some fd -> iv ∈ fd_arguments fd ->
  ScalarName doc (named_type (iv_type iv)).
Proof.
  intros Hwf Hf Hiv.
  destruct (WfDocument_lookup_field doc t f fd Hwf Hf) as (_ & _ & _ & Hall).
  eapply Forall_forall in Hall; [|done]. by destruct Hall.
Qed.

(** C8: the document of [schema.js] is a well-formed schema: its type
    names are distinct, no definition redefines a built-in scalar, every
    field and argument refers to a declared type of the right kind, no
    object type is empty or repeats a field name, and [Query] is an
    object type. *)
Theorem typeDefs_wf : WfDocument typeDefs.
Proof. decide_by_compute. Qed.

(** The type of every field of [typeDefs] is declared in [typeDefs] or
    built in. *)
Theorem typeDefs_field_type_declared (t f : string) (fd : FieldDefinition) :
  lookup_field typeDefs t f = Some fd -> OutputName typeDefs (named_type (fd_type fd)).
Proof. apply WfDocument_field_type_declared. decide_by_compute. Qed.

Lemma typeDefs_field_type_declared_witness :
  lookup_field typeDefs "Note" "author" = Some (mkField "author" [] tUser!) /\
  OutputName typeDefs "User".
Proof.
  split; [reflexivity|].
  exact (typeDefs_field_type_declared "Note" "author" (mkField "author" [] tUser!) eq_refl).
Defined.

(** The mutations the schema declares. *)
Lemma typeDefs_Mutation_fields :
  field_names typeDefs "Mutation" = ["newNote"; "updateNote"; "deleteNote"; "toggleReaction"].
Proof. reflexivity. Qed.

Lemma typeDefs_Query_fields :
  field_names typeDefs "Query" = ["singleNote"; "allNotes"; "myNotes"].
Proof. reflexivity. Qed.

(** ** Arguments of the declared mutations *)

(** A conforming [args] object is an object. *)
Lemma args_conform_obj (fd : FieldDefinition) (args : jsval) :
  args_conform fd args -> exists o, args = JObj o.
Proof. intros (o & -> & _). eauto. Qed.

(** A declared argument of type [ID!] or [String!] arrives as a string. *)
Lemma args_conform_string (fd : FieldDefinition) (args : jsval) (k n : string) :
  args_conform fd args ->
  mkInputValue k (NonNullType (NamedType n)) ∈ fd_arguments fd ->
  n = "ID" \/ n = "String" ->
  exists s, get_prop args k = Ok (JStr s).
Proof.
  intros (o & -> & Hall) Hk Hn. eapply Forall_forall in Hall; [|exact Hk]. simpl in Hall.
  assert (is_Some (as_string (default JUndefined (o !! k)))) as [s Hs].
  { unfold scalar_input in Hall. destruct Hn as [-> | ->]; by repeat case_decide. }
  exists s. simpl. destruct (default JUndefined (o !! k)); by simplify_eq/=.
Qed.

(** The four mutations of [typeDefs], by name. *)
Lemma typeDefs_Mutation_cases (field : string) (fd : FieldDefinition) :
  lookup_field typeDefs "Mutation" field = Some fd ->
  (field = "newNote" /\ fd = mkField "newNote" [mkInputValue "content" tString!] tNote) \/
  (field = "updateNote" /\
   fd = mkField "updateNote" [mkInputValue "id" tID!; mkInputValue "content" tString!] tNote!) \/
  (field = "deleteNote" /\ fd = mkField "deleteNote" [mkInputValue "id" tID!] tBoolean!) \/
  (field = "toggleReaction" /\
   fd = mkField "toggleReaction" [mkInputValue "noteID" tID!] tNote).
Proof.
  unfold lookup_field. simpl. repeat case_decide; intros; simplify_eq/=; naive_solver.
Qed.

(** every argument of every field the schema declares is a
    non-null [ID] or [String]: a resolver called for a validated
    operation finds each declared argument in [args], as a string. *)
Theorem typeDefs_arguments_strings (t f : string) (fd : FieldDefinition)
    (iv : InputValueDefinition) (args : jsval) :
  lookup_field typeDefs t f = Some fd -> iv ∈ fd_arguments fd -> args_conform fd args ->
  exists s, get_prop args (iv_name iv) = Ok (JStr s).
Proof.
  intros Hf Hiv Hargs.
  assert (exists n, iv_type iv = NonNullType (NamedType n) /\ (n = "ID" \/ n = "String"))
    as (n & Ht & Hn).
  { apply lookup_field_Some in Hf as (d & Hd & _ & Hfd & _).
    unfold typeDefs in Hd. rewrite !elem_of_cons, elem_of_nil in Hd.
    destruct Hd as [->|[->|[->|[->|[->|[]]]]]]; simpl in Hfd;
      rewrite ?elem_of_cons, ?elem_of_nil in Hfd; destruct_or?; simplify_eq/=;
      rewrite ?elem_of_cons, ?elem_of_nil in Hiv; destruct_or?; simplify_eq/=; eauto. }
  destruct iv as [k ty]. simpl in *. subst ty.
  by eapply args_conform_string.
Qed.

Lemma typeDefs_arguments_strings_witness :
  exists s, get_prop (js_object [("id", JStr "0"); ("content", JStr "*new*")]) "content"
            = Ok (JStr s).
Proof.
  refine (typeDefs_arguments_strings "Mutation" "updateNote"
            (mkField "updateNote" [mkInputValue "id" tID!; mkInputValue "content" tString!] tNote!)
            (mkInputValue "content" tString!) _ eq_refl _ _).
  - apply list_elem_of_further, list_elem_of_here.
  - eexists. split; [reflexivity|]. repeat constructor; by eexists.
Defined.
