(* ===== verification/Store.v ===== *)
(** * Store: notes, the note model's contract, and an implementation

    [Note] is the data model.  [NoteSpec] is the abstract specification
    of the note model: the state is a finite map from ids to notes and
    [NoteSpec.step] is the transition relation of its three calls,
    [NoteSpec.steps] a history of them.  [NoteModel.Ops] is the
    interface the resolvers of [Mutation.js] call, with the argument
    lists they pass.  [NoteModel.Laws] says that an implementation
    refines [NoteSpec] through an abstraction function and an
    invariant.  [MemStore] is an in-memory implementation and the proof
    that it satisfies the laws.

    The note model ([../models/note]) is not among the sources: its
    behaviour is taken from the specification (creation sets both
    timestamps to now and an empty [favoritedBy]; an update replaces
    [content] and [htmlContent] and bumps [updatedAt], and fails with
    [NotFound] on an unknown id; deletion returns whether the id
    existed).  A call whose arguments are not strings is rejected with
    an exception and changes nothing. *)

From stdpp Require Import pretty.
From S2P Require Import Prelude JsValue.

(** ** Notes *)

Record Note : Type := mkNote {
  note_id : string;
  content : string;
  htmlContent : string;
  authorId : string;
  favoritedBy : gset string;
  createdAt : Z;
  updatedAt : Z;
}.

#[export] Instance Note_eq_dec : EqDecision Note.
Proof. solve_decision. Defined.

(** [favoriteCount] is derived. *)
Definition favoriteCount (n : Note) : nat := size (favoritedBy n).

(** The object a resolver returns for a note. *)
Definition note_to_js (n : Note) : jsval :=
  js_object [
    ("id", JStr (note_id n));
    ("content", JStr (content n));
    ("htmlContent", JStr (htmlContent n));
    ("author", JStr (authorId n));
    ("favoriteCount", JNum (Z.of_nat (favoriteCount n)));
    ("favoritedBy", JArr (JStr <$> elements (favoritedBy n)));
    ("createdAt", JNum (createdAt n));
    ("updatedAt", JNum (updatedAt n))
  ].

(** Replace the text of a note at time [t]. *)
Definition set_content (c h : string) (t : Z) (n : Note) : Note :=
  {| note_id := note_id n; content := c; htmlContent := h; authorId := authorId n;
     favoritedBy := favoritedBy n; createdAt := createdAt n; updatedAt := t |}.

(** A note as creation makes it. *)
Definition new_note (i c h u : string) (t : Z) : Note :=
  {| note_id := i; content := c; htmlContent := h; authorId := u;
     favoritedBy := ∅; createdAt := t; updatedAt := t |}.

(** ** The abstract specification *)

Module NoteSpec.

(** A call of the model, with the values the caller passes. *)
Inductive call : Type :=
| Insert (args html userId : jsval)
| Update (id content html : jsval)
| Delete (id : jsval).

(** The strings a valid [Insert] carries: [args.content], the rendered
    text and the author's id. *)
Definition insert_input (args html userId : jsval) : option (string * string * string) :=
  match get_prop args "content", html, userId with
  | Ok (JStr c), JStr h, JStr u => Some (c, h, u)
  | _, _, _ => None
  end.

Definition update_input (id content html : jsval) : option (string * string * string) :=
  match id, content, html with
  | JStr i, JStr c, JStr h => Some (i, c, h)
  | _, _, _ => None
  end.

(** The transitions.  The id of a new note is any unused id and the
    time of a change any time not before the note's last change. *)
Inductive step (σ : gmap string Note) : call -> js jsval -> gmap string Note -> Prop :=
| step_insert args html userId c h u i t :
    insert_input args html userId = Some (c, h, u) ->
    σ !! i = None ->
    step σ (Insert args html userId) (Ok (note_to_js (new_note i c h u t)))
      (<[i := new_note i c h u t]> σ)
| step_insert_invalid args html userId msg :
    insert_input args html userId = None ->
    step σ (Insert args html userId) (Thrown (Error msg)) σ
| step_update id content html i c h n t :
    update_input id content html = Some (i, c, h) ->
    σ !! i = Some n ->
    (updatedAt n <= t)%Z ->
    step σ (Update id content html) (Ok (note_to_js (set_content c h t n)))
      (<[i := set_content c h t n]> σ)
| step_update_missing id content html i c h :
    update_input id content html = Some (i, c, h) ->
    σ !! i = None ->
    step σ (Update id content html) (Thrown (NotFound i)) σ
| step_update_invalid id content html msg :
    update_input id content html = None ->
    step σ (Update id content html) (Thrown (Error msg)) σ
| step_delete_found i n :
    σ !! i = Some n ->
    step σ (Delete (JStr i)) (Ok (JBool true)) (delete i σ)
| step_delete_missing i :
    σ !! i = None ->
    step σ (Delete (JStr i)) (Ok (JBool false)) σ
| step_delete_invalid id msg :
    as_string id = None ->
    step σ (Delete id) (Thrown (Error msg)) σ.

(** Every note is stored under its own id. *)
Definition IdsConsistent (σ : gmap string Note) : Prop :=
  map_Forall (fun i n => note_id n = i) σ.

(** [htmlContent] is the rendering of [content], for a renderer [render]. *)
Definition Rendered (render : string -> string) (σ : gmap string Note) : Prop :=
  map_Forall (fun _ n => htmlContent n = render (content n)) σ.

(** A call passes rendered text: its [html] is [render] of its content. *)
Definition call_rendered (render : string -> string) (c : call) : Prop :=
  match c with
  | Insert args html _ =>
      forall s, get_prop args "content" = Ok (JStr s) -> html = JStr (render s)
  | Update _ content html =>
      forall s, content = JStr s -> html = JStr (render s)
  | Delete _ => True
  end.

(** A history of the model: calls with their results, oldest first. *)
Inductive steps : gmap string Note -> list (call * js jsval) -> gmap string Note -> Prop :=
| steps_nil σ : steps σ [] σ
| steps_snoc σ tr σ' cl r σ'' :
    steps σ tr σ' -> step σ' cl r σ'' -> steps σ (tr ++ [(cl, r)]) σ''.

(** The calls of a history that returned. *)
Definition returned (tr : list (call * js jsval)) : list call :=
  omap (fun cr => if is_ok cr.2 then Some cr.1 else None) tr.

End NoteSpec.

(** ** The interface the resolvers call *)

Module NoteModel.

(** [insertNote(args, html, userId, db)], [updateNote(id, content, html,
    db)] and [deleteNote(id, db)], over a store of type [St]. *)
Class Ops (St : Type) : Type := {
  insertNote : jsval -> jsval -> jsval -> jsval -> eff St js_error jsval;
  updateNote : jsval -> jsval -> jsval -> jsval -> eff St js_error jsval;
  deleteNote : jsval -> jsval -> eff St js_error jsval;
}.

(** An implementation refines [NoteSpec]: on states that satisfy its
    representation invariant [inv], every call preserves [inv] and is a
    transition of the specification between the abstractions [abs] of
    the states before and after, whatever handle [db] it is given. *)
Class Laws (St : Type) `{Ops St} : Type := {
  abs : St -> gmap string Note;
  inv : St -> Prop;
  insertNote_refines s args html userId db r s' :
    inv s -> insertNote args html userId db s = (r, s') ->
    inv s' /\ NoteSpec.step (abs s) (NoteSpec.Insert args html userId) r (abs s');
  updateNote_refines s id content html db r s' :
    inv s -> updateNote id content html db s = (r, s') ->
    inv s' /\ NoteSpec.step (abs s) (NoteSpec.Update id content html) r (abs s');
  deleteNote_refines s id db r s' :
    inv s -> deleteNote id db s = (r, s') ->
    inv s' /\ NoteSpec.step (abs s) (NoteSpec.Delete id) r (abs s');
}.

End NoteModel.

(** ** An in-memory implementation *)

Module MemStore.

(** The notes, the counter ids are drawn from, a logical clock that
    stamps every change, and the number of store accesses so far. *)
Record store : Type := mkStore {
  notes : gmap string Note;
  next_id : nat;
  clock : Z;
  accesses : nat;
}.

Definition empty : store :=
  {| notes := ∅; next_id := 0; clock := 0; accesses := 0 |}.

(** The id drawn at counter value [k]. *)
Definition id_of (k : nat) : string := pretty k.

(** One access: the clock and the access counter advance. *)
Definition touch (s : store) : store :=
  {| notes := notes s; next_id := next_id s; clock := (clock s + 1)%Z;
     accesses := S (accesses s) |}.

Definition with_notes (f : gmap string Note -> gmap string Note) (s : store) : store :=
  {| notes := f (notes s); next_id := next_id s; clock := clock s; accesses := accesses s |}.

Definition bump_id (s : store) : store :=
  {| notes := notes s; next_id := S (next_id s); clock := clock s; accesses := accesses s |}.

Definition insertNote (args html userId db : jsval) : eff store js_error jsval :=
  fun s =>
    match NoteSpec.insert_input args html userId with
    | Some (c, h, u) =>
        let n := new_note (id_of (next_id s)) c h u (clock s) in
        (Ok (note_to_js n), touch (bump_id (with_notes (insert (note_id n) n) s)))
    | None => (Thrown (Error "Note validation failed"), s)
    end.

Definition updateNote (id content html db : jsval) : eff store js_error jsval :=
  fun s =>
    match NoteSpec.update_input id content html with
    | Some (i, c, h) =>
        match notes s !! i with
        | Some n =>
            let n' := set_content c h (Z.max (clock s) (updatedAt n)) n in
            (Ok (note_to_js n'), touch (with_notes (insert i n') s))
        | None => (Thrown (NotFound i), touch s)
        end
    | None => (Thrown (Error "Cast to ObjectId failed"), s)
    end.

Definition deleteNote (id db : jsval) : eff store js_error jsval :=
  fun s =>
    match id with
    | JStr i =>
        match notes s !! i with
        | Some _ => (Ok (JBool true), touch (with_notes (delete i) s))
        | None => (Ok (JBool false), touch s)
        end
    | _ => (Thrown (Error "Cast to ObjectId failed"), s)
    end.

(** The representation invariant: every note is stored under its own
    id, and every id in use was drawn below the counter. *)
Definition wf (s : store) : Prop :=
  map_Forall (fun i n => note_id n = i /\ exists k, i = id_of k /\ k < next_id s) (notes s).

#[export] Instance ops : NoteModel.Ops store := {|
  NoteModel.insertNote := insertNote;
  NoteModel.updateNote := updateNote;
  NoteModel.deleteNote := deleteNote;
|}.

End MemStore.

(** ** Notes and their objects *)

Lemma set_content_id c h t n : note_id (set_content c h t n) = note_id n.
Proof. reflexivity. Qed.

Lemma set_content_author c h t n : authorId (set_content c h t n) = authorId n.
Proof. reflexivity. Qed.

Lemma set_content_favoritedBy c h t n : favoritedBy (set_content c h t n) = favoritedBy n.
Proof. reflexivity. Qed.

Lemma note_to_js_obj (n : Note) : exists o, note_to_js n = JObj o.
Proof. unfold note_to_js, js_object. eauto. Qed.

Lemma truthy_note_to_js (n : Note) : truthy (note_to_js n) = true.
Proof. reflexivity. Qed.

Lemma is_nullish_note_to_js (n : Note) : is_nullish (note_to_js n) = false.
Proof. reflexivity. Qed.

(** The object of a note has the note's fields. *)
Lemma get_prop_note_to_js (n : Note) :
  get_prop (note_to_js n) "id" = Ok (JStr (note_id n)) /\
  get_prop (note_to_js n) "content" = Ok (JStr (content n)) /\
  get_prop (note_to_js n) "htmlContent" = Ok (JStr (htmlContent n)) /\
  get_prop (note_to_js n) "author" = Ok (JStr (authorId n)).
Proof. by repeat split. Qed.

(** ** Properties of the specification *)

Module NoteSpecFacts.
Import NoteSpec.

Section facts.
Implicit Types (σ : gmap string Note) (cl : call) (r : js jsval).

(** A call that throws changes nothing. *)
Lemma step_thrown_unchanged σ cl e σ' : step σ cl (Thrown e) σ' -> σ' = σ.
Proof. by inversion 1. Qed.

Lemma step_ids_consistent σ cl r σ' :
  IdsConsistent σ -> step σ cl r σ' -> IdsConsistent σ'.
Proof.
  unfold IdsConsistent. intros Hids Hstep.
  destruct Hstep; try done.
  - by apply map_Forall_insert_2.
  - apply map_Forall_insert_2; [|done]. by apply (Hids i n).
  - by apply map_Forall_delete.
Qed.

(** Calls that pass rendered text keep every note rendered. *)
Lemma step_rendered (render : string -> string) σ cl r σ' :
  Rendered render σ -> call_rendered render cl -> step σ cl r σ' -> Rendered render σ'.
Proof.
  unfold Rendered. intros Hren Hcall Hstep.
  destruct Hstep as [args html uid c0 h u i t Hin _| |id ct html i c0 h n t Hin _ _| | | | |];
    try done; simpl in Hcall.
  - apply map_Forall_insert_2; [|done]. simpl.
    unfold insert_input in Hin. repeat case_match; simplify_eq.
    specialize (Hcall _ eq_refl). by simplify_eq.
  - apply map_Forall_insert_2; [|done]. simpl.
    unfold update_input in Hin. repeat case_match; simplify_eq.
    specialize (Hcall _ eq_refl). by simplify_eq.
  - by apply map_Forall_delete.
Qed.

(** The target of a call: the only id whose note it may change. *)
Definition touches (cl : call) (r : js jsval) (i : string) : Prop :=
  match cl with
  | Insert _ _ _ => exists o, r = Ok (JObj o) /\ o !! "id" = Some (JStr i)
  | Update id _ _ => id = JStr i
  | Delete id => id = JStr i
  end.

(** Frame: a call leaves every note but its target as it was. *)
Lemma step_frame σ cl r σ' j :
  step σ cl r σ' -> ~ touches cl r j -> σ' !! j = σ !! j.
Proof.
  intros Hstep Hj. destruct Hstep; try done; simpl in Hj.
  - apply lookup_insert_ne. intros ->. apply Hj. eexists. split; [reflexivity|]. done.
  - apply lookup_insert_ne. intros ->. apply Hj.
    unfold update_input in *. by repeat case_match; simplify_eq.
  - apply lookup_delete_ne. naive_solver.
Qed.

(** Deletion: the result says whether the id existed, and afterwards it
    does not. *)
Lemma step_delete_inv σ i r σ' :
  step σ (Delete (JStr i)) r σ' ->
  r = Ok (JBool (bool_decide (is_Some (σ !! i)))) /\ σ' = delete i σ.
Proof.
  inversion 1; simplify_eq.
  - rewrite bool_decide_eq_true_2 by eauto. done.
  - rewrite bool_decide_eq_false_2 by (rewrite <- not_eq_None_Some; tauto).
    by rewrite delete_id.
Qed.

(** Update of a known id: the text is replaced, the rest of the note is
    kept and [updatedAt] does not go back. *)
Lemma step_update_found_inv σ i c h n r σ' :
  σ !! i = Some n ->
  step σ (Update (JStr i) (JStr c) (JStr h)) r σ' ->
  exists t, (updatedAt n <= t)%Z /\
    r = Ok (note_to_js (set_content c h t n)) /\ σ' = <[i := set_content c h t n]> σ.
Proof. intros Hn. inversion 1; simplify_eq/=; eauto. Qed.

(** Update of an unknown id fails with [NotFound] and changes nothing. *)
Lemma step_update_missing_inv σ i c h r σ' :
  σ !! i = None ->
  step σ (Update (JStr i) (JStr c) (JStr h)) r σ' ->
  r = Thrown (NotFound i) /\ σ' = σ.
Proof. intros Hn. inversion 1; simplify_eq/=; eauto. Qed.

(** Insertion of valid input adds one new note and returns it. *)
Lemma step_insert_inv σ args html uid c h u r σ' :
  insert_input args html uid = Some (c, h, u) ->
  step σ (Insert args html uid) r σ' ->
  exists i t, σ !! i = None /\
    r = Ok (note_to_js (new_note i c h u t)) /\ σ' = <[i := new_note i c h u t]> σ.
Proof. intros Hin. inversion 1; simplify_eq; eauto. Qed.

(** The results a call can have. *)
Lemma step_insert_result σ args html uid r σ' :
  step σ (Insert args html uid) r σ' ->
  (exists n, r = Ok (note_to_js n)) \/ (exists msg, r = Thrown (Error msg)).
Proof. inversion 1; eauto. Qed.

Lemma step_update_result σ i c h r σ' :
  step σ (Update (JStr i) (JStr c) (JStr h)) r σ' ->
  (exists n, r = Ok (note_to_js n)) \/ r = Thrown (NotFound i).
Proof. inversion 1; simplify_eq/=; eauto. Qed.

(** ** Histories *)

Lemma steps_one σ cl r σ' : step σ cl r σ' -> steps σ [(cl, r)] σ'.
Proof. intros Hstep. apply (steps_snoc σ [] σ); [constructor|done]. Qed.

Lemma steps_app σ tr1 σ1 tr2 σ2 :
  steps σ tr1 σ1 -> steps σ1 tr2 σ2 -> steps σ (tr1 ++ tr2) σ2.
Proof.
  intros H1 H2. induction H2 as [|σ1 tr σ' cl r σ'' _ IH Hstep].
  - by rewrite app_nil_r.
  - rewrite app_assoc. eapply steps_snoc; eauto.
Qed.

(** Only calls that returned change the notes. *)
Lemma steps_no_return σ tr σ' : steps σ tr σ' -> returned tr = [] -> σ' = σ.
Proof.
  unfold returned. induction 1 as [|σ tr σ' cl r σ'' _ IH Hstep]; [done|].
  rewrite omap_app. simpl. intros [Htr Hr]%app_eq_nil.
  destruct r as [v|e]; [done|]. apply step_thrown_unchanged in Hstep as ->. auto.
Qed.

Lemma steps_ids_consistent σ tr σ' :
  IdsConsistent σ -> steps σ tr σ' -> IdsConsistent σ'.
Proof. induction 2; eauto using step_ids_consistent. Qed.

Lemma steps_rendered (render : string -> string) σ tr σ' :
  Rendered render σ -> Forall (fun cr => call_rendered render cr.1) tr ->
  steps σ tr σ' -> Rendered render σ'.
Proof.
  intros Hren Hall Hsteps. induction Hsteps as [|σ tr σ' cl r σ'' _ IH Hstep]; [done|].
  apply Forall_app in Hall as [Htr Hcl]. rewrite Forall_singleton in Hcl.
  eapply step_rendered; [by apply IH|exact Hcl|exact Hstep].
Qed.

End facts.
End NoteSpecFacts.

(** ** The in-memory store satisfies the laws *)

Module MemStoreFacts.
Import MemStore.

Lemma id_of_inj : Inj (=) (=) id_of.
Proof. unfold id_of. apply _. Qed.

Lemma wf_empty : wf empty.
Proof. unfold wf, empty. simpl. apply map_Forall_empty. Qed.

(** The id the counter yields next is not in use. *)
Lemma wf_next_id_fresh s : wf s -> notes s !! id_of (next_id s) = None.
Proof.
  intros Hwf. destruct (notes s !! id_of (next_id s)) as [n|] eqn:Hn; [|done].
  apply Hwf in Hn as (_ & k & Hk%id_of_inj & Hlt). lia.
Qed.

Lemma wf_touch s : wf s -> wf (touch s).
Proof. done. Qed.

Lemma wf_insert_fresh s c h u t :
  wf s ->
  wf (bump_id (with_notes (insert (id_of (next_id s)) (new_note (id_of (next_id s)) c h u t)) s)).
Proof.
  intros Hwf. unfold wf. simpl. apply map_Forall_insert_2.
  - split; [done|]. exists (next_id s). split; [done|lia].
  - eapply map_Forall_impl; [exact Hwf|]. simpl. intros i n (? & k & ? & ?).
    split; [done|]. exists k. split; [done|lia].
Qed.

Lemma wf_update s i n' :
  wf s -> is_Some (notes s !! i) -> note_id n' = i -> wf (with_notes (insert i n') s).
Proof.
  intros Hwf [n Hn] Hid. unfold wf. simpl. apply map_Forall_insert_2; [|done].
  split; [done|]. by destruct (Hwf i n Hn) as (_ & Hk).
Qed.

Lemma wf_delete s i : wf s -> wf (with_notes (delete i) s).
Proof. intros Hwf. unfold wf. simpl. by apply map_Forall_delete. Qed.

Lemma mem_insertNote_refines s args html userId db r s' :
  wf s -> insertNote args html userId db s = (r, s') ->
  wf s' /\ NoteSpec.step (notes s) (NoteSpec.Insert args html userId) r (notes s').
Proof.
  intros Hwf. unfold insertNote.
  destruct (NoteSpec.insert_input args html userId) as [[[c h] u]|] eqn:Hin;
    intros [= <- <-].
  - split; [by apply wf_touch, wf_insert_fresh|].
    simpl. by apply NoteSpec.step_insert, wf_next_id_fresh.
  - split; [done|]. by constructor.
Qed.

Lemma mem_updateNote_refines s id content html db r s' :
  wf s -> updateNote id content html db s = (r, s') ->
  wf s' /\ NoteSpec.step (notes s) (NoteSpec.Update id content html) r (notes s').
Proof.
  intros Hwf. unfold updateNote.
  destruct (NoteSpec.update_input id content html) as [[[i c] h]|] eqn:Hin.
  - destruct (notes s !! i) as [n|] eqn:Hn; intros [= <- <-].
    + split.
      * apply wf_touch, wf_update; [done|eauto|]. by destruct (Hwf i n Hn).
      * simpl. eapply NoteSpec.step_update; [done..|lia].
    + split; [done|]. by eapply NoteSpec.step_update_missing.
  - intros [= <- <-]. split; [done|]. by constructor.
Qed.

Lemma mem_deleteNote_refines s id db r s' :
  wf s -> deleteNote id db s = (r, s') ->
  wf s' /\ NoteSpec.step (notes s) (NoteSpec.Delete id) r (notes s').
Proof.
  intros Hwf. unfold deleteNote.
  destruct id as [| | | |i| |]; try (intros [= <- <-]; split; [done|by constructor]).
  destruct (notes s !! i) as [n|] eqn:Hn; intros [= <- <-].
  - split; [by apply wf_touch, wf_delete|]. simpl. by eapply NoteSpec.step_delete_found.
  - split; [done|]. by apply NoteSpec.step_delete_missing.
Qed.

(** [MemStore] refines [NoteSpec]: the abstraction is the map of notes
    and the invariant is [wf]. *)
#[export] Instance laws : NoteModel.Laws store := {|
  NoteModel.abs := notes;
  NoteModel.inv := wf;
  NoteModel.insertNote_refines := mem_insertNote_refines;
  NoteModel.updateNote_refines := mem_updateNote_refines;
  NoteModel.deleteNote_refines := mem_deleteNote_refines;
|}.

(** Every call that reaches the store counts as one access; a call
    rejected for its arguments counts as none. *)
Lemma accesses_touch s : accesses (touch s) = S (accesses s).
Proof. reflexivity. Qed.

Lemma deleteNote_accesses i db s :
  accesses (deleteNote (JStr i) db s).2 = S (accesses s).
Proof. unfold deleteNote. by destruct (notes s !! i). Qed.

End MemStoreFacts.
