(* ===== verification/Context.v ===== *)
(** * Context: the per-request context of [src/api/index.js]

    Apollo calls the [context] function of the server's configuration
    once per operation with an object that holds the Express request,
    and passes what it returns to every resolver as third argument.
    The request's [session] property is set by the express-session
    middleware, which [index.js] installs before Apollo. *)

From S2P Require Import Prelude JsValue.

Section context.

(** [const models = require('./models')]: an opaque module object. *)
Context (models : jsval).

(** [async ({ req }) => { const user = req.session.user || '';
                          return { models, user }; }] *)
Definition context (arg : jsval) : js jsval :=
  let? req := get_prop arg "req" in
  let? session := get_prop req "session" in
  let? session_user := get_prop session "user" in
  let user := js_or session_user (JStr "") in
  Ok (js_object [("models", models); ("user", user)]).

(** The argument Apollo passes for a request whose session is [session]. *)
Definition request_with_session (session : jsval) : jsval :=
  js_object [("req", js_object [("session", session)])].

(** The identity a session carries: its [user] property, if there is a
    session object at all. *)
Definition session_user (session : jsval) : jsval :=
  match session with
  | JObj o => default JUndefined (o !! "user")
  | _ => JUndefined
  end.

(** ** The object [context] returns *)

Lemma context_request_with_session (session : jsval) :
  context (request_with_session session) =
  let? u := get_prop session "user" in
  Ok (js_object [("models", models); ("user", js_or u (JStr ""))]).
Proof. reflexivity. Qed.

(** With a session object the context is built, and it is the literal
    [{ models, user }] with [user] the session's user or [''].  *)
Lemma context_session_obj (o : gmap string jsval) :
  context (request_with_session (JObj o)) =
  Ok (js_object [("models", models); ("user", js_or (session_user (JObj o)) (JStr ""))]).
Proof. reflexivity. Qed.

(** Without a session ([req.session] is [undefined]: the session
    middleware did not run) building the context throws a [TypeError]. *)
Lemma context_no_session :
  exists msg, context (request_with_session JUndefined) = Thrown (TypeError msg).
Proof. eexists. reflexivity. Qed.

(** The [user] of the context is never [undefined] or [null]: it is the
    session's user when that is truthy and the empty string otherwise. *)
Lemma context_user (o : gmap string jsval) (ctx : jsval) :
  context (request_with_session (JObj o)) = Ok ctx ->
  get_prop ctx "user" =
    Ok (if truthy (session_user (JObj o)) then session_user (JObj o) else JStr "").
Proof. rewrite context_session_obj. intros [= <-]. reflexivity. Qed.

(** C9: The context identifies a user exactly when the session does. *)
Lemma context_user_truthy (o : gmap string jsval) (ctx u : jsval) :
  context (request_with_session (JObj o)) = Ok ctx ->
  get_prop ctx "user" = Ok u ->
  truthy u = truthy (session_user (JObj o)).
Proof.
  intros Hctx. rewrite (context_user o ctx Hctx).
  generalize (session_user (JObj o)). intros v [= <-].
  by destruct (truthy v) eqn:Hv.
Qed.

(** An anonymous session yields the empty string as [user]. *)
Lemma context_anonymous (o : gmap string jsval) (ctx : jsval) :
  truthy (session_user (JObj o)) = false ->
  context (request_with_session (JObj o)) = Ok ctx ->
  get_prop ctx "user" = Ok (JStr "").
Proof. intros Hu Hctx. rewrite (context_user o ctx Hctx). by rewrite Hu. Qed.

(** The context has the properties [models] and [user] and no other:
    in particular reading [db] from it yields [undefined]. *)
Lemma context_props (o : gmap string jsval) (ctx : jsval) (k : string) :
  context (request_with_session (JObj o)) = Ok ctx ->
  k ≠ "models" -> k ≠ "user" -> get_prop ctx k = Ok JUndefined.
Proof.
  rewrite context_session_obj. intros [= <-] Hm Hu.
  by apply get_prop_js_object_pair_other.
Qed.

Lemma context_models (o : gmap string jsval) (ctx : jsval) :
  context (request_with_session (JObj o)) = Ok ctx -> get_prop ctx "models" = Ok models.
Proof. rewrite context_session_obj. intros [= <-]. by apply get_prop_js_object_pair_1. Qed.

End context.

(** ** The theorems at concrete inputs *)

Lemma context_user_truthy_witness :
  truthy (js_object [("id", JStr "u1")])
  = truthy (session_user (JObj {[ "user" := js_object [("id", JStr "u1")] ]})).
Proof.
  exact (context_user_truthy JNull {[ "user" := js_object [("id", JStr "u1")] ]}
           (js_object [("models", JNull); ("user", js_object [("id", JStr "u1")])])
           (js_object [("id", JStr "u1")]) eq_refl eq_refl).
Defined.

Lemma context_props_witness :
  get_prop (js_object [("models", JNull); ("user", JStr "")]) "db" = Ok JUndefined.
Proof.
  refine (context_props JNull ∅ (js_object [("models", JNull); ("user", JStr "")]) "db"
            eq_refl _ _); discriminate.
Defined.
