(* ===== verification/Resolvers.v ===== *)
(** * Resolvers: the mutations of [src/api/resolvers/Mutation.js]

    Module [Mutation] transcribes the file: [md] is [marked] with the
    options the file sets, and [newNote], [updateNote] and [deleteNote]
    are the three exported resolvers, each a function of [(parent, args,
    context)] that runs in the state-and-exception monad over the store
    of a note model.  The theorems give the behaviour of each resolver
    on every branch, the invariants the resolvers keep, their refinement
    of [NoteSpec], and what they do and do not do with the caller's
    identity. *)

From S2P Require Import Prelude JsValue Schema Store Context.

(** The options of [marked] the file sets. *)
Record MarkedOptions : Type := mkMarkedOptions {
  headerIds : bool;
  sanitize : bool;
}.

(** A resolver: [(parent, args, context) => result]. *)
Definition resolver (St : Type) : Type := jsval -> jsval -> jsval -> eff St js_error jsval.

Module Mutation.

(** [require('marked').setOptions({ headerIds: true, sanitize: true })] *)
Definition md_options : MarkedOptions := {| headerIds := true; sanitize := true |}.

Section resolvers.

(** The renderer: [marked] as a function of its options and its input. *)
Context (marked : MarkedOptions -> string -> string).
Context {St : Type} `{!NoteModel.Ops St}.

(** The rendering the resolvers apply. *)
Definition render : string -> string := marked md_options.

(** [md(src)]: [marked] refuses an input that is not a string. *)
Definition md (src : jsval) : js jsval :=
  if is_nullish src then Thrown (Error "marked(): input parameter is undefined or null")
  else match src with
       | JStr s => Ok (JStr (render s))
       | _ => Thrown (Error "marked(): input parameter is not a string")
       end.

(** [newNote: (parent, args, { db, user }) => {
       if (!user) { return null; }
       let html = md(args.content);
       return NoteModel.insertNote(args, html, user.id, db); }] *)
Definition newNote : resolver St := fun parent args ctx =>
  let* db := lift_outcome (get_prop ctx "db") in
  let* user := lift_outcome (get_prop ctx "user") in
  if js_not user then eret JNull
  else
    let* content := lift_outcome (get_prop args "content") in
    let* html := lift_outcome (md content) in
    let* userId := lift_outcome (get_prop user "id") in
    NoteModel.insertNote args html userId db.

(** [updateNote: (parent, args, { db }) => {
       let html = md(args.content);
       return NoteModel.updateNote(args.id, args.content, html, db); }] *)
Definition updateNote : resolver St := fun parent args ctx =>
  let* db := lift_outcome (get_prop ctx "db") in
  let* content := lift_outcome (get_prop args "content") in
  let* html := lift_outcome (md content) in
  let* id := lift_outcome (get_prop args "id") in
  let* content' := lift_outcome (get_prop args "content") in
  NoteModel.updateNote id content' html db.

(** [deleteNote: (parent, args, { db }) => {
       return NoteModel.deleteNote(args.id, db); }] *)
Definition deleteNote : resolver St := fun parent args ctx =>
  let* db := lift_outcome (get_prop ctx "db") in
  let* id := lift_outcome (get_prop args "id") in
  NoteModel.deleteNote id db.

(** [module.exports = { newNote, updateNote, deleteNote }] *)
Definition exports : list (string * resolver St) :=
  [("newNote", newNote); ("updateNote", updateNote); ("deleteNote", deleteNote)].

(** The names of the exported resolvers. *)
Definition exported_names : list string := exports.*1.

End resolvers.

(** ** What each resolver does, branch by branch *)

Section behaviour.
Context (marked : MarkedOptions -> string -> string).
Context {St : Type} `{!NoteModel.Ops St}.
Implicit Types (parent args ctx db user : jsval) (s : St) (c : string).

Local Abbreviation render := (render marked).
Local Abbreviation md := (md marked).
Local Abbreviation newNote := (newNote marked).
Local Abbreviation updateNote := (updateNote marked).

Lemma md_string c : md (JStr c) = Ok (JStr (render c)).
Proof. reflexivity. Qed.

(** [md] succeeds exactly on strings. *)
Lemma md_ok_inv src html : md src = Ok html -> exists c, src = JStr c /\ html = JStr (render c).
Proof. unfold Mutation.md. destruct src; simpl; intros; simplify_eq; eauto. Qed.

Lemma md_thrown_inv src e : md src = Thrown e -> as_string src = None /\ exists msg, e = Error msg.
Proof. unfold Mutation.md. destruct src; simpl; intros; simplify_eq; eauto. Qed.

(** A context that has a [user] can be destructured as [{ db, user }]. *)
Lemma ctx_db_ok ctx user :
  get_prop ctx "user" = Ok user -> exists db, get_prop ctx "db" = Ok db.
Proof. destruct ctx; simpl; intros; simplify_eq; eauto. Qed.

(** [newNote] past the destructuring of its context: the guard on
    [user], then the three steps that lead to the model. *)
Lemma newNote_guard parent args ctx db user s :
  get_prop ctx "db" = Ok db -> get_prop ctx "user" = Ok user ->
  newNote parent args ctx s =
    if truthy user then
      (let* content := lift_outcome (get_prop args "content") in
       let* html := lift_outcome (md content) in
       let* userId := lift_outcome (get_prop user "id") in
       NoteModel.insertNote args html userId db) s
    else (Ok JNull, s).
Proof.
  intros Hdb Hu. unfold Mutation.newNote, ebind at 1 2, lift_outcome at 1 2.
  rewrite Hdb, Hu. unfold js_not. by destruct (truthy user).
Qed.

(** C2: [newNote] called without a user (the context's [user] is
    falsy: [undefined], [null], [false], [0] or the empty string)
    returns [null] and leaves the store as it was; the note model is
    not called. *)
Theorem newNote_anonymous parent args ctx user s :
  get_prop ctx "user" = Ok user -> truthy user = false ->
  newNote parent args ctx s = (Ok JNull, s).
Proof.
  intros Hu Hf. destruct (ctx_db_ok ctx user Hu) as [db Hdb].
  by rewrite (newNote_guard parent args ctx db user s Hdb Hu), Hf.
Qed.

(** With a user and a string as content, [newNote] is one call of the
    model's [insertNote] with the arguments, the rendering of the
    content, the user's [id] and the context's [db]. *)
Theorem newNote_authenticated parent args ctx db user userId c s :
  get_prop ctx "db" = Ok db -> get_prop ctx "user" = Ok user -> truthy user = true ->
  get_prop args "content" = Ok (JStr c) -> get_prop user "id" = Ok userId ->
  newNote parent args ctx s = NoteModel.insertNote args (JStr (render c)) userId db s.
Proof.
  intros Hdb Hu Ht Hc Hid. rewrite (newNote_guard parent args ctx db user s Hdb Hu), Ht.
  unfold ebind, lift_outcome. by rewrite Hc, md_string, Hid.
Qed.

(** C39: With a user and content that is not a string, [newNote] throws the
    renderer's error before the model is called. *)
Theorem newNote_bad_content parent args ctx user v s :
  get_prop ctx "user" = Ok user -> truthy user = true ->
  get_prop args "content" = Ok v -> as_string v = None ->
  exists msg, newNote parent args ctx s = (Thrown (Error msg), s).
Proof.
  intros Hu Ht Hc Hv. destruct (ctx_db_ok ctx user Hu) as [db Hdb].
  rewrite (newNote_guard parent args ctx db user s Hdb Hu), Ht.
  unfold ebind, lift_outcome. rewrite Hc.
  destruct v; simpl in *; simplify_eq; eauto.
Qed.

(** [updateNote] with string arguments is one call of the model's
    [updateNote] with the id, the content, its rendering and [db]. *)
Theorem updateNote_calls_model parent args ctx db id c s :
  get_prop ctx "db" = Ok db ->
  get_prop args "content" = Ok (JStr c) -> get_prop args "id" = Ok id ->
  updateNote parent args ctx s = NoteModel.updateNote id (JStr c) (JStr (render c)) db s.
Proof.
  intros Hdb Hc Hid. unfold Mutation.updateNote, ebind, lift_outcome.
  rewrite Hdb, Hc. simpl. by rewrite Hid.
Qed.

(** [deleteNote] is one call of the model's [deleteNote]. *)
Theorem deleteNote_calls_model parent args ctx db id s :
  get_prop ctx "db" = Ok db -> get_prop args "id" = Ok id ->
  deleteNote parent args ctx s = NoteModel.deleteNote id db s.
Proof.
  intros Hdb Hid. unfold deleteNote, ebind, lift_outcome. by rewrite Hdb, Hid.
Qed.

(** Neither [updateNote] nor [deleteNote] reads the context's [user]:
    two contexts with the same [db] give the same run. *)
Theorem updateNote_ignores_user parent args ctx ctx' s :
  get_prop ctx "db" = get_prop ctx' "db" ->
  updateNote parent args ctx s = updateNote parent args ctx' s.
Proof. intros Hdb. unfold Mutation.updateNote, ebind. by rewrite Hdb. Qed.

Theorem deleteNote_ignores_user parent args ctx ctx' s :
  get_prop ctx "db" = get_prop ctx' "db" ->
  deleteNote parent args ctx s = deleteNote parent args ctx' s.
Proof. intros Hdb. unfold deleteNote, ebind. by rewrite Hdb. Qed.

(** No resolver reads its [parent]. *)
Lemma exports_ignore_parent name (f : resolver St) parent parent' args ctx s :
  (name, f) ∈ exports marked -> f parent args ctx s = f parent' args ctx s.
Proof. unfold exports. rewrite !elem_of_cons, elem_of_nil. by intros [?|[?|[?|[]]]]; simplify_eq. Qed.

End behaviour.

(** ** Refinement of the specification, and the invariants *)

Section refinement.
Context (marked : MarkedOptions -> string -> string).
Context {St : Type} `{!NoteModel.Ops St} `{!NoteModel.Laws St}.
Implicit Types (parent args ctx db user : jsval) (s : St) (c : string)
  (σ : gmap string Note) (r : js jsval).

Local Abbreviation render := (render marked).
Local Abbreviation md := (md marked).
Local Abbreviation newNote := (newNote marked).
Local Abbreviation updateNote := (updateNote marked).
Local Abbreviation exports := (exports marked).

(** What a run of a resolver is to the specification: nothing (the
    notes are as before), or one transition by a call that passes
    rendered text. *)
Definition refines_step σ r σ' : Prop :=
  σ' = σ \/ exists cl, NoteSpec.call_rendered render cl /\ NoteSpec.step σ cl r σ'.

(** [run_resolver Hrun] splits the run [Hrun] of a resolver at each
    property access and call of [md], closing the branches that throw. *)
Ltac run_resolver Hrun :=
  unfold ebind, lift_outcome, eret in Hrun;
  repeat (case_match; simplify_eq; try (split; [done|by left])).

Lemma newNote_refines parent args ctx s r s' :
  NoteModel.inv s -> newNote parent args ctx s = (r, s') ->
  NoteModel.inv s' /\ refines_step (NoteModel.abs s) r (NoteModel.abs s').
Proof.
  intros Hinv Hrun. unfold Mutation.newNote in Hrun. run_resolver Hrun.
  match goal with H : md _ = Ok _ |- _ => apply md_ok_inv in H as (c & -> & ->) end.
  destruct (NoteModel.insertNote_refines _ _ _ _ _ _ _ Hinv Hrun) as [? Hstep].
  split; [done|]. right. eexists. split; [|exact Hstep].
  simpl. intros c' Hc'. congruence.
Qed.

Lemma updateNote_refines parent args ctx s r s' :
  NoteModel.inv s -> updateNote parent args ctx s = (r, s') ->
  NoteModel.inv s' /\ refines_step (NoteModel.abs s) r (NoteModel.abs s').
Proof.
  intros Hinv Hrun. unfold Mutation.updateNote in Hrun. run_resolver Hrun.
  match goal with H : md _ = Ok _ |- _ => apply md_ok_inv in H as (c & -> & ->) end.
  destruct (NoteModel.updateNote_refines _ _ _ _ _ _ _ Hinv Hrun) as [? Hstep].
  split; [done|]. right. eexists. split; [|exact Hstep].
  simpl. intros c' Hc'. congruence.
Qed.

Lemma deleteNote_refines parent args ctx s r s' :
  NoteModel.inv s -> deleteNote parent args ctx s = (r, s') ->
  NoteModel.inv s' /\ refines_step (NoteModel.abs s) r (NoteModel.abs s').
Proof.
  intros Hinv Hrun. unfold deleteNote in Hrun. run_resolver Hrun.
  destruct (NoteModel.deleteNote_refines _ _ _ _ _ Hinv Hrun) as [? Hstep].
  split; [done|]. right. eexists. split; [|exact Hstep]. done.
Qed.

(** One run of an exported resolver, with any arguments and any
    context, keeps the model's invariant and changes the notes by at
    most one transition of [NoteSpec], made by a call that passes
    rendered text. *)
Lemma export_refines_step name (f : resolver St) parent args ctx s r s' :
  (name, f) ∈ exports -> NoteModel.inv s -> f parent args ctx s = (r, s') ->
  NoteModel.inv s' /\ refines_step (NoteModel.abs s) r (NoteModel.abs s').
Proof.
  unfold Mutation.exports. rewrite !elem_of_cons, elem_of_nil.
  intros [?|[?|[?|[]]]]; simplify_eq;
    eauto using newNote_refines, updateNote_refines, deleteNote_refines.
Qed.

Lemma refines_step_rendered σ r σ' :
  NoteSpec.Rendered render σ -> refines_step σ r σ' -> NoteSpec.Rendered render σ'.
Proof.
  intros Hren [->|(cl & Hcl & Hstep)]; [done|].
  by eapply NoteSpecFacts.step_rendered.
Qed.

Lemma refines_step_ids σ r σ' :
  NoteSpec.IdsConsistent σ -> refines_step σ r σ' -> NoteSpec.IdsConsistent σ'.
Proof.
  intros Hids [->|(cl & _ & Hstep)]; [done|].
  by eapply NoteSpecFacts.step_ids_consistent.
Qed.

(** C1: the rendering invariant.  If every note's [htmlContent] is the
    rendering of its [content], it is so after any exported resolver has
    run, whatever its arguments and context and whether it returned or
    threw: clients cannot set [htmlContent] apart from [content]. *)
Theorem exports_preserve_rendered name (f : resolver St) parent args ctx s r s' :
  (name, f) ∈ exports -> NoteModel.inv s ->
  NoteSpec.Rendered render (NoteModel.abs s) ->
  f parent args ctx s = (r, s') ->
  NoteSpec.Rendered render (NoteModel.abs s').
Proof.
  intros Hf Hinv Hren Hrun.
  destruct (export_refines_step name f parent args ctx s r s' Hf Hinv Hrun) as [_ Hstep].
  by eapply refines_step_rendered.
Qed.

(** ** Reachable stores *)

(** The stores reachable from [s0] by running exported resolvers. *)
Inductive reachable (s0 : St) : St -> Prop :=
| reachable_init : reachable s0 s0
| reachable_run s name f parent args ctx r s' :
    reachable s0 s -> (name, f) ∈ exports -> f parent args ctx s = (r, s') ->
    reachable s0 s'.

(** The invariant of the system: the model's representation invariant,
    notes stored under their ids, and every note rendered. *)
Definition system_inv s : Prop :=
  NoteModel.inv s /\
  NoteSpec.IdsConsistent (NoteModel.abs s) /\
  NoteSpec.Rendered render (NoteModel.abs s).

Lemma system_inv_run name (f : resolver St) parent args ctx s r s' :
  (name, f) ∈ exports -> system_inv s -> f parent args ctx s = (r, s') -> system_inv s'.
Proof.
  intros Hf (Hinv & Hids & Hren) Hrun.
  destruct (export_refines_step name f parent args ctx s r s' Hf Hinv Hrun) as [? Hstep].
  repeat split; eauto using refines_step_ids, refines_step_rendered.
Qed.

(** C4: every store reachable from one that satisfies the system
    invariant satisfies it: after any sequence of mutations, by any
    callers, each note is stored under its id and its [htmlContent] is
    the rendering of its [content]. *)
Theorem reachable_system_inv s0 s :
  system_inv s0 -> reachable s0 s -> system_inv s.
Proof. intros Hinit. induction 1; eauto using system_inv_run. Qed.

(** C3: the resolvers refine the specification of the note model.
    Whatever sequence of exported resolvers has run, with whatever
    arguments and contexts, from a store that satisfies the model's
    invariant: the invariant holds, and the notes are those a history of
    [NoteSpec] leads to, every call of which passes as [html] the
    rendering of its content. *)
Theorem exports_refine s0 s :
  NoteModel.inv s0 -> reachable s0 s ->
  NoteModel.inv s /\
  exists tr, Forall (fun cr => NoteSpec.call_rendered render cr.1) tr /\
    NoteSpec.steps (NoteModel.abs s0) tr (NoteModel.abs s).
Proof.
  intros Hinit. induction 1 as [|s name f parent args ctx r s' _ [Hinv (tr & Htr & Hsteps)] Hf Hrun].
  { split; [done|]. exists []. split; constructor. }
  destruct (export_refines_step name f parent args ctx s r s' Hf Hinv Hrun)
    as [Hinv' [Heq|(cl & Hcl & Hstep)]]; split; try done.
  - exists tr. by rewrite Heq.
  - exists (tr ++ [(cl, r)]). split; [|by eapply NoteSpec.steps_snoc].
    apply Forall_app. split; [done|]. by apply Forall_singleton.
Qed.

(** ** The resolvers on the notes *)

(** With arguments as the schema declares them, a run of a resolver is
    one transition of the specification, by the call the resolver makes. *)
Lemma newNote_step parent args ctx user uid c s r s' :
  NoteModel.inv s ->
  get_prop ctx "user" = Ok user -> truthy user = true -> get_prop user "id" = Ok uid ->
  get_prop args "content" = Ok (JStr c) ->
  newNote parent args ctx s = (r, s') ->
  NoteModel.inv s' /\
  NoteSpec.step (NoteModel.abs s) (NoteSpec.Insert args (JStr (render c)) uid) r (NoteModel.abs s').
Proof.
  intros Hinv Hu Ht Hid Hc Hrun. destruct (ctx_db_ok ctx user Hu) as [db Hdb].
  rewrite (newNote_authenticated marked parent args ctx db user uid c s) in Hrun by done.
  by eapply NoteModel.insertNote_refines.
Qed.

Lemma updateNote_step parent args ctx db id c s r s' :
  NoteModel.inv s -> get_prop ctx "db" = Ok db ->
  get_prop args "id" = Ok id -> get_prop args "content" = Ok (JStr c) ->
  updateNote parent args ctx s = (r, s') ->
  NoteModel.inv s' /\
  NoteSpec.step (NoteModel.abs s) (NoteSpec.Update id (JStr c) (JStr (render c))) r (NoteModel.abs s').
Proof.
  intros Hinv Hdb Hid Hc Hrun.
  rewrite (updateNote_calls_model marked parent args ctx db id c s) in Hrun by done.
  by eapply NoteModel.updateNote_refines.
Qed.

Lemma deleteNote_step parent args ctx db id s r s' :
  NoteModel.inv s -> get_prop ctx "db" = Ok db -> get_prop args "id" = Ok id ->
  deleteNote parent args ctx s = (r, s') ->
  NoteModel.inv s' /\ NoteSpec.step (NoteModel.abs s) (NoteSpec.Delete id) r (NoteModel.abs s').
Proof.
  intros Hinv Hdb Hid Hrun.
  rewrite (deleteNote_calls_model parent args ctx db id s) in Hrun by done.
  by eapply NoteModel.deleteNote_refines.
Qed.

(** C15: [newNote] by a user, with a string as content: a note that did not
    exist is added, with the content, its rendering, the user's id as
    author and no favorites, and its object is returned. *)
Theorem newNote_creates parent args ctx user u c s r s' :
  NoteModel.inv s ->
  get_prop ctx "user" = Ok user -> truthy user = true -> get_prop user "id" = Ok (JStr u) ->
  get_prop args "content" = Ok (JStr c) ->
  newNote parent args ctx s = (r, s') ->
  exists i t, NoteModel.abs s !! i = None /\
    r = Ok (note_to_js (new_note i c (render c) u t)) /\
    NoteModel.abs s' = <[i := new_note i c (render c) u t]> (NoteModel.abs s).
Proof.
  intros Hinv Hu Ht Hid Hc Hrun.
  destruct (newNote_step parent args ctx user (JStr u) c s r s' Hinv Hu Ht Hid Hc Hrun) as [_ Hstep].
  eapply NoteSpecFacts.step_insert_inv; [|done]. unfold NoteSpec.insert_input. by rewrite Hc.
Qed.

(** C16: [updateNote] of a known id: the note's content is replaced and its
    [htmlContent] re-rendered; id, author, favorites and creation time
    are kept, and [updatedAt] does not go back. *)
Theorem updateNote_found parent args ctx db i c n s r s' :
  NoteModel.inv s -> get_prop ctx "db" = Ok db ->
  get_prop args "id" = Ok (JStr i) -> get_prop args "content" = Ok (JStr c) ->
  NoteModel.abs s !! i = Some n ->
  updateNote parent args ctx s = (r, s') ->
  exists t, (updatedAt n <= t)%Z /\
    r = Ok (note_to_js (set_content c (render c) t n)) /\
    NoteModel.abs s' = <[i := set_content c (render c) t n]> (NoteModel.abs s).
Proof.
  intros Hinv Hdb Hid Hc Hn Hrun.
  destruct (updateNote_step parent args ctx db (JStr i) c s r s' Hinv Hdb Hid Hc Hrun) as [_ Hstep].
  by eapply NoteSpecFacts.step_update_found_inv.
Qed.

(** C17: [updateNote] of an unknown id fails with [NotFound] and changes no
    note. *)
Theorem updateNote_not_found parent args ctx db i c s r s' :
  NoteModel.inv s -> get_prop ctx "db" = Ok db ->
  get_prop args "id" = Ok (JStr i) -> get_prop args "content" = Ok (JStr c) ->
  NoteModel.abs s !! i = None ->
  updateNote parent args ctx s = (r, s') ->
  r = Thrown (NotFound i) /\ NoteModel.abs s' = NoteModel.abs s.
Proof.
  intros Hinv Hdb Hid Hc Hn Hrun.
  destruct (updateNote_step parent args ctx db (JStr i) c s r s' Hinv Hdb Hid Hc Hrun) as [_ Hstep].
  by eapply NoteSpecFacts.step_update_missing_inv.
Qed.

(** C18: [deleteNote] returns whether the id existed, and afterwards the id
    resolves to no note; when it did not exist the notes are unchanged. *)
Theorem deleteNote_deletes parent args ctx db i s r s' :
  NoteModel.inv s -> get_prop ctx "db" = Ok db -> get_prop args "id" = Ok (JStr i) ->
  deleteNote parent args ctx s = (r, s') ->
  r = Ok (JBool (bool_decide (is_Some (NoteModel.abs s !! i)))) /\
  NoteModel.abs s' = delete i (NoteModel.abs s) /\
  NoteModel.abs s' !! i = None.
Proof.
  intros Hinv Hdb Hid Hrun.
  destruct (deleteNote_step parent args ctx db (JStr i) s r s' Hinv Hdb Hid Hrun) as [_ Hstep].
  apply NoteSpecFacts.step_delete_inv in Hstep as [-> ->].
  repeat split. apply lookup_delete_eq.
Qed.

End refinement.
End Mutation.

(** ** The theorems at concrete inputs *)

Module Samples.
Import MemStore MemStoreFacts.

(** A renderer to run the resolvers with. *)
Definition sample_marked : MarkedOptions -> string -> string :=
  fun opts src => if sanitize opts then "<p>" +:+ src +:+ "</p>" else src.

Definition sample_args : jsval := js_object [("content", JStr "# Hi")].

(** The contexts [context] builds for a session without a user and for
    the session of the user [u1]. *)
Definition anonymous_ctx : jsval := js_object [("models", JNull); ("user", JStr "")].

Definition user_ctx : jsval :=
  js_object [("models", JNull); ("user", js_object [("id", JStr "u1")])].

(** The store after [u1] has created a note. *)
Definition one_note : store :=
  (Mutation.newNote sample_marked JNull sample_args user_ctx empty).2.

Definition update_args : jsval := js_object [("id", JStr "0"); ("content", JStr "*new*")].

Definition delete_args : jsval := js_object [("id", JStr "0")].

End Samples.

Import Samples MemStore MemStoreFacts.

Lemma newNote_anonymous_witness :
  Mutation.newNote sample_marked JNull sample_args anonymous_ctx MemStore.empty
  = (Ok JNull, MemStore.empty).
Proof.
  exact (Mutation.newNote_anonymous sample_marked JNull sample_args anonymous_ctx
           (JStr "") MemStore.empty eq_refl eq_refl).
Defined.

Lemma newNote_authenticated_witness :
  Mutation.newNote sample_marked JNull sample_args user_ctx MemStore.empty
  = MemStore.insertNote sample_args (JStr "<p># Hi</p>") (JStr "u1") JUndefined MemStore.empty.
Proof.
  exact (Mutation.newNote_authenticated sample_marked JNull sample_args user_ctx JUndefined
           (js_object [("id", JStr "u1")]) (JStr "u1") "# Hi" MemStore.empty
           eq_refl eq_refl eq_refl eq_refl eq_refl).
Defined.

(** The store that holds no note satisfies the system invariant, and
    [one_note] is reachable from it. *)
Lemma empty_system_inv : Mutation.system_inv sample_marked MemStore.empty.
Proof. split; [apply MemStoreFacts.wf_empty|split; apply map_Forall_empty]. Qed.

Lemma one_note_reachable : Mutation.reachable sample_marked MemStore.empty one_note.
Proof.
  eapply (Mutation.reachable_run sample_marked _ _ "newNote" _ JNull sample_args user_ctx).
  - apply Mutation.reachable_init.
  - apply list_elem_of_here.
  - reflexivity.
Qed.

Lemma one_note_system_inv : Mutation.system_inv sample_marked one_note.
Proof.
  refine (Mutation.system_inv_run sample_marked "newNote" (Mutation.newNote sample_marked)
            JNull sample_args user_ctx MemStore.empty
            (Mutation.newNote sample_marked JNull sample_args user_ctx MemStore.empty).1
            one_note _ empty_system_inv eq_refl).
  apply list_elem_of_here.
Qed.

Lemma one_note_wf : NoteModel.inv one_note.
Proof. apply one_note_system_inv. Qed.

Lemma exports_refine_witness :
  NoteModel.inv one_note /\
  exists tr, Forall (fun cr => NoteSpec.call_rendered (Mutation.render sample_marked) cr.1) tr /\
    NoteSpec.steps (NoteModel.abs MemStore.empty) tr (NoteModel.abs one_note).
Proof.
  exact (Mutation.exports_refine sample_marked MemStore.empty one_note
           MemStoreFacts.wf_empty one_note_reachable).
Defined.

Lemma exports_preserve_rendered_witness :
  NoteSpec.Rendered (Mutation.render sample_marked)
    (MemStore.notes (Mutation.updateNote sample_marked JNull update_args anonymous_ctx one_note).2).
Proof.
  refine (Mutation.exports_preserve_rendered sample_marked "updateNote"
           (Mutation.updateNote sample_marked) JNull update_args anonymous_ctx one_note
           (Mutation.updateNote sample_marked JNull update_args anonymous_ctx one_note).1
           (Mutation.updateNote sample_marked JNull update_args anonymous_ctx one_note).2
           _ _ _ _).
  - apply list_elem_of_further, list_elem_of_here.
  - apply one_note_wf.
  - apply one_note_system_inv.
  - reflexivity.
Defined.

Lemma reachable_system_inv_witness :
  Mutation.system_inv sample_marked one_note.
Proof.
  exact (Mutation.reachable_system_inv sample_marked MemStore.empty one_note
           empty_system_inv one_note_reachable).
Defined.

Lemma newNote_bad_content_witness :
  exists msg,
    Mutation.newNote sample_marked JNull (js_object [("content", JNum 7)]) user_ctx MemStore.empty
    = (Thrown (Error msg), MemStore.empty).
Proof.
  exact (Mutation.newNote_bad_content sample_marked JNull (js_object [("content", JNum 7)])
           user_ctx (js_object [("id", JStr "u1")]) (JNum 7) MemStore.empty
           eq_refl eq_refl eq_refl eq_refl).
Defined.

Lemma newNote_creates_witness :
  exists i t, NoteModel.abs MemStore.empty !! i = None /\
    (Mutation.newNote sample_marked JNull sample_args user_ctx MemStore.empty).1
      = Ok (note_to_js (new_note i "# Hi" (Mutation.render sample_marked "# Hi") "u1" t)) /\
    NoteModel.abs one_note
      = <[i := new_note i "# Hi" (Mutation.render sample_marked "# Hi") "u1" t]>
          (NoteModel.abs MemStore.empty).
Proof.
  refine (Mutation.newNote_creates sample_marked JNull sample_args user_ctx
            (js_object [("id", JStr "u1")]) "u1" "# Hi" MemStore.empty _ one_note
            MemStoreFacts.wf_empty eq_refl eq_refl eq_refl eq_refl eq_refl).
Defined.

(** The note [u1] created, as the store holds it. *)
Definition sample_note : Note := new_note "0" "# Hi" "<p># Hi</p>" "u1" 0.

Lemma one_note_lookup : NoteModel.abs one_note !! "0" = Some sample_note.
Proof. by vm_compute. Qed.

Lemma updateNote_found_witness :
  exists t, (updatedAt sample_note <= t)%Z /\
    (Mutation.updateNote sample_marked JNull update_args anonymous_ctx one_note).1
      = Ok (note_to_js (set_content "*new*" (Mutation.render sample_marked "*new*") t sample_note)) /\
    NoteModel.abs (Mutation.updateNote sample_marked JNull update_args anonymous_ctx one_note).2
      = <["0" := set_content "*new*" (Mutation.render sample_marked "*new*") t sample_note]>
          (NoteModel.abs one_note).
Proof.
  refine (Mutation.updateNote_found sample_marked JNull update_args anonymous_ctx JUndefined
            "0" "*new*" sample_note one_note _ _
            one_note_wf eq_refl eq_refl eq_refl one_note_lookup eq_refl).
Defined.

Lemma updateNote_not_found_witness :
  (Mutation.updateNote sample_marked JNull update_args anonymous_ctx MemStore.empty).1
    = Thrown (NotFound "0") /\
  NoteModel.abs (Mutation.updateNote sample_marked JNull update_args anonymous_ctx MemStore.empty).2
    = NoteModel.abs MemStore.empty.
Proof.
  refine (Mutation.updateNote_not_found sample_marked JNull update_args anonymous_ctx JUndefined
            "0" "*new*" MemStore.empty _ _
            MemStoreFacts.wf_empty eq_refl eq_refl eq_refl eq_refl eq_refl).
Defined.

Lemma deleteNote_deletes_witness :
  (Mutation.deleteNote JNull delete_args anonymous_ctx one_note).1
    = Ok (JBool (bool_decide (is_Some (NoteModel.abs one_note !! "0")))) /\
  NoteModel.abs (Mutation.deleteNote JNull delete_args anonymous_ctx one_note).2
    = delete "0" (NoteModel.abs one_note) /\
  NoteModel.abs (Mutation.deleteNote JNull delete_args anonymous_ctx one_note).2 !! "0" = None.
Proof.
  refine (Mutation.deleteNote_deletes JNull delete_args anonymous_ctx JUndefined
            "0" one_note _ _ one_note_wf eq_refl eq_refl eq_refl).
Defined.
