(* ===== verification/Gateway.v ===== *)
(** * Gateway: one mutation through context, dispatch and completion

    What the Apollo server of [src/api/index.js] does with a mutation
    field once the operation has passed validation: it builds the
    context from the request ([Context.context]), calls the resolver
    the resolver map has for the field ([Mutation.exports]) or, when it
    has none, the default resolver of graphql-js, and completes the
    result against the type the schema ([Schema.typeDefs]) declares for
    the field: a thrown exception or a null result becomes a null field
    when the type is nullable and fails the whole operation when it is
    not.  The execution engine itself is a library; this file follows
    its documented behaviour.  The completion of an object along its
    selection set is in [Execute]. *)

From stdpp Require Import pretty.
From S2P Require Import Prelude JsValue Schema Store Context Resolvers.

(** The outcome of one field of the response: a value, a value with the
    errors of the fields below it that became null, null with the
    errors that made it so, or an error that the field's type cannot
    absorb and that fails the operation. *)
Inductive field_outcome : Type :=
| FieldValue (v : jsval)
| FieldPartial (v : jsval) (errors : list js_error)
| FieldNull (errors : list js_error)
| FieldPropagate (e : js_error).

(** The first binding of a key in an association list. *)
Fixpoint assoc {A : Type} (k : string) (l : list (string * A)) : option A :=
  match l with
  | [] => None
  | (k', a) :: l' => if decide (k' = k) then Some a else assoc k l'
  end.

(** Serialization of a non-null value at a named type: the built-in
    scalars accept the values of their JavaScript type ([Int] within 32
    bits, [Boolean] also a number, [ID] also an integer); a custom
    scalar and an object type accept any value. *)
Definition serialize (n : string) (v : jsval) : js jsval :=
  if decide (n = "Boolean") then
    match v with
    | JBool b => Ok (JBool b)
    | JNum z => Ok (JBool (negb (Z.eqb z 0)))
    | _ => Thrown (TypeError "Boolean cannot represent a non boolean value")
    end
  else if decide (n = "String") then
    match v with
    | JStr s => Ok (JStr s)
    | JBool b => Ok (JStr (if b then "true" else "false"))
    | _ => Thrown (TypeError "String cannot represent value")
    end
  else if decide (n = "ID") then
    match v with
    | JStr s => Ok (JStr s)
    | JNum z => Ok (JStr (pretty z))
    | _ => Thrown (TypeError "ID cannot represent value")
    end
  else if decide (n = "Int") then
    match v with
    | JNum z =>
        if decide (- 2 ^ 31 <= z < 2 ^ 31)%Z then Ok (JNum z)
        else Thrown (TypeError "Int cannot represent non 32-bit signed integer value")
    | _ => Thrown (TypeError "Int cannot represent non-integer value")
    end
  else Ok v.

(** Completion of a resolver's result at the type of its field.  *)
Definition complete_field (t : gql_type) (r : js jsval) : field_outcome :=
  let fail e := if is_non_null t then FieldPropagate e else FieldNull [e] in
  match r with
  | Thrown e => fail e
  | Ok v =>
      if is_nullish v then
        if is_non_null t then FieldPropagate (Error "Cannot return null for non-nullable field")
        else FieldNull []
      else
        match t with
        | ListType _ | NonNullType (ListType _) =>
            match v with
            | JArr _ => FieldValue v
            | _ => fail (Error "Expected Iterable")
            end
        | _ =>
            match serialize (named_type t) v with
            | Ok w => FieldValue w
            | Thrown e => fail e
            end
        end
  end.

Section gateway.

Context (marked : MarkedOptions -> string -> string).
Context (models : jsval).
Context {St : Type} `{!NoteModel.Ops St}.

(** The default resolver of graphql-js: the property of the parent
    named like the field, [undefined] when the parent is no object. *)
Definition default_resolver (field : string) : resolver St := fun parent args ctx =>
  match parent with
  | JObj o => eret (default JUndefined (o !! field))
  | _ => eret JUndefined
  end.

(** The resolver of a mutation field: the one [Mutation.js] exports
    under that name, the default resolver otherwise. *)
Definition resolver_for (field : string) : resolver St :=
  match assoc field (Mutation.exports marked) with
  | Some f => f
  | None => default_resolver field
  end.

(** What executing a mutation field yields. *)
Inductive execution : Type :=
| UnknownField
| ContextFailed (e : js_error)
| Executed (o : field_outcome).

(** One mutation field of a validated operation, for the request whose
    session is [session]: the root value is [undefined]. *)
Definition execute_mutation (session : jsval) (field : string) (args : jsval)
    : St -> execution * St :=
  fun s =>
    match lookup_field typeDefs "Mutation" field with
    | None => (UnknownField, s)
    | Some fd =>
        match context models (request_with_session session) with
        | Thrown e => (ContextFailed e, s)
        | Ok ctx =>
            let '(r, s') := resolver_for field JUndefined args ctx s in
            (Executed (complete_field (fd_type fd) r), s')
        end
    end.

End gateway.

(** ** Completion *)

Lemma complete_field_thrown_non_null (t : gql_type) (e : js_error) :
  complete_field (NonNullType t) (Thrown e) = FieldPropagate e.
Proof. reflexivity. Qed.

Lemma complete_field_thrown_nullable (t : gql_type) (e : js_error) :
  is_non_null t = false -> complete_field t (Thrown e) = FieldNull [e].
Proof. unfold complete_field. by intros ->. Qed.

Lemma complete_field_null_nullable (t : gql_type) (v : jsval) :
  is_non_null t = false -> is_nullish v = true -> complete_field t (Ok v) = FieldNull [].
Proof. unfold complete_field. by intros -> ->. Qed.

(** A note's object completes at the types [Note] and [Note!]. *)
Lemma complete_field_note (n : Note) :
  complete_field (NamedType "Note") (Ok (note_to_js n)) = FieldValue (note_to_js n) /\
  complete_field (NonNullType (NamedType "Note")) (Ok (note_to_js n)) = FieldValue (note_to_js n).
Proof. done. Qed.

Lemma complete_field_boolean (b : bool) :
  complete_field (NonNullType (NamedType "Boolean")) (Ok (JBool b)) = FieldValue (JBool b).
Proof. reflexivity. Qed.

(** A non-null field never completes to a null field. *)
Lemma complete_field_non_null (t : gql_type) (r : js jsval) (errors : list js_error) :
  complete_field (NonNullType t) r ≠ FieldNull errors.
Proof.
  unfold complete_field. simpl. destruct r as [v|e]; [|done].
  destruct (is_nullish v); [done|].
  destruct t; repeat case_match; done.
Qed.

(** ** Dispatch *)

Section dispatch.
Context (marked : MarkedOptions -> string -> string).
Context (models : jsval).
Context {St : Type} `{!NoteModel.Ops St}.
Implicit Types (o : gmap string jsval) (args : jsval) (s : St).

Local Abbreviation resolver_for := (resolver_for marked).
Local Abbreviation execute_mutation := (execute_mutation marked models).

Lemma assoc_Some {A : Type} (k : string) (l : list (string * A)) (a : A) :
  assoc k l = Some a -> (k, a) ∈ l.
Proof.
  induction l as [|[k' a'] l IH]; simpl; [done|].
  case_decide; intros; simplify_eq; set_solver.
Qed.

Lemma assoc_None {A : Type} (k : string) (l : list (string * A)) :
  assoc k l = None <-> k ∉ l.*1.
Proof.
  induction l as [|[k' a'] l IH]; simpl; [set_solver|].
  case_decide; [set_solver|]. rewrite IH. set_solver.
Qed.

Lemma resolver_for_newNote : resolver_for "newNote" = Mutation.newNote marked.
Proof. reflexivity. Qed.

Lemma resolver_for_updateNote : resolver_for "updateNote" = Mutation.updateNote marked.
Proof. reflexivity. Qed.

Lemma resolver_for_deleteNote : resolver_for "deleteNote" = Mutation.deleteNote.
Proof. reflexivity. Qed.

(** A field is resolved by an exported resolver or by the default one. *)
Lemma resolver_for_cases (field : string) :
  (field, resolver_for field) ∈ Mutation.exports marked \/
  (field ∉ Mutation.exported_names marked /\ resolver_for field = default_resolver field).
Proof.
  unfold Gateway.resolver_for.
  destruct (assoc field (Mutation.exports marked)) as [f|] eqn:Hf.
  - left. by apply assoc_Some.
  - right. split; [|done]. by apply assoc_None.
Qed.

(** The default resolver does not touch the store, and at the root
    value [undefined] it yields [undefined]. *)
Lemma default_resolver_root (field : string) args (ctx : jsval) s :
  default_resolver field JUndefined args ctx s = (Ok JUndefined, s).
Proof. reflexivity. Qed.

(** The context the gateway builds for a session object. *)
Definition context_of o : jsval :=
  js_object [("models", models); ("user", js_or (session_user (JObj o)) (JStr ""))].

Lemma get_prop_context_of_db o : get_prop (context_of o) "db" = Ok JUndefined.
Proof. by apply get_prop_js_object_pair_other. Qed.

Lemma get_prop_context_of_user o :
  get_prop (context_of o) "user" = Ok (js_or (session_user (JObj o)) (JStr "")).
Proof. by apply get_prop_js_object_pair_2. Qed.

(** With a session object and a declared field, execution is the
    resolver's run at the built context, completed at the field's type. *)
Lemma execute_mutation_session o (field : string) (fd : FieldDefinition) args s :
  lookup_field typeDefs "Mutation" field = Some fd ->
  execute_mutation (JObj o) field args s =
    let '(r, s') := resolver_for field JUndefined args (context_of o) s in
    (Executed (complete_field (fd_type fd) r), s').
Proof. unfold Gateway.execute_mutation. intros ->. by rewrite context_session_obj. Qed.

(** Read backwards: what a finished execution says of the resolver. *)
Lemma execute_mutation_inv o (field : string) (fd : FieldDefinition) args s (r : execution) s' :
  lookup_field typeDefs "Mutation" field = Some fd ->
  execute_mutation (JObj o) field args s = (r, s') ->
  exists r0, resolver_for field JUndefined args (context_of o) s = (r0, s') /\
    r = Executed (complete_field (fd_type fd) r0).
Proof.
  intros Hfd. rewrite (execute_mutation_session o field fd args s Hfd).
  destruct (resolver_for _ _ _ _ s) as [r0 s0]. intros [= <- <-]. eauto.
Qed.

(** The user of the built context is falsy when the session's is. *)
Lemma context_of_anonymous o :
  truthy (session_user (JObj o)) = false ->
  truthy (js_or (session_user (JObj o)) (JStr "")) = false.
Proof. intros Hanon. by rewrite truthy_js_or, Hanon. Qed.

(** [newNote] for a session without a user: the guard returns [null]. *)
Lemma execute_newNote_anonymous o args s :
  truthy (session_user (JObj o)) = false ->
  resolver_for "newNote" JUndefined args (context_of o) s = (Ok JNull, s).
Proof.
  intros Hanon. rewrite resolver_for_newNote.
  rewrite (Mutation.newNote_guard marked JUndefined args _ JUndefined _ s
             (get_prop_context_of_db o) (get_prop_context_of_user o)).
  by rewrite context_of_anonymous.
Qed.

(** Without a session object on the request, no mutation runs: building
    the context fails. *)
Lemma execute_mutation_no_session (field : string) (fd : FieldDefinition) args s :
  lookup_field typeDefs "Mutation" field = Some fd ->
  exists msg, execute_mutation JUndefined field args s = (ContextFailed (TypeError msg), s).
Proof. unfold Gateway.execute_mutation. intros ->. eexists. reflexivity. Qed.

End dispatch.

(** ** Mutations end to end *)

Section mutations.
Context (marked : MarkedOptions -> string -> string).
Context (models : jsval).
Context {St : Type} `{!NoteModel.Ops St} `{!NoteModel.Laws St}.
Implicit Types (o : gmap string jsval) (args : jsval) (s : St) (i c : string).

Local Abbreviation execute_mutation := (execute_mutation marked models).
Local Abbreviation render := (Mutation.render marked).

(** [newNote] in an anonymous session (the session's [user] is absent
    or falsy): the response carries [null] for the field and no error,
    and the store is untouched. *)
Theorem anonymous_newNote_refused o args s :
  truthy (session_user (JObj o)) = false ->
  execute_mutation (JObj o) "newNote" args s = (Executed (FieldNull []), s).
Proof.
  intros Hanon. rewrite (execute_mutation_session marked models o "newNote" _ args s eq_refl).
  by rewrite execute_newNote_anonymous.
Qed.

(** C21: The schema declares the mutation [toggleReaction], for which
    [Mutation.js] exports no resolver: in every session and for every
    argument the field is [null], without an error, and the store is
    untouched. *)
Theorem toggleReaction_unresolved o args s :
  execute_mutation (JObj o) "toggleReaction" args s = (Executed (FieldNull []), s).
Proof. by rewrite (execute_mutation_session marked models o "toggleReaction" _ args s eq_refl). Qed.

(** C22: The resolvers read [db] from a context that has [models] and
    [user]: the handle they pass to the note model is [undefined]. *)
Theorem deleteNote_db_undefined o args (id : jsval) s :
  get_prop args "id" = Ok id ->
  execute_mutation (JObj o) "deleteNote" args s =
    let '(r, s') := NoteModel.deleteNote id JUndefined s in
    (Executed (complete_field (NonNullType (NamedType "Boolean")) r), s').
Proof.
  intros Hid. rewrite (execute_mutation_session marked models o "deleteNote" _ args s eq_refl).
  rewrite resolver_for_deleteNote.
  by rewrite (Mutation.deleteNote_calls_model JUndefined args _ JUndefined id s
                (get_prop_context_of_db models o) Hid).
Qed.

(** The runs of the three mutations: the resolver's transition of the
    specification, and the completion of its result; [newNote] for the
    session of a user, [updateNote] and [deleteNote] for any session. *)
Lemma newNote_resolver_step o args (uid : jsval) c s r0 s' :
  NoteModel.inv s ->
  truthy (session_user (JObj o)) = true -> get_prop (session_user (JObj o)) "id" = Ok uid ->
  get_prop args "content" = Ok (JStr c) ->
  resolver_for marked "newNote" JUndefined args (context_of models o) s = (r0, s') ->
  NoteSpec.step (NoteModel.abs s) (NoteSpec.Insert args (JStr (render c)) uid) r0 (NoteModel.abs s').
Proof.
  intros Hinv Ht Hid Hc Hrun. rewrite resolver_for_newNote in Hrun.
  eapply Mutation.newNote_step, Hrun; [done| |done..].
  rewrite get_prop_context_of_user. by rewrite js_or_truthy_l.
Qed.

Lemma newNote_run o args (uid : jsval) c s r s' :
  NoteModel.inv s ->
  truthy (session_user (JObj o)) = true -> get_prop (session_user (JObj o)) "id" = Ok uid ->
  get_prop args "content" = Ok (JStr c) ->
  execute_mutation (JObj o) "newNote" args s = (r, s') ->
  exists r0, r = Executed (complete_field (NamedType "Note") r0) /\
    NoteSpec.step (NoteModel.abs s) (NoteSpec.Insert args (JStr (render c)) uid) r0
      (NoteModel.abs s').
Proof.
  intros Hinv Ht Hid Hc Hrun.
  apply (execute_mutation_inv marked models o "newNote" _ args s r s' eq_refl) in Hrun
    as (r0 & Hrun & ->).
  exists r0. split; [done|]. by eapply newNote_resolver_step.
Qed.

Lemma updateNote_run o args i c s r s' :
  NoteModel.inv s ->
  get_prop args "id" = Ok (JStr i) -> get_prop args "content" = Ok (JStr c) ->
  execute_mutation (JObj o) "updateNote" args s = (r, s') ->
  exists r0, r = Executed (complete_field (NonNullType (NamedType "Note")) r0) /\
    NoteSpec.step (NoteModel.abs s) (NoteSpec.Update (JStr i) (JStr c) (JStr (render c))) r0
      (NoteModel.abs s').
Proof.
  intros Hinv Hid Hc Hrun.
  apply (execute_mutation_inv marked models o "updateNote" _ args s r s' eq_refl) in Hrun
    as (r0 & Hrun & ->).
  rewrite resolver_for_updateNote in Hrun. exists r0. split; [done|].
  by eapply Mutation.updateNote_step, Hrun; [|apply get_prop_context_of_db|..].
Qed.

Lemma deleteNote_run o args i s r s' :
  NoteModel.inv s -> get_prop args "id" = Ok (JStr i) ->
  execute_mutation (JObj o) "deleteNote" args s = (r, s') ->
  r = Executed (FieldValue (JBool (bool_decide (is_Some (NoteModel.abs s !! i))))) /\
  NoteModel.abs s' = delete i (NoteModel.abs s).
Proof.
  intros Hinv Hid Hrun.
  apply (execute_mutation_inv marked models o "deleteNote" _ args s r s' eq_refl) in Hrun
    as (r0 & Hrun & ->).
  rewrite resolver_for_deleteNote in Hrun.
  destruct (Mutation.deleteNote_step JUndefined args _ JUndefined (JStr i) s r0 s'
              Hinv (get_prop_context_of_db models o) Hid Hrun) as [_ Hstep].
  by apply NoteSpecFacts.step_delete_inv in Hstep as [-> ->].
Qed.

(** C19: [deleteNote] in any session, anonymous or not: the field is the
    boolean that says whether the id existed, and the note is gone.  No
    ownership is checked. *)
Theorem deleteNote_by_anyone o args i s r s' :
  NoteModel.inv s -> get_prop args "id" = Ok (JStr i) ->
  execute_mutation (JObj o) "deleteNote" args s = (r, s') ->
  r = Executed (FieldValue (JBool (bool_decide (is_Some (NoteModel.abs s !! i))))) /\
  NoteModel.abs s' = delete i (NoteModel.abs s).
Proof.
  intros Hinv Hid Hrun. by destruct (deleteNote_run o args i s r s' Hinv Hid Hrun) as (-> & ->).
Qed.

(** [updateNote] of a known id in any session, anonymous or not: the
    note's text is replaced and the field is the updated note.  No
    ownership is checked. *)
Theorem updateNote_by_anyone o args i c n s r s' :
  NoteModel.inv s ->
  get_prop args "id" = Ok (JStr i) -> get_prop args "content" = Ok (JStr c) ->
  NoteModel.abs s !! i = Some n ->
  execute_mutation (JObj o) "updateNote" args s = (r, s') ->
  exists t, (updatedAt n <= t)%Z /\
    r = Executed (FieldValue (note_to_js (set_content c (render c) t n))) /\
    NoteModel.abs s' = <[i := set_content c (render c) t n]> (NoteModel.abs s).
Proof.
  intros Hinv Hid Hc Hn Hrun.
  destruct (updateNote_run o args i c s r s' Hinv Hid Hc Hrun) as (r0 & -> & Hstep).
  apply (NoteSpecFacts.step_update_found_inv _ _ _ _ n) in Hstep as (t & Ht & -> & ->); [|done].
  exists t. by destruct (complete_field_note (set_content c (render c) t n)) as [_ ->].
Qed.

(** C20: [updateNote] of an unknown id: the field is declared [Note!], so
    the [NotFound] error fails the operation; no note changes. *)
Theorem updateNote_unknown_id o args i c s r s' :
  NoteModel.inv s ->
  get_prop args "id" = Ok (JStr i) -> get_prop args "content" = Ok (JStr c) ->
  NoteModel.abs s !! i = None ->
  execute_mutation (JObj o) "updateNote" args s = (r, s') ->
  r = Executed (FieldPropagate (NotFound i)) /\ NoteModel.abs s' = NoteModel.abs s.
Proof.
  intros Hinv Hid Hc Hn Hrun.
  destruct (updateNote_run o args i c s r s' Hinv Hid Hc Hrun) as (r0 & -> & Hstep).
  by apply NoteSpecFacts.step_update_missing_inv in Hstep as [-> ->].
Qed.

(** [newNote] in the session of a user with a string id: a new note
    with that author is stored and is the field's value. *)
Theorem newNote_by_user o args (user : jsval) u c s r s' :
  NoteModel.inv s ->
  o !! "user" = Some user -> truthy user = true -> get_prop user "id" = Ok (JStr u) ->
  get_prop args "content" = Ok (JStr c) ->
  execute_mutation (JObj o) "newNote" args s = (r, s') ->
  exists i t, NoteModel.abs s !! i = None /\
    r = Executed (FieldValue (note_to_js (new_note i c (render c) u t))) /\
    NoteModel.abs s' = <[i := new_note i c (render c) u t]> (NoteModel.abs s).
Proof.
  intros Hinv Hu Ht Hid Hc Hrun.
  assert (session_user (JObj o) = user) as Hsu by (simpl; by rewrite Hu).
  destruct (newNote_run o args (JStr u) c s r s' Hinv) as (r0 & -> & Hstep);
    rewrite ?Hsu; try done.
  apply (NoteSpecFacts.step_insert_inv _ _ _ _ c (render c) u) in Hstep
    as (i & t & Hi & -> & ->); [|unfold NoteSpec.insert_input; by rewrite Hc].
  exists i, t. by destruct (complete_field_note (new_note i c (render c) u t)) as [-> _].
Qed.

(** Every mutation field, in every session and with any arguments,
    keeps the system invariant: the gateway offers no way to store a
    note whose [htmlContent] is not the rendering of its [content]. *)
Theorem execute_mutation_system_inv (session : jsval) (field : string) args s r s' :
  Mutation.system_inv marked s ->
  execute_mutation session field args s = (r, s') ->
  Mutation.system_inv marked s'.
Proof.
  intros Hinv. unfold Gateway.execute_mutation.
  destruct (lookup_field typeDefs "Mutation" field); [|by intros [= <- <-]].
  destruct (context models _) as [ctx|e]; [|by intros [= <- <-]].
  destruct (resolver_for marked field JUndefined args ctx s) as [r0 s0] eqn:Hrun.
  intros [= <- <-].
  destruct (resolver_for_cases marked field) as [Hf|[_ Hdef]].
  - by eapply Mutation.system_inv_run.
  - rewrite Hdef in Hrun. rewrite default_resolver_root in Hrun. by simplify_eq.
Qed.





End mutations.

(** ** The theorems at concrete inputs *)

Import Samples MemStore MemStoreFacts.

(** The session of a visitor who has not logged in, and the session of
    the user [u1]. *)
Definition anonymous_session : gmap string jsval := ∅.

Definition user_session : gmap string jsval :=
  {[ "user" := js_object [("id", JStr "u1")] ]}.

Lemma anonymous_newNote_refused_witness :
  execute_mutation sample_marked JNull (JObj anonymous_session) "newNote" sample_args MemStore.empty
  = (Executed (FieldNull []), MemStore.empty).
Proof.
  exact (anonymous_newNote_refused sample_marked JNull anonymous_session sample_args
           MemStore.empty eq_refl).
Defined.

Lemma deleteNote_db_undefined_witness :
  execute_mutation sample_marked JNull (JObj anonymous_session) "deleteNote" delete_args one_note
  = let '(r, s') := NoteModel.deleteNote (JStr "0") JUndefined one_note in
    (Executed (complete_field (NonNullType (NamedType "Boolean")) r), s').
Proof.
  exact (deleteNote_db_undefined sample_marked JNull anonymous_session delete_args (JStr "0")
           one_note eq_refl).
Defined.

Lemma deleteNote_by_anyone_witness :
  (execute_mutation sample_marked JNull (JObj anonymous_session) "deleteNote" delete_args one_note).1
    = Executed (FieldValue (JBool (bool_decide (is_Some (NoteModel.abs one_note !! "0"))))) /\
  NoteModel.abs
    (execute_mutation sample_marked JNull (JObj anonymous_session) "deleteNote" delete_args one_note).2
    = delete "0" (NoteModel.abs one_note).
Proof.
  refine (deleteNote_by_anyone sample_marked JNull anonymous_session delete_args "0" one_note
            _ _ one_note_wf eq_refl eq_refl).
Defined.

Lemma updateNote_by_anyone_witness :
  exists t, (updatedAt sample_note <= t)%Z /\
    (execute_mutation sample_marked JNull (JObj anonymous_session) "updateNote" update_args one_note).1
      = Executed (FieldValue (note_to_js
          (set_content "*new*" (Mutation.render sample_marked "*new*") t sample_note))) /\
    NoteModel.abs
      (execute_mutation sample_marked JNull (JObj anonymous_session) "updateNote" update_args one_note).2
      = <["0" := set_content "*new*" (Mutation.render sample_marked "*new*") t sample_note]>
          (NoteModel.abs one_note).
Proof.
  refine (updateNote_by_anyone sample_marked JNull anonymous_session update_args "0" "*new*"
            sample_note one_note _ _ one_note_wf eq_refl eq_refl one_note_lookup eq_refl).
Defined.

Lemma updateNote_unknown_id_witness :
  (execute_mutation sample_marked JNull (JObj user_session) "updateNote" update_args MemStore.empty).1
    = Executed (FieldPropagate (NotFound "0")) /\
  NoteModel.abs
    (execute_mutation sample_marked JNull (JObj user_session) "updateNote" update_args MemStore.empty).2
    = NoteModel.abs MemStore.empty.
Proof.
  refine (updateNote_unknown_id sample_marked JNull user_session update_args "0" "*new*"
            MemStore.empty _ _ wf_empty eq_refl eq_refl eq_refl eq_refl).
Defined.

Lemma newNote_by_user_witness :
  exists i t, NoteModel.abs MemStore.empty !! i = None /\
    (execute_mutation sample_marked JNull (JObj user_session) "newNote" sample_args MemStore.empty).1
      = Executed (FieldValue (note_to_js
          (new_note i "# Hi" (Mutation.render sample_marked "# Hi") "u1" t))) /\
    NoteModel.abs
      (execute_mutation sample_marked JNull (JObj user_session) "newNote" sample_args MemStore.empty).2
      = <[i := new_note i "# Hi" (Mutation.render sample_marked "# Hi") "u1" t]>
          (NoteModel.abs MemStore.empty).
Proof.
  refine (newNote_by_user sample_marked JNull user_session sample_args
            (js_object [("id", JStr "u1")]) "u1" "# Hi" MemStore.empty _ _
            wf_empty eq_refl eq_refl eq_refl eq_refl eq_refl).
Defined.

Lemma execute_mutation_system_inv_witness :
  Mutation.system_inv sample_marked
    (execute_mutation sample_marked JNull (JObj user_session) "updateNote" update_args one_note).2.
Proof.
  refine (execute_mutation_system_inv sample_marked JNull (JObj user_session) "updateNote"
            update_args one_note _ _ one_note_system_inv eq_refl).
Defined.

