(* ===== verification/QueryGuard.v ===== *)
(** * QueryGuard: the validation rules of [src/api/index.js], line 54

    [validationRules: [depthLimit(5), createComplexityLimitRule(1000)]]
    hands two rules to the server, which runs them on every operation
    before it executes anything.  This file has the operations the rules
    inspect ([selection], [executable]), the inlining of fragments
    ([inline], with fuel for fragment spreads, the only recursion that
    is not structural), the two measures ([depth] as graphql-depth-limit
    counts it, the root fields at depth 0; [cost] as
    graphql-validation-complexity estimates it from the types of
    [Schema.typeDefs]), the two rules and their composition [validate].
    The rules themselves are libraries: their definitions follow their
    documented behaviour; the bounds 5 and 1000 and the list of rules
    are those of [index.js]. *)

From S2P Require Import Prelude JsValue Schema.

(** ** Operations *)

(** A selection: a field with its arguments and selection set, the
    spread of a named fragment, or an inline fragment. *)
Inductive selection : Type :=
| Field (name : string) (args : list (string * jsval)) (sels : list selection)
| FragmentSpread (name : string)
| InlineFragment (on : option string) (sels : list selection).

Inductive operation_type : Type := OpQuery | OpMutation.

#[export] Instance operation_type_eq_dec : EqDecision operation_type.
Proof. solve_decision. Defined.

(** The document of a request: one operation and the fragments it may
    spread. *)
Record executable : Type := mkExecutable {
  op_type : operation_type;
  op_name : string;
  op_selections : list selection;
  fragments : gmap string (list selection);
}.

(** A field with the fragments of its selection set inlined. *)
Inductive ftree : Type :=
| FNode (name : string) (args : list (string * jsval)) (kids : list ftree).

(** Induction on selections and on fields, with the hypothesis for
    every element of a selection set. *)
Section induction.
Context (P : selection -> Prop).
Context (Hfield : forall f a sels, Forall P sels -> P (Field f a sels)).
Context (Hspread : forall x, P (FragmentSpread x)).
Context (Hinline : forall c sels, Forall P sels -> P (InlineFragment c sels)).

Fixpoint selection_ind' (s : selection) : P s :=
  let all := fix all (l : list selection) : Forall P l :=
    match l with
    | [] => @List.Forall_nil _ P
    | x :: l' => @List.Forall_cons _ P x l' (selection_ind' x) (all l')
    end in
  match s with
  | Field f a sels => Hfield f a sels (all sels)
  | FragmentSpread x => Hspread x
  | InlineFragment c sels => Hinline c sels (all sels)
  end.

Context (Q : ftree -> Prop).
Context (Hnode : forall f a kids, Forall Q kids -> Q (FNode f a kids)).

Fixpoint ftree_ind' (t : ftree) : Q t :=
  match t with
  | FNode f a kids =>
      Hnode f a kids
        ((fix all (l : list ftree) : Forall Q l :=
            match l with
            | [] => @List.Forall_nil _ Q
            | x :: l' => @List.Forall_cons _ Q x l' (ftree_ind' x) (all l')
            end) kids)
  end.

End induction.

(** The root type of an operation. *)
Definition root_type (t : operation_type) : string :=
  match t with OpQuery => "Query" | OpMutation => "Mutation" end.

(** ** Inlining of fragments *)

Section inline.
Context (frags : gmap string (list selection)).

(** [f] on every element, the results concatenated; [None] as soon as
    one element fails. *)
Definition flat_mapM {A B : Type} (f : A -> option (list B)) (l : list A) : option (list B) :=
  mjoin <$> mapM f l.

(** The fields a selection stands for.  A spread is replaced by the
    selections of its fragment; [seen] holds the fragments being
    expanded, and a spread of one of them (a cycle), like a spread of an
    undefined fragment, gives [None].  The recursion is structural but
    for the spreads, which use up [fuel]. *)
Fixpoint inline (fuel : nat) (seen : gset string) (s : selection) {struct fuel}
    : option (list ftree) :=
  match fuel with
  | 0 => None
  | S fuel' =>
      (fix go (s : selection) {struct s} : option (list ftree) :=
         match s with
         | Field f a sels => kids ← flat_mapM go sels; Some [FNode f a kids]
         | InlineFragment _ sels => flat_mapM go sels
         | FragmentSpread x =>
             if decide (x ∈ seen) then None
             else body ← frags !! x; flat_mapM (inline fuel' ({[x]} ∪ seen)) body
         end) s
  end.

Definition inline_all (fuel : nat) (seen : gset string) (sels : list selection)
    : option (list ftree) :=
  flat_mapM (inline fuel seen) sels.

(** What [inline] computes, without fuel: the reference definition. *)
Inductive inlines : gset string -> selection -> list ftree -> Prop :=
| inlines_field seen f a sels kids :
    inlines_all seen sels kids -> inlines seen (Field f a sels) [FNode f a kids]
| inlines_inline seen c sels ts :
    inlines_all seen sels ts -> inlines seen (InlineFragment c sels) ts
| inlines_spread seen x body ts :
    x ∉ seen -> frags !! x = Some body -> inlines_all ({[x]} ∪ seen) body ts ->
    inlines seen (FragmentSpread x) ts
with inlines_all : gset string -> list selection -> list ftree -> Prop :=
| inlines_nil seen : inlines_all seen [] []
| inlines_cons seen s sels ts ts' :
    inlines seen s ts -> inlines_all seen sels ts' -> inlines_all seen (s :: sels) (ts ++ ts').

End inline.

Scheme inlines_mut := Minimality for inlines Sort Prop
  with inlines_all_mut := Minimality for inlines_all Sort Prop.

Combined Scheme inlines_mutind from inlines_mut, inlines_all_mut.

(** Enough fuel for a document: one more than the number of its
    fragments, since a chain of spreads without a cycle is no longer
    than that number. *)
Definition fuel_for (doc : executable) : nat := S (size (fragments doc)).

(** The root fields of the operation, fragments inlined. *)
Definition root_fields (doc : executable) : option (list ftree) :=
  inline_all (fragments doc) (fuel_for doc) ∅ (op_selections doc).

(** ** Depth *)

(** The depth of a field as graphql-depth-limit counts it: 0 for a field
    without a selection set, one more than its deepest selection
    otherwise. *)
Fixpoint depth (t : ftree) : nat :=
  match t with
  | FNode _ _ kids =>
      match kids with
      | [] => 0
      | _ => S (max_list (depth <$> kids))
      end
  end.

(** The depth of an operation: that of its deepest root field. *)
Definition depth_all (ts : list ftree) : nat := max_list (depth <$> ts).

(** The nesting of selection sets, the operation's own included. *)
Definition levels (ts : list ftree) : nat :=
  match ts with
  | [] => 0
  | _ => S (depth_all ts)
  end.

(** The number of fields. *)
Fixpoint fields (t : ftree) : nat :=
  match t with FNode _ _ kids => S (sum_list (fields <$> kids)) end.

(** The number of fields without a selection set. *)
Fixpoint leaves (t : ftree) : nat :=
  match t with
  | FNode _ _ kids =>
      match kids with
      | [] => 1
      | _ => sum_list (leaves <$> kids)
      end
  end.

(** ** Cost *)

(** The options of graphql-validation-complexity. *)
Record ComplexityOptions : Type := mkComplexityOptions {
  scalarCost : N;
  objectCost : N;
  listFactor : N;
}.

(** The options in force when, as in [index.js], none is given. *)
Definition default_options : ComplexityOptions :=
  {| scalarCost := 1; objectCost := 0; listFactor := 10 |}.

Section cost.
Context (schema : document) (opts : ComplexityOptions).

(** The factor of a type: [listFactor] for every list in it. *)
Fixpoint type_factor (t : gql_type) : N :=
  match t with
  | NamedType _ => 1
  | NonNullType t' => type_factor t'
  | ListType t' => listFactor opts * type_factor t'
  end.

Definition is_object_name (n : string) : bool :=
  match lookup_type schema n with
  | Some d => is_object_def d
  | None => false
  end.

(** The cost of one value of a type. *)
Definition type_cost (t : gql_type) : N :=
  if is_object_name (named_type t) then objectCost opts else scalarCost opts.

(** The cost of a field selected on the type [parent], [factor] being
    the product of the factors of the fields above it: its own factor
    enters the product, the cost of its type is counted that many
    times, and its selections are costed below it.  A field the schema
    does not declare has no type, factor 1 and the cost of a scalar. *)
Fixpoint cost (parent : option string) (factor : N) (t : ftree) : N :=
  match t with
  | FNode f _ kids =>
      let ty := parent ≫= fun p => fd_type <$> lookup_field schema p f in
      let factor' := (factor * from_option type_factor 1 ty)%N in
      (factor' * from_option type_cost (scalarCost opts) ty
       + sum_listN (cost (named_type <$> ty) factor' <$> kids))%N
  end.

Definition cost_all (parent : option string) (factor : N) (ts : list ftree) : N :=
  sum_listN (cost parent factor <$> ts).

(** The lists in a type, and the most lists a path through a field
    crosses: the exponent of the fan-out the cost estimates. *)
Fixpoint type_lists (t : gql_type) : nat :=
  match t with
  | NamedType _ => 0
  | NonNullType t' => type_lists t'
  | ListType t' => S (type_lists t')
  end.

Fixpoint list_nesting (parent : string) (t : ftree) : nat :=
  match t with
  | FNode f _ kids =>
      match lookup_field schema parent f with
      | Some fd =>
          type_lists (fd_type fd)
          + max_list (list_nesting (named_type (fd_type fd)) <$> kids)
      | None => 0
      end
  end.

(** ** The fields exist and the leaves are scalars *)

(** A field selected on the object type [parent] is declared by it; it
    has a selection set exactly when its type is an object type, and its
    selections are fields of that type. *)
Fixpoint well_typed (parent : string) (t : ftree) : bool :=
  match t with
  | FNode f _ kids =>
      match lookup_field schema parent f with
      | None => false
      | Some fd =>
          if is_object_name (named_type (fd_type fd)) then
            match kids with
            | [] => false
            | _ => forallb (well_typed (named_type (fd_type fd))) kids
            end
          else
            match kids with
            | [] => true
            | _ => false
            end
      end
  end.

End cost.

(** ** The rules *)

Inductive validation_error : Type :=
| InvalidFragment
| InvalidField
| DepthExceeded (operation : string) (maxDepth : nat)
| CostExceeded (cost maxCost : N).

#[export] Instance validation_error_eq_dec : EqDecision validation_error.
Proof. solve_decision. Defined.

(** A validation rule reports the errors it finds in a document. *)
Definition rule : Type := executable -> list validation_error.

(** graphql-depth-limit: an operation deeper than [maxDepth] is an
    error.  A document whose fragments do not resolve is left to the
    rules that report that. *)
Definition depthLimit (maxDepth : nat) : rule := fun doc =>
  match root_fields doc with
  | Some ts => if decide (maxDepth < depth_all ts) then [DepthExceeded (op_name doc) maxDepth] else []
  | None => []
  end.

(** graphql-validation-complexity: a document whose cost is above
    [maxCost] is an error. *)
Definition createComplexityLimitRule (maxCost : N) : rule := fun doc =>
  match root_fields doc with
  | Some ts =>
      let c := cost_all typeDefs default_options (Some (root_type (op_type doc))) 1 ts in
      if decide (maxCost < c)%N then [CostExceeded c maxCost] else []
  | None => []
  end.

(** Of the rules graphql-js always applies: fragments are defined and
    acyclic; fields exist on their parent type, fields of object type
    have a selection set and scalars have none. *)
Definition fragmentsResolve : rule := fun doc =>
  match root_fields doc with
  | Some _ => []
  | None => [InvalidFragment]
  end.

Definition fieldsWellTyped : rule := fun doc =>
  match root_fields doc with
  | Some ts =>
      if forallb (well_typed typeDefs (root_type (op_type doc))) ts then [] else [InvalidField]
  | None => []
  end.

Definition specifiedRules : list rule := [fragmentsResolve; fieldsWellTyped].

(** [validationRules: [depthLimit(5), createComplexityLimitRule(1000)]] *)
Definition validationRules : list rule := [depthLimit 5; createComplexityLimitRule 1000].

(** Validation of a document: the errors of the built-in rules and of
    the rules the server was configured with. *)
Definition validate (doc : executable) : list validation_error :=
  mjoin ((fun r : rule => r doc) <$> (specifiedRules ++ validationRules)).

(** The guard: the root fields of an accepted document. *)
Definition guard (doc : executable) : list validation_error + list ftree :=
  match validate doc, root_fields doc with
  | [], Some ts => inr ts
  | [], None => inl [InvalidFragment]
  | errs, _ => inl errs
  end.

(** What the guard promises of a document it accepts: its fragments
    resolve, its fields are declared with selection sets where the types
    ask for them, and both checks pass. *)
Definition accepted (doc : executable) (ts : list ftree) : Prop :=
  root_fields doc = Some ts /\
  forallb (well_typed typeDefs (root_type (op_type doc))) ts = true /\
  depth_all ts <= 5 /\
  (cost_all typeDefs default_options (Some (root_type (op_type doc))) 1 ts <= 1000)%N.

(** ** Inlining: the executable definition and the reference *)

Section inline_facts.
Context (frags : gmap string (list selection)).
Implicit Types (s : selection) (sels body : list selection) (ts : list ftree) (fuel : nat)
  (seen : gset string).

Local Abbreviation inline := (inline frags).
Local Abbreviation inline_all := (inline_all frags).
Local Abbreviation inlines := (inlines frags).
Local Abbreviation inlines_all := (inlines_all frags).

Lemma flat_mapM_cons {A B : Type} (f : A -> option (list B)) (x : A) (l : list A) :
  flat_mapM f (x :: l) = y ← f x; k ← flat_mapM f l; Some (y ++ k).
Proof.
  unfold flat_mapM. simpl. destruct (f x) as [y|]; simpl; [|done].
  by destruct (mapM f l).
Qed.

Lemma flat_mapM_cons_Some {A B : Type} (f : A -> option (list B)) (x : A) (l : list A) (r : list B) :
  flat_mapM f (x :: l) = Some r <->
  exists y k, f x = Some y /\ flat_mapM f l = Some k /\ r = y ++ k.
Proof.
  rewrite flat_mapM_cons. destruct (f x) as [y|]; simpl; [|naive_solver].
  destruct (flat_mapM f l) as [k|]; simpl; naive_solver.
Qed.

(** The equations of [inline]. *)
Lemma inline_Field fuel seen f a sels :
  inline (S fuel) seen (Field f a sels)
  = kids ← inline_all (S fuel) seen sels; Some [FNode f a kids].
Proof. reflexivity. Qed.

Lemma inline_InlineFragment fuel seen c sels :
  inline (S fuel) seen (InlineFragment c sels) = inline_all (S fuel) seen sels.
Proof. reflexivity. Qed.

Lemma inline_FragmentSpread fuel seen x :
  inline (S fuel) seen (FragmentSpread x)
  = if decide (x ∈ seen) then None
    else body ← frags !! x; inline_all fuel ({[x]} ∪ seen) body.
Proof. reflexivity. Qed.

(** [inline_all] from [inline], element by element. *)
Lemma inline_all_sound_aux fuel seen sels :
  Forall (fun s => forall ts, inline fuel seen s = Some ts -> inlines seen s ts) sels ->
  forall ts, inline_all fuel seen sels = Some ts -> inlines_all seen sels ts.
Proof.
  unfold QueryGuard.inline_all. induction 1 as [|s sels Hs _ IH]; intros ts.
  - intros [= <-]. constructor.
  - intros Hts. destruct (proj1 (flat_mapM_cons_Some _ _ _ _) Hts) as (y & k & Hy & Hk & ->).
    constructor; auto.
Qed.

(** What [inline] returns is what the reference definition gives. *)
Lemma inline_sound fuel seen s ts : inline fuel seen s = Some ts -> inlines seen s ts.
Proof.
  revert seen s ts. induction fuel as [|fuel IH]; intros seen s; [done|].
  induction s as [f a sels IHs|x|c sels IHs] using selection_ind'; intros ts.
  - rewrite inline_Field.
    destruct (QueryGuard.inline_all frags (S fuel) seen sels) as [kids|] eqn:Hkids; [|done].
    intros [= <-]. constructor. exact (inline_all_sound_aux (S fuel) seen sels IHs kids Hkids).
  - rewrite inline_FragmentSpread. case_decide; [done|].
    destruct (frags !! x) as [body|] eqn:Hx; [|done]. simpl. intros Hts.
    econstructor; [done..|]. refine (inline_all_sound_aux fuel _ body _ ts Hts).
    apply Forall_forall. intros s _ ts'. apply IH.
  - rewrite inline_InlineFragment. intros Hts. constructor.
    exact (inline_all_sound_aux (S fuel) seen sels IHs ts Hts).
Qed.

(** With fuel for every fragment that is not being expanded, [inline]
    returns what the reference definition gives. *)
Lemma inline_complete_both :
  (forall seen s ts, inlines seen s ts ->
     forall fuel, seen ⊆ dom frags -> size frags < fuel + size seen ->
       inline fuel seen s = Some ts) /\
  (forall seen sels ts, inlines_all seen sels ts ->
     forall fuel, seen ⊆ dom frags -> size frags < fuel + size seen ->
       inline_all fuel seen sels = Some ts).
Proof.
  apply inlines_mutind.
  1-3: intros seen; intros;
    (destruct fuel as [|fuel];
     [assert (size seen <= size frags) by (rewrite <- size_dom; by apply subseteq_size); lia|]).
  - rewrite inline_Field. by rewrite H0.
  - rewrite inline_InlineFragment. auto.
  - rewrite inline_FragmentSpread, decide_False by done.
    match goal with H : frags !! _ = Some _ |- _ => rewrite H end. simpl.
    match goal with H : forall fuel, _ |- _ => apply H end.
    + apply union_least; [|done]. apply singleton_subseteq_l, elem_of_dom. eauto.
    + rewrite size_union by set_solver. rewrite size_singleton. lia.
  - done.
  - intros seen s sels ts ts' _ IH1 _ IH2 fuel Hsub Hfuel.
    unfold QueryGuard.inline_all. apply flat_mapM_cons_Some.
    eexists _, _. split; [by apply IH1|]. split; [by apply IH2|done].
Qed.

Lemma inline_all_sound fuel seen sels ts :
  inline_all fuel seen sels = Some ts -> inlines_all seen sels ts.
Proof. apply inline_all_sound_aux, Forall_forall. intros s _ ts'. apply inline_sound. Qed.

End inline_facts.

(** C35: the fuel [root_fields] gives [inline] is enough: the root fields of a
    document are those the reference definition gives, and there are none
    exactly when a fragment is undefined or the fragments form a cycle. *)
Theorem root_fields_inlines doc ts :
  root_fields doc = Some ts <-> inlines_all (fragments doc) ∅ (op_selections doc) ts.
Proof.
  unfold root_fields. split; [apply inline_all_sound|].
  intros Hts. apply inline_complete_both; [done|set_solver|].
  unfold fuel_for. lia.
Qed.

(** ** Depth, fields and leaves *)

Section measures.
Implicit Types (t : ftree) (ts kids : list ftree).

Lemma depth_node f a kids : kids <> [] -> depth (FNode f a kids) = S (depth_all kids).
Proof. by destruct kids. Qed.

Lemma depth_all_cons t ts : depth_all (t :: ts) = depth t `max` depth_all ts.
Proof. reflexivity. Qed.

Lemma depth_all_elem_of t ts : t ∈ ts -> depth t <= depth_all ts.
Proof. intros Ht. by apply max_list_elem_of_le, list_elem_of_fmap_2. Qed.

Lemma depth_all_le n ts : depth_all ts <= n <-> Forall (fun t => depth t <= n) ts.
Proof. unfold depth_all. by rewrite <- max_list_le, Forall_fmap. Qed.

(** The selection sets of an operation nest one level deeper than its
    fields. *)
Lemma levels_depth ts : ts <> [] -> levels ts = S (depth_all ts).
Proof. by destruct ts. Qed.

Lemma leaves_pos t : 0 < leaves t.
Proof.
  induction t as [f a kids IH] using ftree_ind'. destruct IH as [|k kids Hk _]; simpl; lia.
Qed.

Lemma leaves_le_fields t : leaves t <= fields t.
Proof.
  induction t as [f a kids IH] using ftree_ind'.
  assert (sum_list (leaves <$> kids) <= sum_list (fields <$> kids)) by by apply sum_list_le.
  destruct kids; simpl in *; lia.
Qed.

(** A tree has at most as many fields as it has leaves times levels. *)
Lemma fields_le_leaves_depth t : fields t <= leaves t * S (depth t).
Proof.
  induction t as [f a kids IH] using ftree_ind'.
  destruct (decide (kids = [])) as [->|Hne]; [simpl; lia|].
  rewrite depth_node by done.
  assert (sum_list (fields <$> kids) <= sum_list (leaves <$> kids) * S (depth_all kids)) as Hsum.
  { clear Hne. induction IH as [|k kids Hk _ IHkids]; [simpl; lia|].
    rewrite !fmap_cons, depth_all_cons. simpl. nia. }
  assert (0 < sum_list (leaves <$> kids)).
  { destruct kids as [|k kids]; [done|]. pose proof (leaves_pos k). simpl. lia. }
  assert (leaves (FNode f a kids) = sum_list (leaves <$> kids)) as -> by by destruct kids.
  simpl. nia.
Qed.

End measures.

(** ** Cost *)

Section cost_facts.
Context (schema : document) (opts : ComplexityOptions).
Implicit Types (t : ftree) (ts kids : list ftree) (parent : option string) (factor k : N).

Local Abbreviation cost := (cost schema opts).
Local Abbreviation cost_all := (cost_all schema opts).
Local Abbreviation type_factor := (type_factor opts).
Local Abbreviation type_cost := (type_cost schema opts).

Lemma cost_all_cons parent factor t ts :
  cost_all parent factor (t :: ts) = (cost parent factor t + cost_all parent factor ts)%N.
Proof. reflexivity. Qed.

Lemma cost_node parent factor f a kids :
  cost parent factor (FNode f a kids) =
    let ty := parent ≫= fun p => fd_type <$> lookup_field schema p f in
    let factor' := (factor * from_option type_factor 1 ty)%N in
    (factor' * from_option type_cost (scalarCost opts) ty
     + cost_all (named_type <$> ty) factor' kids)%N.
Proof. reflexivity. Qed.

(** The cost of a declared field. *)
Lemma cost_declared p factor f a kids (fd : FieldDefinition) :
  lookup_field schema p f = Some fd ->
  cost (Some p) factor (FNode f a kids) =
    (factor * type_factor (fd_type fd) * type_cost (fd_type fd)
     + cost_all (Some (named_type (fd_type fd))) (factor * type_factor (fd_type fd)) kids)%N.
Proof. intros Hfd. rewrite cost_node. simpl. by rewrite Hfd. Qed.

(** The cost is linear in the factor. *)
Lemma cost_scale k parent factor t :
  cost parent (k * factor) t = (k * cost parent factor t)%N.
Proof.
  revert parent factor. induction t as [f a kids IH] using ftree_ind'. intros parent factor.
  rewrite !cost_node. cbv zeta.
  set (ty := parent ≫= _). set (tf := from_option type_factor 1%N ty).
  unfold QueryGuard.cost_all. replace (k * factor * tf)%N with (k * (factor * tf))%N by lia.
  rewrite (sum_listN_scale k _ (QueryGuard.cost schema opts (named_type <$> ty) (factor * tf)) kids);
    [lia|].
  eapply Forall_impl; [exact IH|]. intros t Ht. apply Ht.
Qed.

Lemma cost_all_scale k parent factor ts :
  cost_all parent (k * factor) ts = (k * cost_all parent factor ts)%N.
Proof.
  unfold QueryGuard.cost_all. apply sum_listN_scale, Forall_forall. intros t _. apply cost_scale.
Qed.

(** The cost of an operation is that of its fields. *)
Lemma cost_all_elem_of parent factor t ts :
  t ∈ ts -> (cost parent factor t <= cost_all parent factor ts)%N.
Proof. intros Ht. by apply sum_listN_elem_of_le, list_elem_of_fmap_2. Qed.

Context (Hscalar : (1 <= scalarCost opts)%N) (Hlist : (1 <= listFactor opts)%N).

Lemma type_factor_pos (ty : gql_type) : (1 <= type_factor ty)%N.
Proof. induction ty; simpl; nia. Qed.

(** With a scalar cost and a list factor of at least one, every leaf of
    a well-typed field costs at least the factor it is reached with. *)
Lemma cost_ge_leaves p factor t :
  well_typed schema p t = true ->
  (factor * N.of_nat (leaves t) <= cost (Some p) factor t)%N.
Proof.
  revert p factor. induction t as [f a kids IH] using ftree_ind'. intros p factor.
  simpl well_typed. destruct (lookup_field schema p f) as [fd|] eqn:Hfd; [|done].
  rewrite (cost_declared p factor f a kids fd Hfd).
  pose proof (type_factor_pos (fd_type fd)) as Hf.
  destruct (is_object_name schema (named_type (fd_type fd))) eqn:Hobj.
  - destruct kids as [|k kids]; [done|]. rewrite forallb_Forall. intros Hall.
    set (factor' := (factor * type_factor (fd_type fd))%N).
    assert (factor' * N.of_nat (sum_list (leaves <$> k :: kids))
            <= cost_all (Some (named_type (fd_type fd))) factor' (k :: kids))%N as Hsum.
    { generalize dependent (k :: kids). clear. intros l IH Hall.
      induction IH as [|t l Ht _ IHl]; [simpl; lia|].
      apply Forall_cons in Hall as [Ht' Hl]. rewrite fmap_cons, cost_all_cons. simpl sum_list.
      specialize (Ht _ factor' Ht'). specialize (IHl Hl). lia. }
    change (leaves (FNode f a (k :: kids))) with (sum_list (leaves <$> k :: kids)).
    assert (factor <= factor')%N by (unfold factor'; nia).
    etrans; [by apply N.mul_le_mono_r|]. lia.
  - destruct kids; [|done]. intros _. unfold QueryGuard.type_cost. rewrite Hobj.
    assert (1 <= type_factor (fd_type fd) * scalarCost opts)%N by nia.
    rewrite <- N.mul_assoc. change (leaves _) with 1. nia.
Qed.

Lemma cost_all_ge_leaves p factor ts :
  forallb (well_typed schema p) ts = true ->
  (factor * N.of_nat (sum_list (leaves <$> ts)) <= cost_all (Some p) factor ts)%N.
Proof.
  rewrite forallb_Forall. induction 1 as [|t ts Ht _ IH]; [simpl; lia|].
  rewrite fmap_cons, cost_all_cons. simpl sum_list.
  pose proof (cost_ge_leaves p factor t Ht). lia.
Qed.

End cost_facts.

Section nesting.
Context (schema : document) (opts : ComplexityOptions).
Context (Hscalar : (1 <= scalarCost opts)%N) (Hlist : (1 <= listFactor opts)%N).
Implicit Types (t : ftree) (ts kids : list ftree) (factor : N).

Local Abbreviation cost := (cost schema opts).
Local Abbreviation cost_all := (cost_all schema opts).
Local Abbreviation type_factor := (type_factor opts).

Lemma type_factor_pow (ty : gql_type) :
  type_factor ty = (listFactor opts ^ N.of_nat (type_lists ty))%N.
Proof.
  induction ty as [n|ty IH|ty IH]; simpl type_lists; simpl QueryGuard.type_factor; [done| |done].
  rewrite IH, Nat2N.inj_succ, N.pow_succ_r'. done.
Qed.

(** A field that crosses [n] lists on some path costs at least the
    [n]-th power of the list factor. *)
Lemma cost_ge_list_nesting p factor t :
  well_typed schema p t = true ->
  (factor * listFactor opts ^ N.of_nat (list_nesting schema p t) <= cost (Some p) factor t)%N.
Proof.
  revert p factor. induction t as [f a kids IH] using ftree_ind'. intros p factor.
  simpl well_typed. simpl list_nesting.
  destruct (lookup_field schema p f) as [fd|] eqn:Hfd; [|done].
  rewrite (cost_declared schema opts p factor f a kids fd Hfd).
  rewrite Nat2N.inj_add, N.pow_add_r, <- type_factor_pow.
  destruct (is_object_name schema (named_type (fd_type fd))) eqn:Hobj.
  - destruct (decide (kids = [])) as [->|Hne]; [done|].
    intros Hall. assert (forallb (well_typed schema (named_type (fd_type fd))) kids = true) as Hk
      by by destruct kids.
    rewrite forallb_Forall in Hk. clear Hall.
    assert (exists k, k ∈ kids /\
      max_list (list_nesting schema (named_type (fd_type fd)) <$> kids)
      = list_nesting schema (named_type (fd_type fd)) k) as (k & Hin & ->).
    { destruct (list_elem_of_fmap_1 (list_nesting schema (named_type (fd_type fd))) kids
                  (max_list (list_nesting schema (named_type (fd_type fd)) <$> kids)))
        as (k & ? & ?); [|by eauto].
      apply max_list_elem_of. by destruct kids. }
    rewrite Forall_forall in IH, Hk.
    pose proof (IH k Hin _ (factor * type_factor (fd_type fd))%N (Hk k Hin)).
    pose proof (cost_all_elem_of schema opts (Some (named_type (fd_type fd)))
                  (factor * type_factor (fd_type fd)) k kids Hin). lia.
  - destruct kids; [|done]. intros _. unfold type_cost. rewrite Hobj. simpl. nia.
Qed.

End nesting.

(** ** The rules *)

Section rules.
Implicit Types (doc : executable) (ts : list ftree) (errs : list validation_error).

Local Abbreviation cost_of doc ts :=
  (cost_all typeDefs default_options (Some (root_type (op_type doc))) 1 ts).

Lemma validate_rules doc :
  validate doc = fragmentsResolve doc ++ fieldsWellTyped doc
                 ++ depthLimit 5 doc ++ createComplexityLimitRule 1000 doc.
Proof. unfold validate. simpl. by rewrite app_nil_r. Qed.

(** The errors of a document whose fragments resolve. *)
Lemma validate_resolved doc ts :
  root_fields doc = Some ts ->
  validate doc =
    (if forallb (well_typed typeDefs (root_type (op_type doc))) ts then [] else [InvalidField])
    ++ (if decide (5 < depth_all ts) then [DepthExceeded (op_name doc) 5] else [])
    ++ (if decide (1000 < cost_of doc ts)%N then [CostExceeded (cost_of doc ts) 1000] else []).
Proof.
  intros Hts. rewrite validate_rules.
  unfold fragmentsResolve, fieldsWellTyped, depthLimit, createComplexityLimitRule.
  by rewrite Hts.
Qed.

Lemma validate_unresolved doc : root_fields doc = None -> validate doc = [InvalidFragment].
Proof.
  intros Hts. rewrite validate_rules.
  unfold fragmentsResolve, fieldsWellTyped, depthLimit, createComplexityLimitRule.
  by rewrite Hts.
Qed.

(** Validation reports nothing exactly when every check passes. *)
Lemma validate_nil doc : validate doc = [] <-> exists ts, accepted doc ts.
Proof.
  unfold accepted. split.
  - destruct (root_fields doc) as [ts|] eqn:Hts; [|by rewrite (validate_unresolved doc Hts)].
    rewrite (validate_resolved doc ts Hts).
    destruct (forallb _ ts) eqn:Hwt; [|done]. do 2 (case_decide; [done|]).
    intros _. exists ts. split_and!; [done|done|lia|lia].
  - intros (ts & Hts & Hwt & Hd & Hc). rewrite (validate_resolved doc ts Hts), Hwt.
    rewrite !decide_False by lia. done.
Qed.

(** What the guard lets through has passed every check. *)
Lemma guard_inr doc ts : guard doc = inr ts -> accepted doc ts.
Proof.
  unfold guard. intros Hg. destruct (validate doc) eqn:Hv; [|done].
  apply validate_nil in Hv as (ts' & Hacc). destruct Hacc as [Hts ?].
  rewrite Hts in Hg. by simplify_eq.
Qed.

(** A field that passes the check of its type is declared by it. *)
Lemma well_typed_declared (parent name : string) args kids :
  well_typed typeDefs parent (FNode name args kids) = true ->
  is_Some (lookup_field typeDefs parent name).
Proof. simpl. by destruct (lookup_field typeDefs parent name). Qed.

(** C7: the guard lets through exactly the documents that pass every
    check, with their root fields: the fragments resolve, the fields
    are declared with selection sets where the types ask for them, the
    depth is at most 5 and the estimated cost at most 1000. *)
Theorem guard_accepted doc ts : guard doc = inr ts <-> accepted doc ts.
Proof.
  unfold guard. split.
  - intros Hg. destruct (validate doc) eqn:Hv; [|done].
    apply validate_nil in Hv as (ts' & Hacc). destruct Hacc as [Hts ?].
    rewrite Hts in Hg. by simplify_eq.
  - intros Hacc. rewrite (proj2 (validate_nil doc)) by eauto. by destruct Hacc as [-> _].
Qed.

(** A refusal carries the errors of validation, and there is one. *)
Lemma guard_inl doc errs : guard doc = inl errs <-> validate doc = errs /\ errs <> [].
Proof.
  unfold guard. destruct (root_fields doc) as [ts|] eqn:Hts.
  - destruct (validate doc); naive_solver.
  - rewrite (validate_unresolved doc Hts). naive_solver.
Qed.

Lemma default_scalarCost : (1 <= scalarCost default_options)%N.
Proof. done. Qed.

Lemma default_listFactor : (1 <= listFactor default_options)%N.
Proof. done. Qed.

(** C36: what acceptance bounds.  An accepted operation nests at most six
    selection sets, has at most 1000 leaves and 6 * 1000 fields, and no path
    through it crosses more than three lists. *)
Theorem accepted_bounds doc ts :
  accepted doc ts ->
  levels ts <= 6 /\
  sum_list (leaves <$> ts) <= 1000 /\
  sum_list (fields <$> ts) <= 6 * 1000 /\
  Forall (fun t => list_nesting typeDefs (root_type (op_type doc)) t <= 3) ts.
Proof.
  intros (_ & Hwt & Hd & Hc).
  assert (sum_list (leaves <$> ts) <= 1000) as Hleaves.
  { pose proof (cost_all_ge_leaves typeDefs default_options default_scalarCost
                  default_listFactor _ 1%N ts Hwt). lia. }
  split_and!; [destruct ts; simpl; lia|done| |].
  - trans (sum_list ((fun t => leaves t * 6) <$> ts)).
    2:{ rewrite (sum_list_mul_r leaves 6 ts). lia. }
    apply sum_list_le. apply depth_all_le in Hd.
    eapply Forall_impl; [exact Hd|]. intros t Ht. simpl in *.
    pose proof (fields_le_leaves_depth t). nia.
  - rewrite forallb_Forall in Hwt. apply Forall_forall. intros t Ht.
    rewrite Forall_forall in Hwt.
    pose proof (cost_ge_list_nesting typeDefs default_options default_scalarCost
                  default_listFactor _ 1%N t (Hwt t Ht)) as Hn.
    pose proof (cost_all_elem_of typeDefs default_options
                  (Some (root_type (op_type doc))) 1 t ts Ht) as Hle.
    destruct (decide (list_nesting typeDefs (root_type (op_type doc)) t <= 3)) as [|Hgt]; [done|].
    assert (10 ^ 4 <= 10 ^ N.of_nat (list_nesting typeDefs (root_type (op_type doc)) t))%N
      by (apply N.pow_le_mono_r; lia).
    change (listFactor default_options) with 10%N in Hn. lia.
Qed.

(** an operation deeper than the bound is refused, with the error of
    the depth rule, whatever else is wrong with it. *)
Theorem too_deep_refused doc ts :
  root_fields doc = Some ts -> 6 < levels ts ->
  exists errs, guard doc = inl errs /\ DepthExceeded (op_name doc) 5 ∈ errs.
Proof.
  intros Hts Hdeep. exists (validate doc).
  assert (DepthExceeded (op_name doc) 5 ∈ validate doc) as Hin.
  { rewrite (validate_resolved doc ts Hts), !elem_of_app. right. left.
    rewrite decide_True; [apply list_elem_of_here|]. destruct ts; simpl in *; lia. }
  split; [|done]. apply guard_inl. split; [done|]. intros Hnil. rewrite Hnil in Hin.
  by apply elem_of_nil in Hin.
Qed.

(** C40: an operation estimated above the budget is refused, with the
    error of the complexity rule. *)
Theorem too_costly_refused doc ts :
  root_fields doc = Some ts -> (1000 < cost_of doc ts)%N ->
  exists errs, guard doc = inl errs /\ CostExceeded (cost_of doc ts) 1000 ∈ errs.
Proof.
  intros Hts Hcost. exists (validate doc).
  assert (CostExceeded (cost_of doc ts) 1000 ∈ validate doc) as Hin.
  { rewrite (validate_resolved doc ts Hts), !elem_of_app. right. right.
    rewrite decide_True by done. apply list_elem_of_here. }
  split; [|done]. apply guard_inl. split; [done|]. intros Hnil. rewrite Hnil in Hin.
  by apply elem_of_nil in Hin.
Qed.

End rules.

(** ** The operations of the specification's examples *)

Module GuardSamples.

Definition leaf (f : string) : selection := Field f [] [].

(** [{ allNotes { favoritedBy { favorites { favoritedBy { favorites { id } } } } } }] *)
Definition fan_out : executable :=
  mkExecutable OpQuery "fanOut"
    [Field "allNotes" []
       [Field "favoritedBy" []
          [Field "favorites" []
             [Field "favoritedBy" []
                [Field "favorites" [] [leaf "id"]]]]]] ∅.

(** [{ singleNote(id: "0") { author { notes { author { notes { author { notes { id } } } } } } } }] *)
Definition too_deep : executable :=
  mkExecutable OpQuery "deep"
    [Field "singleNote" [("id", JStr "0")]
       [Field "author" [] [Field "notes" []
          [Field "author" [] [Field "notes" []
             [Field "author" [] [Field "notes" [] [leaf "id"]]]]]]]] ∅.

(** [mutation { newNote(content: "# Hi") { ...noteFields } }] with
    [fragment noteFields on Note { id content author { ...userFields } }]
    and [fragment userFields on User { id name }]. *)
Definition new_note_op : executable :=
  mkExecutable OpMutation "create"
    [Field "newNote" [("content", JStr "# Hi")] [FragmentSpread "noteFields"]]
    {[ "noteFields" := [leaf "id"; leaf "content"; Field "author" [] [FragmentSpread "userFields"]];
       "userFields" := [leaf "id"; leaf "name"] ]}.

(** Two fragments that spread each other. *)
Definition cyclic : executable :=
  mkExecutable OpQuery "cyclic"
    [Field "allNotes" [] [FragmentSpread "a"]]
    {[ "a" := [leaf "id"; Field "author" [] [FragmentSpread "b"]];
       "b" := [Field "notes" [] [FragmentSpread "a"]] ]}.

End GuardSamples.

Import GuardSamples.

(** the operation the specification gives as over budget nests six
    selection sets; the depth rule passes it, and the complexity rule
    refuses it at an estimated cost of 100000. *)
Theorem fan_out_refused :
  (levels <$> root_fields fan_out) = Some 6 /\
  depthLimit 5 fan_out = [] /\
  guard fan_out = inl [CostExceeded 100000 1000].
Proof. by vm_compute. Qed.

Lemma too_deep_refused_witness :
  exists errs, guard too_deep = inl errs /\ DepthExceeded "deep" 5 ∈ errs.
Proof.
  refine (too_deep_refused too_deep _ _ _); [vm_compute; reflexivity|vm_compute; lia].
Defined.

Lemma too_costly_refused_witness :
  exists errs, guard fan_out = inl errs /\
    CostExceeded (cost_all typeDefs default_options (Some "Query") 1
                    (default [] (root_fields fan_out))) 1000 ∈ errs.
Proof.
  refine (too_costly_refused fan_out _ _ _); [vm_compute; reflexivity|by vm_compute].
Defined.

Lemma new_note_op_accepted :
  accepted new_note_op
    [FNode "newNote" [("content", JStr "# Hi")]
       [FNode "id" [] []; FNode "content" [] [];
        FNode "author" [] [FNode "id" [] []; FNode "name" [] []]]].
Proof. split_and!; [by vm_compute|by vm_compute|vm_compute; lia|by vm_compute]. Qed.

Lemma accepted_bounds_witness :
  levels (default [] (root_fields new_note_op)) <= 6 /\
  sum_list (leaves <$> default [] (root_fields new_note_op)) <= 1000 /\
  sum_list (fields <$> default [] (root_fields new_note_op)) <= 6 * 1000 /\
  Forall (fun t => list_nesting typeDefs "Mutation" t <= 3) (default [] (root_fields new_note_op)).
Proof. exact (accepted_bounds new_note_op _ new_note_op_accepted). Defined.

Lemma cyclic_refused : guard cyclic = inl [InvalidFragment].
Proof. by vm_compute. Qed.
