(* ===== verification/Execute.v ===== *)
(** * Execute: the result of a field, completed along its selection set

    The execution engine behind the Apollo server of [src/api/index.js]
    does not hand a resolver's result to the client as it is: it
    completes it against the type [src/api/schema.js] declares for the
    field.  A scalar is serialized; of an object only the selected
    fields are kept, each resolved in turn (by the resolver the map has
    for the field of that type, else by reading the property of that
    name) and completed likewise; a list is completed element by
    element.  An error below a nullable position makes that position
    [null] and is recorded; below a non-null position it travels up to
    the nearest nullable one, or fails the operation.

    [complete_value] and [execute_field] follow graphql-js; [Gateway]
    has the completion of a root field whose type is a scalar, which is
    the special case [complete_root_scalar].  The resolvers of fields
    below the roots read the store and do not change it ([reader]); they
    are not among the sources and are a parameter.  Aliases and
    [__typename] are not modelled: the key of a field in the response is
    its name, and a selection set is taken to name each field once
    ([distinct_names]).  The errors recorded below a position that then
    fails the operation are dropped with it.

    [conforms_type] is the shape the schema promises for a response;
    the theorems show that every completed result has it. *)

From S2P Require Import Prelude JsValue Schema Store Context Resolvers Gateway QueryGuard.

(** ** Execution *)

(** The resolver of a field of a type that is not a root: a function of
    [(parent, args, context)] that reads the store. *)
Definition reader (St : Type) : Type := jsval -> jsval -> jsval -> St -> js jsval.

(** Execution below a root field: the errors recorded so far are the
    state. *)
Abbreviation exec A := (eff (list js_error) js_error A).

(** An error in a field or in an element of a list: recorded, with
    [null] in its place, when the type is nullable; passed on when it is
    not. *)
Definition handle_field_error (t : gql_type) (m : exec jsval) : exec jsval := fun errs =>
  match m errs with
  | (Ok v, errs') => (Ok v, errs')
  | (Thrown e, errs') =>
      if is_non_null t then (Thrown e, errs') else (Ok JNull, errs' ++ [e])
  end.

(** The default resolver, as a reader. *)
Definition default_read (St : Type) (field : string) : reader St := fun parent _ _ _ =>
  match parent with
  | JObj o => Ok (default JUndefined (o !! field))
  | _ => Ok JUndefined
  end.

Section complete.
Context (object_fields : string -> jsval -> exec jsval).

(** Completion of a resolved value at a type; [object_fields] executes
    the selection set on a value of an object type. *)
Fixpoint complete_value (t : gql_type) (r : jsval) : exec jsval :=
  match t with
  | NonNullType t' =>
      let* v := complete_value t' r in
      if is_nullish v then throw (Error "Cannot return null for non-nullable field")
      else eret v
  | ListType t' =>
      if is_nullish r then eret JNull
      else match r with
           | JArr items =>
               let* vs := emapM (fun item => handle_field_error t' (complete_value t' item)) items in
               eret (JArr vs)
           | _ => throw (Error "Expected Iterable")
           end
  | NamedType n =>
      if is_nullish r then eret JNull
      else if is_object_name typeDefs n then object_fields n r
      else lift_outcome (serialize n r)
  end.

End complete.

Section execute.
Context {St : Type}.
Context (Types : list (string * list (string * reader St))).
Context (db : St) (ctx : jsval).

(** The resolver of a field of a type: the one the map has, the default
    otherwise. *)
Definition field_reader (tn field : string) : reader St :=
  match assoc tn Types ≫= assoc field with
  | Some f => f
  | None => default_read St field
  end.

(** One field selected on a value [source] of the object type [tn]:
    nothing when the type does not declare it, else its name and its
    completed value. *)
Fixpoint execute_field (tn : string) (source : jsval) (f : ftree) {struct f}
    : exec (option (string * jsval)) :=
  match f with
  | FNode name args kids =>
      match lookup_field typeDefs tn name with
      | None => eret None
      | Some fd =>
          let* v := handle_field_error (fd_type fd)
            (let* r := lift_outcome (field_reader tn name source (js_object args) ctx db) in
             complete_value
               (fun n src =>
                  let* xs := emapM (execute_field n src) kids in
                  eret (JObj (list_to_map (omap id xs))))
               (fd_type fd) r) in
          eret (Some (name, v))
      end
  end.

(** The selection set [kids] on a value of the object type [n]. *)
Definition execute_fields (n : string) (src : jsval) (kids : list ftree) : exec jsval :=
  let* xs := emapM (execute_field n src) kids in
  eret (JObj (list_to_map (omap id xs))).

(** What a root field of the response is, from how its completion
    ended and the errors recorded on the way. *)
Definition outcome_of (r : js jsval * list js_error) : field_outcome :=
  match r with
  | (Thrown e, _) => FieldPropagate e
  | (Ok v, errs) =>
      if is_nullish v then FieldNull errs
      else match errs with
           | [] => FieldValue v
           | _ => FieldPartial v errs
           end
  end.

(** The result [r] of the resolver of a root field of type [t], with
    the selection set [kids]. *)
Definition complete_root (t : gql_type) (kids : list ftree) (r : js jsval) : field_outcome :=
  outcome_of
    (handle_field_error t
       (let* v := lift_outcome r in
        complete_value (fun n src => execute_fields n src kids) t v) []).

End execute.

(** ** The shape of a response *)

Definition ft_name (f : ftree) : string := match f with FNode name _ _ => name end.

(** Every selection set names each of its fields once. *)
Fixpoint distinct_names (f : ftree) : bool :=
  match f with
  | FNode _ _ kids => bool_decide (NoDup (ft_name <$> kids)) && forallb distinct_names kids
  end.

(** A value of the response at a type and a selection set: [null] only
    where the type is nullable; a list of values of the element type; a
    serialized scalar; an object with the selected fields and no other,
    each a value of the type of the field. *)
Inductive conforms_type : gql_type -> list ftree -> jsval -> Prop :=
| conforms_null t kids :
    is_non_null t = false -> conforms_type t kids JNull
| conforms_non_null t kids v :
    v <> JNull -> conforms_type t kids v -> conforms_type (NonNullType t) kids v
| conforms_list t kids items :
    Forall (conforms_type t kids) items -> conforms_type (ListType t) kids (JArr items)
| conforms_scalar n kids v :
    is_object_name typeDefs n = false -> is_nullish v = false -> serialize n v = Ok v ->
    conforms_type (NamedType n) kids v
| conforms_object n kids o :
    is_object_name typeDefs n = true ->
    dom o ⊆ list_to_set (ft_name <$> kids) ->
    Forall (conforms_field n o) kids ->
    conforms_type (NamedType n) kids (JObj o)
with conforms_field : string -> gmap string jsval -> ftree -> Prop :=
| conforms_field_declared tn o name args kids fd v :
    lookup_field typeDefs tn name = Some fd -> o !! name = Some v ->
    conforms_type (fd_type fd) kids v ->
    conforms_field tn o (FNode name args kids)
| conforms_field_undeclared tn o name args kids :
    lookup_field typeDefs tn name = None -> o !! name = None ->
    conforms_field tn o (FNode name args kids).

(** What the execution of a field yields: its name with a value of its
    type, or nothing when the type does not declare it. *)
Definition field_result (tn : string) (f : ftree) (x : option (string * jsval)) : Prop :=
  match f with
  | FNode name _ kids =>
      match lookup_field typeDefs tn name with
      | Some fd => exists v, x = Some (name, v) /\ conforms_type (fd_type fd) kids v
      | None => x = None
      end
  end.

(** The outcome of a root field has the shape its type promises. *)
Definition outcome_conforms (t : gql_type) (kids : list ftree) (o : field_outcome) : Prop :=
  match o with
  | FieldValue v | FieldPartial v _ => v <> JNull /\ conforms_type t kids v
  | FieldNull _ => is_non_null t = false
  | FieldPropagate _ => is_non_null t = true
  end.

(** ** Serialization and errors *)

(** A serialized value is not null and serializes to itself. *)
Lemma serialize_serialized (n : string) (v w : jsval) :
  is_nullish v = false -> serialize n v = Ok w -> is_nullish w = false /\ serialize n w = Ok w.
Proof.
  unfold serialize. intros Hv. repeat case_decide; destruct v; simplify_eq/=;
    repeat case_decide; intros; simplify_eq/=; repeat case_decide; try done.
Qed.

Lemma handle_field_error_Ok (t : gql_type) (m : exec jsval) errs v errs' :
  handle_field_error t m errs = (Ok v, errs') ->
  m errs = (Ok v, errs') \/ (is_non_null t = false /\ v = JNull).
Proof.
  unfold handle_field_error. destruct (m errs) as [[w|e] errs1]; [by left|].
  destruct (is_non_null t); [done|]. intros [= <- _]. by right.
Qed.

(** Only a non-null type passes an error on. *)
Lemma handle_field_error_Thrown (t : gql_type) (m : exec jsval) errs e errs' :
  handle_field_error t m errs = (Thrown e, errs') -> is_non_null t = true.
Proof.
  unfold handle_field_error. destruct (m errs) as [[w|e'] errs1]; [done|].
  by destruct (is_non_null t).
Qed.

(** No value of a response is [undefined]. *)
Lemma conforms_type_defined (t : gql_type) (kids : list ftree) (v : jsval) :
  conforms_type t kids v -> v <> JUndefined.
Proof. induction 1; naive_solver. Qed.

(** A null conforms at nullable types only. *)
Lemma conforms_type_null (t : gql_type) (kids : list ftree) (v : jsval) :
  conforms_type t kids v -> is_nullish v = true -> is_non_null t = false.
Proof.
  intros Hc Hv. pose proof (conforms_type_defined t kids v Hc).
  destruct v; try done. by inversion Hc.
Qed.

(** ** Completion yields values of the type *)

Section conformance.
Context {St : Type}.
Context (Types : list (string * list (string * reader St))).
Context (db : St) (ctx : jsval).
Implicit Types (t : gql_type) (kids : list ftree) (v r : jsval) (errs : list js_error).

Local Abbreviation execute_field := (execute_field Types db ctx).
Local Abbreviation execute_fields := (execute_fields Types db ctx).
Local Abbreviation complete_root := (complete_root Types db ctx).

Lemma execute_field_eq tn source (name : string) args kids :
  execute_field tn source (FNode name args kids) =
    match lookup_field typeDefs tn name with
    | None => eret None
    | Some fd =>
        let* v := handle_field_error (fd_type fd)
          (let* r := lift_outcome (field_reader Types tn name source (js_object args) ctx db) in
           complete_value (fun n src => execute_fields n src kids) (fd_type fd) r) in
        eret (Some (name, v))
    end.
Proof. reflexivity. Qed.

(** Completion yields a value of the type, when the fields of objects do. *)
Lemma complete_value_conforms kids (object_fields : string -> jsval -> exec jsval) :
  (forall n r errs v errs', is_object_name typeDefs n = true ->
     object_fields n r errs = (Ok v, errs') -> conforms_type (NamedType n) kids v) ->
  forall t r errs v errs',
    complete_value object_fields t r errs = (Ok v, errs') -> conforms_type t kids v.
Proof.
  intros Hobj. induction t as [n|t IH|t IH]; intros r errs v errs'; simpl.
  - destruct (is_nullish r) eqn:Hr; [intros [= <- _]; by constructor|].
    destruct (is_object_name typeDefs n) eqn:Hn; [by apply Hobj|].
    unfold lift_outcome. intros [= Hs _].
    destruct (serialize_serialized n r v Hr Hs). by constructor.
  - destruct (is_nullish r) eqn:Hr; [intros [= <- _]; by constructor|].
    destruct r; try done. unfold ebind.
    destruct (emapM _ l errs) as [[vs|e] errs1] eqn:Hvs; [|done].
    intros [= <- _]. constructor.
    refine (emapM_Forall _ _ _ _ _ _ _ Hvs). intros x errs0 y errs0' Hy.
    destruct (handle_field_error_Ok _ _ _ _ _ Hy) as [?|[? ->]]; [eauto|by constructor].
  - unfold ebind. destruct (complete_value object_fields t r errs) as [[w|e] errs1] eqn:Hw; [|done].
    destruct (is_nullish w) eqn:Hn; [done|]. intros [= <- _].
    constructor; [by destruct w|eauto].
Qed.

(** A completed value is not [undefined]: what is absent is [null]. *)
Lemma complete_value_nullish (object_fields : string -> jsval -> exec jsval) t r errs v errs' :
  (forall n r errs v errs', object_fields n r errs = (Ok v, errs') -> v <> JUndefined) ->
  complete_value object_fields t r errs = (Ok v, errs') -> v <> JUndefined.
Proof.
  intros Hobj. revert r errs v errs'.
  induction t as [n|t IH|t IH]; intros r errs v errs'; simpl.
  - destruct (is_nullish r) eqn:Hr; [by intros [= <- _]|].
    destruct (is_object_name typeDefs n); [by apply Hobj|].
    unfold lift_outcome. intros [= Hs _].
    destruct (serialize_serialized n r v Hr Hs) as [Hv _]. by destruct v.
  - destruct (is_nullish r); [by intros [= <- _]|]. destruct r; try done. unfold ebind.
    destruct (emapM _ l errs) as [[vs|e] errs1]; [|done]. by intros [= <- _].
  - unfold ebind. destruct (complete_value object_fields t r errs) as [[w|e] errs1]; [|done].
    destruct (is_nullish w) eqn:Hn; [done|]. intros [= <- _]. by destruct w.
Qed.

Lemma field_result_name tn f (nm : string) v : field_result tn f (Some (nm, v)) -> nm = ft_name f.
Proof.
  destruct f as [name args kids]. simpl.
  destruct (lookup_field typeDefs tn name); [|done]. by intros (? & [= -> _] & _).
Qed.

Lemma field_result_conforms tn f (x : option (string * jsval)) (o : gmap string jsval) :
  field_result tn f x ->
  (forall nm v, x = Some (nm, v) -> o !! nm = Some v) ->
  (x = None -> o !! ft_name f = None) ->
  conforms_field tn o f.
Proof.
  destruct f as [name args kids]. simpl. intros Hres HSome HNone.
  destruct (lookup_field typeDefs tn name) as [fd|] eqn:Hfd.
  - destruct Hres as (v & -> & Hv). econstructor; eauto.
  - by constructor; auto.
Qed.

(** The keys of the results are names of the fields, in their order. *)
Lemma field_results_keys n kids (xs : list (option (string * jsval))) :
  Forall2 (field_result n) kids xs -> sublist (omap id xs).*1 (ft_name <$> kids).
Proof.
  induction 1 as [|k x kids xs Hk _ IH]; [constructor|].
  destruct x as [[nm v]|]; simpl; [|by constructor].
  rewrite (field_result_name _ _ _ _ Hk). by constructor.
Qed.

Lemma field_results_key n kids (xs : list (option (string * jsval))) i (nm : string) v :
  Forall2 (field_result n) kids xs -> xs !! i = Some (Some (nm, v)) ->
  (ft_name <$> kids) !! i = Some nm.
Proof.
  intros Hres Hi. destruct (Forall2_lookup_r _ _ _ _ _ Hres Hi) as (k & Hk & Hkx).
  rewrite list_lookup_fmap, Hk. simpl. by rewrite (field_result_name _ _ _ _ Hkx).
Qed.

(** The fields of an object, each with a result of its own, make an
    object of the type. *)
Lemma fields_conform n kids (xs : list (option (string * jsval))) :
  NoDup (ft_name <$> kids) -> Forall2 (field_result n) kids xs ->
  dom (list_to_map (omap id xs) : gmap string jsval) ⊆ list_to_set (ft_name <$> kids) /\
  Forall (conforms_field n (list_to_map (omap id xs))) kids.
Proof.
  intros Hnd Hres.
  assert (NoDup (omap id xs).*1) as Hnd' by by eapply sublist_NoDup, field_results_keys.
  split.
  - intros nm. rewrite dom_list_to_map_L, !elem_of_list_to_set.
    intros ((nm' & v) & -> & Hin)%list_elem_of_fmap.
    apply list_elem_of_omap in Hin as (x & (i & Hi)%list_elem_of_lookup & Hx). simpl in Hx. subst x.
    apply list_elem_of_lookup. exists i. by eapply field_results_key.
  - apply Forall_lookup. intros i k Hk.
    destruct (Forall2_lookup_l _ _ _ _ _ Hres Hk) as (x & Hx & Hkx).
    apply (field_result_conforms _ _ x); [done|..].
    + intros nm v ->. apply elem_of_list_to_map_1; [done|].
      apply list_elem_of_omap. exists (Some (nm, v)). split; [|done]. by eapply list_elem_of_lookup_2.
    + intros ->. apply not_elem_of_list_to_map_1.
      intros ((nm' & v) & Heq & Hin)%list_elem_of_fmap. simpl in Heq. subst nm'.
      apply list_elem_of_omap in Hin as (y & (j & Hj)%list_elem_of_lookup & Hy). simpl in Hy. subst y.
      pose proof (field_results_key _ _ _ _ _ _ Hres Hj) as Hj'.
      assert ((ft_name <$> kids) !! i = Some (ft_name k)) as Hi' by by rewrite list_lookup_fmap, Hk.
      pose proof (NoDup_lookup _ _ _ _ Hnd Hi' Hj'). naive_solver.
Qed.

Lemma distinct_names_node (name : string) args kids :
  distinct_names (FNode name args kids) = true <->
  NoDup (ft_name <$> kids) /\ Forall (fun k => distinct_names k = true) kids.
Proof. simpl. by rewrite andb_true_iff, bool_decide_eq_true, forallb_Forall. Qed.

(** The fields of an object conform when each of them does. *)
Lemma execute_fields_conforms n src kids errs v errs' :
  NoDup (ft_name <$> kids) ->
  Forall (fun k => forall tn src errs x errs',
            execute_field tn src k errs = (Ok x, errs') -> field_result tn k x) kids ->
  is_object_name typeDefs n = true ->
  execute_fields n src kids errs = (Ok v, errs') -> conforms_type (NamedType n) kids v.
Proof.
  intros Hnd IH Hn. unfold Execute.execute_fields, ebind.
  destruct (emapM _ kids errs) as [[xs|e] errs1] eqn:Hxs; [|done]. intros [= <- _].
  assert (Forall2 (field_result n) kids xs) as Hres.
  { refine (emapM_Forall2 _ _ _ _ _ _ _ Hxs). eapply Forall_impl; [exact IH|]. naive_solver. }
  destruct (fields_conform n kids xs Hnd Hres). by constructor.
Qed.

(** Every field that executes without passing an error on has a result
    of its type. *)
Lemma execute_field_result f :
  distinct_names f = true ->
  forall tn src errs x errs',
    execute_field tn src f errs = (Ok x, errs') -> field_result tn f x.
Proof.
  induction f as [name args kids IH] using ftree_ind'.
  intros [Hnd Hkids]%distinct_names_node tn src errs x errs'. rewrite execute_field_eq. simpl.
  destruct (lookup_field typeDefs tn name) as [fd|]; [|by intros [= <- _]].
  unfold ebind at 1.
  destruct (handle_field_error _ _ errs) as [[v|e] errs1] eqn:Hv; [|done]. intros [= <- _].
  exists v. split; [done|].
  destruct (handle_field_error_Ok _ _ _ _ _ Hv) as [Hm|[? ->]]; [|by constructor].
  unfold ebind, lift_outcome in Hm.
  destruct (field_reader Types tn name src (js_object args) ctx db) as [r|e]; [|done].
  refine (complete_value_conforms kids _ _ _ _ _ _ _ Hm).
  intros n r' errs0 v0 errs0'. apply execute_fields_conforms; [done|].
  eapply Forall_impl; [exact (proj2 (Forall_and _ _) (conj IH Hkids))|].
  intros k [Hk Hd]. by apply Hk.
Qed.

(** the response has the shape the schema promises.  Whatever the
    resolver of a root field returned or threw, and whatever the
    resolvers below it do, the field's outcome is a value of the field's
    type along the selection set (objects with the selected fields and
    no other, lists of conforming elements, serialized scalars, [null]
    at nullable positions only), or [null] when the type is nullable, or
    the failure of the operation when it is not. *)
Theorem complete_root_conforms t kids (r : js jsval) :
  NoDup (ft_name <$> kids) -> Forall (fun k => distinct_names k = true) kids ->
  outcome_conforms t kids (complete_root t kids r).
Proof.
  intros Hnd Hkids. unfold Execute.complete_root, outcome_of.
  destruct (handle_field_error t _ []) as [[v|e] errs] eqn:Hv.
  - assert (conforms_type t kids v) as Hc.
    { destruct (handle_field_error_Ok _ _ _ _ _ Hv) as [Hm|[? ->]]; [|by constructor].
      unfold ebind, lift_outcome in Hm. destruct r as [r|e]; [|done].
      refine (complete_value_conforms kids _ _ _ _ _ _ _ Hm).
      intros n r' errs0 v0 errs0'. apply execute_fields_conforms; [done|].
      eapply Forall_impl; [exact Hkids|]. intros k Hk. by apply execute_field_result. }
    destruct (is_nullish v) eqn:Hn; [by eapply conforms_type_null|].
    by destruct errs; (split; [by destruct v|]).
  - simpl. by eapply handle_field_error_Thrown.
Qed.

(** For a root field whose type is a scalar, completion is that of
    [Gateway]: the selection set plays no part. *)
Lemma complete_root_scalar (n : string) kids (r : js jsval) :
  is_object_name typeDefs n = false ->
  complete_root (NamedType n) kids r = complete_field (NamedType n) r /\
  complete_root (NonNullType (NamedType n)) kids r = complete_field (NonNullType (NamedType n)) r.
Proof.
  intros Hn. unfold Execute.complete_root, outcome_of, handle_field_error, complete_field, ebind,
    lift_outcome, throw, eret. simpl. rewrite Hn. unfold lift_outcome.
  destruct r as [v|e]; [|done]. destruct (is_nullish v) eqn:Hv; [done|].
  destruct (serialize n v) as [w|e] eqn:Hw; [|done].
  destruct (serialize_serialized n v w Hv Hw) as [Hnw _]. unfold ebind, eret. rewrite Hnw. simpl. by rewrite Hnw.
Qed.

End conformance.

(** ** Scalars and their bounds *)

Section bounds.
Context {St : Type}.
Context (Types : list (string * list (string * reader St))).
Context (db : St) (ctx : jsval).

(** What the response promises of the scalars of the schema: an [ID] and
    a [String] are strings, a [Boolean] is a boolean, an [Int] is an
    integer of 32 bits. *)
Lemma conforms_type_scalar (n : string) (kids : list ftree) (v : jsval) :
  is_object_name typeDefs n = false ->
  conforms_type (NonNullType (NamedType n)) kids v ->
  (n = "ID" \/ n = "String" -> exists s, v = JStr s) /\
  (n = "Boolean" -> exists b, v = JBool b) /\
  (n = "Int" -> exists z, v = JNum z /\ (- 2 ^ 31 <= z < 2 ^ 31)%Z).
Proof.
  intros Hn Hc. inversion Hc as [|? ? ? Hv Hc'| | |]; subst; [done|].
  inversion Hc' as [| | |? ? ? _ Hnull Hs|]; subst; [done| |congruence].
  unfold serialize in Hs.
  split_and!; intros; destruct_or?; simplify_eq/=; destruct v; simplify_eq/=; eauto;
    case_decide; simplify_eq; eauto.
Qed.

Lemma serialize_Int (z : Z) :
  serialize "Int" (JNum z) =
    if decide (- 2 ^ 31 <= z < 2 ^ 31)%Z then Ok (JNum z)
    else Thrown (TypeError "Int cannot represent non 32-bit signed integer value").
Proof. reflexivity. Qed.

(** [favoriteCount] is declared [Int!], an integer of 32 bits.  With
    no resolver of its own the field is the number the note's object
    carries: it is in the response while fewer than [2^31] users hold
    the note as a favorite, and from there on it is an error, which the
    non-null type passes on to the note. *)
Theorem favoriteCount_int (n : Note) errs :
  assoc "Note" Types ≫= assoc "favoriteCount" = None ->
  execute_field Types db ctx "Note" (note_to_js n) (FNode "favoriteCount" [] []) errs =
    if decide (Z.of_nat (favoriteCount n) < 2 ^ 31)%Z
    then (Ok (Some ("favoriteCount", JNum (Z.of_nat (favoriteCount n)))), errs)
    else (Thrown (TypeError "Int cannot represent non 32-bit signed integer value"), errs).
Proof.
  intros Hr. rewrite execute_field_eq.
  change (lookup_field typeDefs "Note" "favoriteCount")
    with (Some (mkField "favoriteCount" [] (NonNullType (NamedType "Int")))).
  unfold field_reader. rewrite Hr.
  change (default_read St "favoriteCount" (note_to_js n) (js_object []) ctx db)
    with (Ok (JNum (Z.of_nat (favoriteCount n))) : js jsval).
  unfold ebind, handle_field_error, lift_outcome, eret, throw. simpl. unfold lift_outcome. simpl.
  destruct (decide (Z.of_nat (favoriteCount n) < 2 ^ 31)%Z) as [Hlt|Hge].
  - unfold ebind. rewrite serialize_Int, decide_True; [done|]. lia.
  - unfold ebind. rewrite serialize_Int, decide_False; [done|]. lia.
Qed.
End bounds.

Lemma favoriteCount_int_witness :
  execute_field ([] : list (string * list (string * reader unit))) tt JNull "Note"
    (note_to_js (mkNote "0" "# Hi" "<h1>Hi</h1>" "u1" {[ "u2" ]} 0 0))
    (FNode "favoriteCount" [] []) []
  = (Ok (Some ("favoriteCount", JNum 1)), []).
Proof. exact (favoriteCount_int [] tt JNull (mkNote "0" "# Hi" "<h1>Hi</h1>" "u1" {[ "u2" ]} 0 0) [] eq_refl). Defined.
