(* ===== verification/Queries.v ===== *)
(** * Queries: the resolvers that read, and the reaction the schema declares

    [src/api/index.js] takes its resolver map from [./resolvers], of
    which only [Mutation.js] is among the sources.  The schema declares
    three queries, the fields of [Note] and [User], and the mutation
    [toggleReaction]; this file has them as the specification describes
    them, so that the server can be run whole and the properties the
    specification states of them can be checked against the mutations of
    [Mutation.js]:

    - module [Query]: [singleNote], [allNotes], [myNotes] over the notes
      of a note model ([NoteModel.abs]);
    - module [Fields]: the resolvers of [Note.author],
      [Note.favoritedBy], [Note.favoriteCount], [User.notes] and
      [User.favorites], over the notes and a table of users;
    - module [Reaction]: [toggleReaction] over the in-memory store, as
      one atomic change of the set [favoritedBy], and beside it the
      fetch-mutate-save cycle the specification warns against;
    - module [Identity]: the identity of a session as the specification
      has it, the user of the session looked up among the users.

    None of this is in [src/]: it follows the specification. *)

From S2P Require Import Prelude JsValue Schema Store Context Resolvers Gateway QueryGuard Execute.

(** The notes a store holds, as a list. *)
Definition all_notes (σ : gmap string Note) : list Note := (map_to_list σ).*2.

(** The notes an id wrote, and those it holds as favorites; an id that
    is not a string has none. *)
Definition authored_by (uid : jsval) (n : Note) : bool :=
  match uid with
  | JStr u => bool_decide (authorId n = u)
  | _ => false
  end.

Definition favorite_of (uid : jsval) (n : Note) : bool :=
  match uid with
  | JStr u => bool_decide (u ∈ favoritedBy n)
  | _ => false
  end.

(** ** The queries *)

Module Query.

Section resolvers.
Context {St : Type} `{!NoteModel.Ops St} `{!NoteModel.Laws St}.

(** [singleNote(id)]: the note, [null] when there is none. *)
Definition singleNote : resolver St := fun parent args ctx s =>
  (let? id := get_prop args "id" in
   match id with
   | JStr i => Ok (from_option note_to_js JNull (NoteModel.abs s !! i))
   | _ => Thrown (Error "Cast to ObjectId failed")
   end, s).

(** [allNotes]: every note. *)
Definition allNotes : resolver St := fun parent args ctx s =>
  (Ok (JArr (note_to_js <$> all_notes (NoteModel.abs s))), s).

(** [myNotes]: the notes of the caller; [null] without a user. *)
Definition myNotes : resolver St := fun parent args ctx s =>
  (let? user := get_prop ctx "user" in
   if js_not user then Ok JNull
   else
     let? uid := get_prop user "id" in
     Ok (JArr (note_to_js <$> filter (authored_by uid) (all_notes (NoteModel.abs s)))), s).

Definition exports : list (string * resolver St) :=
  [("singleNote", singleNote); ("allNotes", allNotes); ("myNotes", myNotes)].

End resolvers.

End Query.

(** ** The fields of [Note] and [User] *)

Module Fields.

Section resolvers.
Context {St : Type} `{!NoteModel.Ops St} `{!NoteModel.Laws St}.

(** The users, by id: they are created by the authentication routes. *)
Context (users : gmap string jsval).

(** The user of an id: a reference to a user that does not exist is an
    error. *)
Definition find_user (id : jsval) : js jsval :=
  match id with
  | JStr uid =>
      match users !! uid with
      | Some u => Ok u
      | None => Thrown (Error ("DanglingReference: " +:+ uid))
      end
  | _ => Thrown (Error "Cast to ObjectId failed")
  end.

(** [Note.author] *)
Definition author : reader St := fun note args ctx s =>
  let? a := get_prop note "author" in find_user a.

(** [Note.favoritedBy] *)
Definition favoritedBy : reader St := fun note args ctx s =>
  let? ids := get_prop note "favoritedBy" in
  match ids with
  | JArr l =>
      Ok (JArr (omap (fun id => match find_user id with Ok u => Some u | Thrown _ => None end) l))
  | _ => Ok JNull
  end.

(** [Note.favoriteCount]: the size of [favoritedBy]. *)
Definition favoriteCount : reader St := fun note args ctx s =>
  let? ids := get_prop note "favoritedBy" in get_prop ids "length".

(** [User.notes]: the notes the user wrote. *)
Definition notes : reader St := fun user args ctx s =>
  let? uid := get_prop user "id" in
  Ok (JArr (note_to_js <$> filter (authored_by uid) (all_notes (NoteModel.abs s)))).

(** [User.favorites]: the notes the user holds as favorites. *)
Definition favorites : reader St := fun user args ctx s =>
  let? uid := get_prop user "id" in
  Ok (JArr (note_to_js <$> filter (favorite_of uid) (all_notes (NoteModel.abs s)))).

Definition exports : list (string * list (string * reader St)) :=
  [("Note", [("author", author); ("favoritedBy", favoritedBy); ("favoriteCount", favoriteCount)]);
   ("User", [("notes", notes); ("favorites", favorites)])].

End resolvers.

End Fields.

(** ** The identity of a session *)

Module Identity.

(** Who is calling: nobody known, or a user who exists. *)
Inductive Identity : Type :=
| Anonymous
| Authenticated (userId : string) (displayName avatar : jsval).

(** [resolveIdentity(session)]: the user the session names, looked up
    among the users.  A session without a user is anonymous, and so is
    one whose user no longer exists: that is not an error. *)
Definition resolveIdentity (users : gmap string jsval) (session : jsval) : Identity :=
  match get_prop (session_user session) "id" with
  | Ok (JStr uid) =>
      match users !! uid with
      | Some u =>
          Authenticated uid (default JUndefined (as_object u ≫= lookup "name"))
            (default JUndefined (as_object u ≫= lookup "avatar"))
      | None => Anonymous
      end
  | _ => Anonymous
  end.

(** The caller as the resolvers see it: the [user] of the context is
    truthy. *)
Definition authenticated (ctx : jsval) : bool :=
  match get_prop ctx "user" with
  | Ok u => truthy u
  | Thrown _ => false
  end.

End Identity.

(** ** The reaction *)

Module Reaction.
Import MemStore.

(** The caller's id enters or leaves the favorites of a note, at time
    [t]. *)
Definition toggle_favorite (uid : string) (t : Z) (n : Note) : Note :=
  {| note_id := note_id n; content := content n; htmlContent := htmlContent n;
     authorId := authorId n; favoritedBy := toggle uid (Store.favoritedBy n);
     createdAt := createdAt n; updatedAt := t |}.

(** The store's atomic update: one access that reads the set and writes
    it back toggled. *)
Definition toggleFavorite (id uid : string) : eff store js_error jsval := fun s =>
  match notes s !! id with
  | Some n =>
      let n' := toggle_favorite uid (Z.max (clock s) (updatedAt n)) n in
      (Ok (note_to_js n'), touch (with_notes (insert id n') s))
  | None => (Thrown (NotFound id), touch s)
  end.

(** [toggleReaction(noteID)]: for an authenticated caller. *)
Definition toggleReaction : resolver store := fun parent args ctx =>
  let* user := lift_outcome (get_prop ctx "user") in
  if js_not user then eret JNull
  else
    let* uid := lift_outcome (get_prop user "id") in
    let* id := lift_outcome (get_prop args "noteID") in
    match id, uid with
    | JStr i, JStr u => toggleFavorite i u
    | _, _ => throw (Error "Cast to ObjectId failed")
    end.

(** The cycle the specification warns against, in two accesses: the
    resolver fetches the note, and later saves the set it computed from
    what it fetched. *)
Definition fetch (id : string) : eff store js_error Note := fun s =>
  match notes s !! id with
  | Some n => (Ok n, touch s)
  | None => (Thrown (NotFound id), touch s)
  end.

Definition save (id uid : string) (fetched : Note) : eff store js_error jsval := fun s =>
  let n' := toggle_favorite uid (Z.max (clock s) (updatedAt fetched)) fetched in
  (Ok (note_to_js n'), touch (with_notes (insert id n') s)).

End Reaction.

(** ** The queries read *)

Section reads.
Context {St : Type} `{!NoteModel.Ops St} `{!NoteModel.Laws St}.
Implicit Types (parent args ctx : jsval) (s : St) (n : Note) (σ : gmap string Note).

(** No query changes the store. *)
Lemma Query_read_only (name : string) (f : resolver St) parent args ctx s :
  (name, f) ∈ Query.exports -> (f parent args ctx s).2 = s.
Proof.
  unfold Query.exports. rewrite !elem_of_cons, elem_of_nil.
  intros [?|[?|[?|[]]]]; by simplify_eq.
Qed.

Lemma elem_of_all_notes n σ : n ∈ all_notes σ <-> exists i, σ !! i = Some n.
Proof.
  unfold all_notes. rewrite list_elem_of_fmap. split.
  - intros ([i n'] & -> & Hin%elem_of_map_to_list). eauto.
  - intros [i Hi]. exists (i, n). by rewrite elem_of_map_to_list.
Qed.

(** The object of a note determines the note's author. *)
Lemma note_to_js_author n n' : note_to_js n = note_to_js n' -> authorId n = authorId n'.
Proof.
  intros Heq. pose proof (proj2 (proj2 (proj2 (get_prop_note_to_js n)))) as Ha.
  rewrite Heq, (proj2 (proj2 (proj2 (get_prop_note_to_js n')))) in Ha. by simplify_eq.
Qed.

(** [singleNote] of a string id. *)
Lemma singleNote_id parent args ctx s (i : string) :
  get_prop args "id" = Ok (JStr i) ->
  Query.singleNote parent args ctx s = (Ok (from_option note_to_js JNull (NoteModel.abs s !! i)), s).
Proof. unfold Query.singleNote. by intros ->. Qed.

(** [myNotes] of a user with a string id: the notes of that author. *)
Lemma myNotes_user parent args ctx s (user : jsval) (uid : string) :
  get_prop ctx "user" = Ok user -> truthy user = true -> get_prop user "id" = Ok (JStr uid) ->
  Query.myNotes parent args ctx s =
    (Ok (JArr (note_to_js <$> filter (authored_by (JStr uid)) (all_notes (NoteModel.abs s)))), s).
Proof.
  unfold Query.myNotes, js_not. intros -> Ht Hid. simpl. by rewrite Ht, Hid.
Qed.

Lemma myNotes_anonymous parent args ctx s (user : jsval) :
  get_prop ctx "user" = Ok user -> truthy user = false ->
  Query.myNotes parent args ctx s = (Ok JNull, s).
Proof. unfold Query.myNotes, js_not. intros -> Ht. simpl. by rewrite Ht. Qed.

(** What [myNotes] lists for a user: the objects of the notes of that
    author. *)
Lemma elem_of_myNotes σ (uid : string) (v : jsval) :
  v ∈ note_to_js <$> filter (authored_by (JStr uid)) (all_notes σ) <->
  exists i n, σ !! i = Some n /\ authorId n = uid /\ v = note_to_js n.
Proof.
  rewrite list_elem_of_fmap. setoid_rewrite list_elem_of_filter.
  setoid_rewrite elem_of_all_notes. unfold authored_by.
  setoid_rewrite bool_decide_spec. naive_solver.
Qed.

End reads.

(** ** The mutations of [Mutation.js], read back *)

Section read_back.
Context (marked : MarkedOptions -> string -> string).
Context {St : Type} `{!NoteModel.Ops St} `{!NoteModel.Laws St}.
Implicit Types (parent args ctx user : jsval) (s : St) (n : Note) (i uid c : string).

Local Abbreviation render := (Mutation.render marked).

(** The store after [newNote] by a user. *)
Lemma newNote_stored parent args ctx user uid c s r s' :
  NoteModel.inv s ->
  get_prop ctx "user" = Ok user -> truthy user = true -> get_prop user "id" = Ok (JStr uid) ->
  get_prop args "content" = Ok (JStr c) ->
  Mutation.newNote marked parent args ctx s = (r, s') ->
  exists i t, NoteModel.abs s !! i = None /\
    r = Ok (note_to_js (new_note i c (render c) uid t)) /\
    NoteModel.abs s' = <[i := new_note i c (render c) uid t]> (NoteModel.abs s).
Proof.
  intros Hinv Hu Ht Hid Hc Hrun.
  destruct (Mutation.newNote_step marked parent args ctx user (JStr uid) c s r s'
              Hinv Hu Ht Hid Hc Hrun) as [_ Hstep].
  eapply NoteSpecFacts.step_insert_inv; [|done]. unfold NoteSpec.insert_input. by rewrite Hc.
Qed.

(** C31: a note that [newNote] created is read back by [singleNote].
    The object [newNote] returns to a user carries an id, and
    [singleNote] of that id, by any caller, returns the same object. *)
Theorem newNote_singleNote parent args ctx user uid c s r s' :
  NoteModel.inv s ->
  get_prop ctx "user" = Ok user -> truthy user = true -> get_prop user "id" = Ok (JStr uid) ->
  get_prop args "content" = Ok (JStr c) ->
  Mutation.newNote marked parent args ctx s = (r, s') ->
  exists v i, r = Ok v /\ get_prop v "id" = Ok (JStr i) /\
    forall parent' args' ctx', get_prop args' "id" = Ok (JStr i) ->
      Query.singleNote parent' args' ctx' s' = (Ok v, s').
Proof.
  intros Hinv Hu Ht Hid Hc Hrun.
  destruct (newNote_stored parent args ctx user uid c s r s' Hinv Hu Ht Hid Hc Hrun)
    as (i & t & _ & -> & Hs').
  eexists _, i. split_and!; [done|done|]. intros parent' args' ctx' Hi.
  by rewrite (singleNote_id parent' args' ctx' s' i Hi), Hs', lookup_insert_eq.
Qed.

(** a note that [deleteNote] deleted is not found by [singleNote].
    When [deleteNote] of an id returns [true], [singleNote] of that id
    returns [null]; when it returns [false], the store is as it was and
    [singleNote] returned [null] before as well. *)
Theorem deleteNote_singleNote parent args ctx db i s r s' :
  NoteModel.inv s -> get_prop ctx "db" = Ok db -> get_prop args "id" = Ok (JStr i) ->
  Mutation.deleteNote parent args ctx s = (r, s') ->
  forall parent' args' ctx', get_prop args' "id" = Ok (JStr i) ->
    Query.singleNote parent' args' ctx' s' = (Ok JNull, s') /\
    (r = Ok (JBool false) ->
       NoteModel.abs s' = NoteModel.abs s /\
       Query.singleNote parent' args' ctx' s = (Ok JNull, s)).
Proof.
  intros Hinv Hdb Hid Hrun parent' args' ctx' Hi.
  destruct (Mutation.deleteNote_step parent args ctx db (JStr i) s r s' Hinv Hdb Hid Hrun)
    as [_ [-> Hs']%NoteSpecFacts.step_delete_inv].
  rewrite !(singleNote_id parent' args' ctx' _ i Hi), Hs', lookup_delete_eq. split; [done|].
  intros [= Hb%bool_decide_eq_false]. apply eq_None_not_Some in Hb.
  by rewrite delete_id, Hb.
Qed.

(** C32: the scenario of the specification.  After a user [uid] has
    created a note, [myNotes] for that user lists it, and [myNotes] for
    any other user does not. *)
Theorem newNote_myNotes parent args ctx user uid c s r s' :
  NoteModel.inv s ->
  get_prop ctx "user" = Ok user -> truthy user = true -> get_prop user "id" = Ok (JStr uid) ->
  get_prop args "content" = Ok (JStr c) ->
  Mutation.newNote marked parent args ctx s = (r, s') ->
  exists v, r = Ok v /\
    forall parent' args' ctx' user' uid',
      get_prop ctx' "user" = Ok user' -> truthy user' = true ->
      get_prop user' "id" = Ok (JStr uid') ->
      exists l, Query.myNotes parent' args' ctx' s' = (Ok (JArr l), s') /\
        (v ∈ l <-> uid' = uid).
Proof.
  intros Hinv Hu Ht Hid Hc Hrun.
  destruct (newNote_stored parent args ctx user uid c s r s' Hinv Hu Ht Hid Hc Hrun)
    as (i & t & Hi & -> & Hs').
  eexists. split; [done|]. intros parent' args' ctx' user' uid' Hu' Ht' Hid'.
  eexists. split; [by apply (myNotes_user parent' args' ctx' s' user' uid')|].
  rewrite elem_of_myNotes, Hs'. split.
  - intros (j & n & _ & <- & Heq). by apply note_to_js_author in Heq.
  - intros ->. exists i, (new_note i c (render c) uid t). by rewrite lookup_insert_eq.
Qed.

End read_back.

(** ** The identity the context carries *)

Section identity.
Import Identity.
Context (marked : MarkedOptions -> string -> string).
Context (models : jsval).
Context {St : Type} `{!NoteModel.Ops St} `{!NoteModel.Laws St}.
Context (users : gmap string jsval).
Implicit Types (o u : gmap string jsval) (uid c : string) (s : St) (ctx session : jsval).

(** The identity of the specification never fails, and a session with
    no user, or with a user who does not exist, is anonymous. *)
Lemma resolveIdentity_no_user o : o !! "user" = None -> resolveIdentity users (JObj o) = Anonymous.
Proof. intros Hu. unfold resolveIdentity, session_user. by rewrite Hu. Qed.

Lemma resolveIdentity_dangling o u uid :
  o !! "user" = Some (JObj u) -> u !! "id" = Some (JStr uid) -> users !! uid = None ->
  resolveIdentity users (JObj o) = Anonymous.
Proof.
  intros Ho Hu Hn. unfold resolveIdentity, session_user. rewrite Ho. simpl.
  rewrite Hu. simpl. by rewrite Hn.
Qed.

(** Whoever the specification authenticates, the context does: the
    code is the more permissive. *)
Lemma resolveIdentity_authenticated o uid name avatar ctx :
  resolveIdentity users (JObj o) = Authenticated uid name avatar ->
  context models (request_with_session (JObj o)) = Ok ctx ->
  authenticated ctx = true.
Proof.
  intros Hid Hctx. unfold authenticated. rewrite (context_user models o ctx Hctx).
  unfold resolveIdentity in Hid.
  by destruct (session_user (JObj o)) eqn:Hu; simpl in Hid; try discriminate Hid.
Qed.

(** C34: the user of a session is not looked up.  The context takes
    [req.session.user] as it is: a session that names a user who no
    longer exists is anonymous for the specification, and for the code
    it is that user, in whose name [newNote] stores a note. *)
Theorem dangling_user_authenticated o u uid parent args c s r s' :
  o !! "user" = Some (JObj u) -> u !! "id" = Some (JStr uid) -> users !! uid = None ->
  NoteModel.inv s -> get_prop args "content" = Ok (JStr c) ->
  resolveIdentity users (JObj o) = Anonymous /\
  exists ctx, context models (request_with_session (JObj o)) = Ok ctx /\
    authenticated ctx = true /\
    (Mutation.newNote marked parent args ctx s = (r, s') ->
     exists i n, NoteModel.abs s' !! i = Some n /\ authorId n = uid /\ content n = c).
Proof.
  intros Ho Hu Hn Hinv Hc. split; [by eapply resolveIdentity_dangling|].
  eexists. split; [apply context_session_obj|].
  assert (session_user (JObj o) = JObj u) as Hsu by (unfold session_user; by rewrite Ho).
  rewrite Hsu. split; [done|]. intros Hrun.
  destruct (newNote_stored marked parent args
              (js_object [("models", models); ("user", js_or (JObj u) (JStr ""))]) (JObj u) uid c
              s r s' Hinv eq_refl eq_refl (get_prop_obj_Some u "id" _ Hu) Hc Hrun)
    as (i & t & _ & _ & ->).
  eexists i, _. by rewrite lookup_insert_eq.
Qed.

End identity.

(** ** The reaction *)

Import MemStore Reaction.

Section reaction.
Implicit Types (s : store) (n : Note) (i u v : string).

Lemma toggle_favorite_favoritedBy u t n :
  favoritedBy (toggle_favorite u t n) = toggle u (favoritedBy n).
Proof. reflexivity. Qed.

(** The atomic update of a note that exists. *)
Lemma toggleFavorite_found i u s n :
  notes s !! i = Some n ->
  exists t, (updatedAt n <= t)%Z /\
    toggleFavorite i u s =
      (Ok (note_to_js (toggle_favorite u t n)),
       touch (with_notes (insert i (toggle_favorite u t n)) s)).
Proof.
  intros Hn. unfold toggleFavorite. rewrite Hn. eexists. split; [|done]. lia.
Qed.

Lemma toggleFavorite_notes i u s n :
  notes s !! i = Some n ->
  exists t, notes (toggleFavorite i u s).2 = <[i := toggle_favorite u t n]> (notes s).
Proof. intros Hn. destruct (toggleFavorite_found i u s n Hn) as (t & _ & ->). by exists t. Qed.

(** [toggleReaction] by a user with a string id, on a string id. *)
Lemma toggleReaction_user parent args ctx (user : jsval) i u s :
  get_prop ctx "user" = Ok user -> truthy user = true -> get_prop user "id" = Ok (JStr u) ->
  get_prop args "noteID" = Ok (JStr i) ->
  toggleReaction parent args ctx s = toggleFavorite i u s.
Proof.
  intros Hu Ht Hid Hi. unfold toggleReaction, ebind, lift_outcome, js_not.
  by rewrite Hu, Ht, Hid, Hi.
Qed.

(** [toggleReaction] is idempotent in pairs.  Called twice by the
    same user on the same note, it leaves the note with the favorites
    and the favorite count it had, and every other note as it was. *)
Theorem toggleReaction_twice parent args ctx (user : jsval) i u s n :
  get_prop ctx "user" = Ok user -> truthy user = true -> get_prop user "id" = Ok (JStr u) ->
  get_prop args "noteID" = Ok (JStr i) ->
  notes s !! i = Some n ->
  let s2 := (toggleReaction parent args ctx (toggleReaction parent args ctx s).2).2 in
  (exists n2, notes s2 !! i = Some n2 /\ favoritedBy n2 = favoritedBy n /\
     favoriteCount n2 = favoriteCount n) /\
  (forall j, j <> i -> notes s2 !! j = notes s !! j).
Proof.
  intros Hu Ht Hid Hi Hn. simpl.
  rewrite !(toggleReaction_user parent args ctx user i u _ Hu Ht Hid Hi).
  destruct (toggleFavorite_notes i u s n Hn) as [t1 Hs1].
  destruct (toggleFavorite_notes i u (toggleFavorite i u s).2 (toggle_favorite u t1 n)) as [t2 Hs2].
  { by rewrite Hs1, lookup_insert_eq. }
  rewrite Hs2, Hs1. split.
  - eexists. rewrite lookup_insert_eq. split; [done|].
    unfold favoriteCount. by rewrite !toggle_favorite_favoritedBy, toggle_involutive.
  - intros j Hj. by rewrite !lookup_insert_ne.
Qed.

(** Two users react to the same note at the same time.  With the
    store's atomic update both reactions are kept, whichever comes
    first. *)
Lemma toggleFavorite_both i u v s n :
  notes s !! i = Some n ->
  exists n2, notes (toggleFavorite i v (toggleFavorite i u s).2).2 !! i = Some n2 /\
    favoritedBy n2 = toggle v (toggle u (favoritedBy n)).
Proof.
  intros Hn. destruct (toggleFavorite_notes i u s n Hn) as [t1 Hs1].
  destruct (toggleFavorite_notes i v (toggleFavorite i u s).2 (toggle_favorite u t1 n)) as [t2 Hs2].
  { by rewrite Hs1, lookup_insert_eq. }
  eexists. rewrite Hs2, lookup_insert_eq. split; [done|]. done.
Qed.

(** With the cycle of fetch and save, when both fetch before either
    saves, the reaction saved first is lost. *)
Lemma fetch_save_loses i u v s n :
  notes s !! i = Some n ->
  exists s1 s2 n4,
    fetch i s = (Ok n, s1) /\ fetch i s1 = (Ok n, s2) /\
    notes (save i v n (save i u n s2).2).2 !! i = Some n4 /\
    favoritedBy n4 = toggle v (favoritedBy n).
Proof.
  intros Hn. unfold fetch. rewrite Hn. eexists _, _, _. split; [done|]. simpl. rewrite Hn.
  split; [done|]. unfold save. simpl. by rewrite lookup_insert_eq.
Qed.

(** concurrent reactions need the store's atomic update.  When two
    users who do not hold a note as a favorite react to it, the atomic
    updates leave both among its favorites, in either order; the
    fetch-mutate-save cycle, with both fetches before the saves, leaves
    only the one who saved last. *)
Theorem concurrent_reactions i u v s n :
  notes s !! i = Some n -> u ∉ favoritedBy n -> v ∉ favoritedBy n -> u <> v ->
  (exists n2, notes (toggleFavorite i v (toggleFavorite i u s).2).2 !! i = Some n2 /\
     favoritedBy n2 = {[u; v]} ∪ favoritedBy n) /\
  (exists n2, notes (toggleFavorite i u (toggleFavorite i v s).2).2 !! i = Some n2 /\
     favoritedBy n2 = {[u; v]} ∪ favoritedBy n) /\
  (exists s1 s2 n4,
     fetch i s = (Ok n, s1) /\ fetch i s1 = (Ok n, s2) /\
     notes (save i v n (save i u n s2).2).2 !! i = Some n4 /\
     favoritedBy n4 = {[v]} ∪ favoritedBy n /\ u ∉ favoritedBy n4).
Proof.
  intros Hn Hu Hv Huv.
  assert (forall x y, x ∉ favoritedBy n -> y ∉ favoritedBy n -> x <> y ->
            toggle y (toggle x (favoritedBy n)) = {[x; y]} ∪ favoritedBy n) as Htwo.
  { intros x y Hx Hy Hxy. apply set_eq. intros z. rewrite !elem_of_toggle. set_solver. }
  split_and!.
  - destruct (toggleFavorite_both i u v s n Hn) as (n2 & Hn2 & Hf). exists n2.
    by rewrite Hf, Htwo.
  - destruct (toggleFavorite_both i v u s n Hn) as (n2 & Hn2 & Hf). exists n2.
    rewrite Hf, Htwo by done. split; [done|]. set_solver.
  - destruct (fetch_save_loses i u v s n Hn) as (s1 & s2 & n4 & H1 & H2 & H4 & Hf).
    exists s1, s2, n4. split_and!; [done..| |].
    + rewrite Hf. apply set_eq. intros z. rewrite elem_of_toggle. set_solver.
    + rewrite Hf, elem_of_toggle. set_solver.
Qed.

End reaction.

(** ** Samples *)

Import Samples MemStoreFacts.

(** A session whose user [u9] is not among the users. *)
Lemma dangling_user_authenticated_witness :
  Identity.resolveIdentity {[ "u1" := js_object [("id", JStr "u1")] ]}
    (JObj {[ "user" := js_object [("id", JStr "u9")] ]}) = Identity.Anonymous /\
  exists ctx, context JNull (request_with_session (JObj {[ "user" := js_object [("id", JStr "u9")] ]}))
                = Ok ctx /\
    Identity.authenticated ctx = true /\
    (Mutation.newNote sample_marked JNull sample_args ctx MemStore.empty =
       Mutation.newNote sample_marked JNull sample_args
         (js_object [("models", JNull); ("user", js_object [("id", JStr "u9")])]) MemStore.empty ->
     exists i n, NoteModel.abs (Mutation.newNote sample_marked JNull sample_args
         (js_object [("models", JNull); ("user", js_object [("id", JStr "u9")])]) MemStore.empty).2 !! i
                   = Some n /\ authorId n = "u9" /\ content n = "# Hi").
Proof.
  refine (dangling_user_authenticated sample_marked JNull {[ "u1" := js_object [("id", JStr "u1")] ]}
            {[ "user" := js_object [("id", JStr "u9")] ]} {[ "id" := JStr "u9" ]} "u9" JNull sample_args
            "# Hi" MemStore.empty _ _ eq_refl eq_refl eq_refl wf_empty eq_refl).
Defined.

Lemma newNote_singleNote_witness :
  exists v i, (Ok (note_to_js (new_note "0" "# Hi" "<p># Hi</p>" "u1" 0)) : js jsval) = Ok v /\
    get_prop v "id" = Ok (JStr i) /\
    forall parent' args' ctx', get_prop args' "id" = Ok (JStr i) ->
      Query.singleNote parent' args' ctx' one_note = (Ok v, one_note).
Proof.
  exact (newNote_singleNote sample_marked JNull sample_args user_ctx (js_object [("id", JStr "u1")])
           "u1" "# Hi" MemStore.empty _ _ wf_empty eq_refl eq_refl eq_refl eq_refl eq_refl).
Defined.

Lemma deleteNote_singleNote_witness :
  forall parent' args' ctx', get_prop args' "id" = Ok (JStr "0") ->
    Query.singleNote parent' args' ctx'
      (Mutation.deleteNote JNull delete_args anonymous_ctx one_note).2
    = (Ok JNull, (Mutation.deleteNote JNull delete_args anonymous_ctx one_note).2) /\
    ((Mutation.deleteNote JNull delete_args anonymous_ctx one_note).1 = Ok (JBool false) ->
       NoteModel.abs (Mutation.deleteNote JNull delete_args anonymous_ctx one_note).2
         = NoteModel.abs one_note /\
       Query.singleNote parent' args' ctx' one_note = (Ok JNull, one_note)).
Proof.
  exact (deleteNote_singleNote JNull delete_args anonymous_ctx JUndefined "0" one_note _ _
           one_note_wf eq_refl eq_refl (surjective_pairing _)).
Defined.

Lemma newNote_myNotes_witness :
  exists v, (Ok (note_to_js (new_note "0" "# Hi" "<p># Hi</p>" "u1" 0)) : js jsval) = Ok v /\
    forall parent' args' ctx' user' uid',
      get_prop ctx' "user" = Ok user' -> truthy user' = true ->
      get_prop user' "id" = Ok (JStr uid') ->
      exists l, Query.myNotes parent' args' ctx' one_note = (Ok (JArr l), one_note) /\
        (v ∈ l <-> uid' = "u1").
Proof.
  exact (newNote_myNotes sample_marked JNull sample_args user_ctx (js_object [("id", JStr "u1")])
           "u1" "# Hi" MemStore.empty _ _ wf_empty eq_refl eq_refl eq_refl eq_refl eq_refl).
Defined.

(** The arguments of [toggleReaction] for the note [0]. *)
Lemma toggleReaction_twice_witness :
  let args := js_object [("noteID", JStr "0")] in
  let s2 := (toggleReaction JNull args user_ctx (toggleReaction JNull args user_ctx one_note).2).2 in
  (exists n2, notes s2 !! "0" = Some n2 /\
     favoritedBy n2 = favoritedBy (new_note "0" "# Hi" "<p># Hi</p>" "u1" 0) /\
     favoriteCount n2 = favoriteCount (new_note "0" "# Hi" "<p># Hi</p>" "u1" 0)) /\
  (forall j, j <> "0" -> notes s2 !! j = notes one_note !! j).
Proof.
  exact (toggleReaction_twice JNull (js_object [("noteID", JStr "0")]) user_ctx
           (js_object [("id", JStr "u1")]) "0" "u1" one_note _ eq_refl eq_refl eq_refl eq_refl
           eq_refl).
Defined.

Lemma concurrent_reactions_witness :
  let n := new_note "0" "# Hi" "<p># Hi</p>" "u1" 0 in
  (exists n2, notes (toggleFavorite "0" "v" (toggleFavorite "0" "u" one_note).2).2 !! "0" = Some n2 /\
     favoritedBy n2 = {[ "u"; "v" ]} ∪ favoritedBy n) /\
  (exists n2, notes (toggleFavorite "0" "u" (toggleFavorite "0" "v" one_note).2).2 !! "0" = Some n2 /\
     favoritedBy n2 = {[ "u"; "v" ]} ∪ favoritedBy n) /\
  (exists s1 s2 n4,
     fetch "0" one_note = (Ok n, s1) /\ fetch "0" s1 = (Ok n, s2) /\
     notes (save "0" "v" n (save "0" "u" n s2).2).2 !! "0" = Some n4 /\
     favoritedBy n4 = {[ "v" ]} ∪ favoritedBy n /\ "u" ∉ favoritedBy n4).
Proof.
  apply (concurrent_reactions "0" "u" "v" one_note); [done|set_solver|set_solver|done].
Defined.
