(* ===== verification/Session.v ===== *)
(** * Session: the session middleware and its store

    [src/api/index.js], lines 32-43, installs [express-session] over a
    [connect-mongo] store.  This file has the options the call passes
    ([SessionOptions]), the store as the key-value map with expiry the
    middleware needs of it ([store_get], [store_set], [store_touch]),
    and the two halves of the middleware: [load], which finds the
    session of the request's cookie or creates one, and [finish], which
    persists the session when the response ends.  Session ids are drawn
    from a counter; the store and the middleware are libraries, and
    their definitions follow their documented behaviour. *)

From stdpp Require Import pretty.
From S2P Require Import Prelude JsValue.

(** ** Options *)

(** [store: new MongoStore({ url, autoReconnect })] *)
Record StoreOptions : Type := mkStoreOptions {
  url : jsval;
  autoReconnect : bool;
}.

(** [cookie: { maxAge }], in milliseconds. *)
Record CookieOptions : Type := mkCookieOptions {
  maxAge : Z;
}.

(** [session({ resave, saveUninitialized, secret, cookie, store })] *)
Record SessionOptions : Type := mkSessionOptions {
  resave : bool;
  saveUninitialized : bool;
  secret : jsval;
  cookie : CookieOptions;
  store : StoreOptions;
}.

(** ** The store *)

(** A stored session: its data and the time it expires, in
    milliseconds. *)
Record session_record : Type := mkSessionRecord {
  sess_data : jsval;
  sess_expires : Z;
}.

Abbreviation session_store := (gmap string session_record).

(** [store.get(sid)]: the data of a session that has not expired. *)
Definition store_get (now : Z) (sid : string) (st : session_store) : option jsval :=
  r ← st !! sid;
  if decide (now < sess_expires r)%Z then Some (sess_data r) else None.

(** [store.set(sid, session)] *)
Definition store_set (sid : string) (data : jsval) (expires : Z) (st : session_store)
    : session_store :=
  <[sid := mkSessionRecord data expires]> st.

(** [store.touch(sid, session)]: a new expiry for a stored session. *)
Definition store_touch (sid : string) (expires : Z) (st : session_store) : session_store :=
  alter (fun r => mkSessionRecord (sess_data r) expires) sid st.

(** ** The middleware *)

(** The sessions and the source of session ids. *)
Record session_state : Type := mkSessionState {
  sessions : session_store;
  next_sid : nat;
}.

Definition no_sessions : session_state := mkSessionState ∅ 0.

(** The [k]-th session id. *)
Definition sid_of (k : nat) : string := pretty k.

(** The session of a request as the middleware leaves it on [req]. *)
Record loaded : Type := mkLoaded {
  sid : string;
  data : jsval;
  fresh : bool;
}.

(** On the way in: the session the cookie names, if the store has it
    and it has not expired; a new empty session under a new id
    otherwise. *)
Definition load (now : Z) (request_cookie : option string) (ss : session_state)
    : loaded * session_state :=
  match request_cookie ≫= fun c => pair c <$> store_get now c (sessions ss) with
  | Some (c, d) => (mkLoaded c d false, ss)
  | None =>
      (mkLoaded (sid_of (next_sid ss)) (JObj ∅) true,
       mkSessionState (sessions ss) (S (next_sid ss)))
  end.

(** Whether the session is written back: a new session when
    [saveUninitialized] is set or it was modified, a loaded one when
    [resave] is set or it was modified. *)
Definition should_save (opts : SessionOptions) (l : loaded) (modified : bool) : bool :=
  if fresh l then saveUninitialized opts || modified else resave opts || modified.

(** Whether the response sets the cookie: for a new session that is
    saved, and for a loaded one that was modified. *)
Definition should_set_cookie (opts : SessionOptions) (l : loaded) (modified : bool) : bool :=
  if fresh l then saveUninitialized opts || modified else modified.

(** When the response ends: the session expires [maxAge] from now; it
    is written back, or else the stored one is touched. *)
Definition finish (opts : SessionOptions) (now : Z) (l : loaded) (d : jsval) (modified : bool)
    (ss : session_state) : session_state :=
  let expires := (now + maxAge (cookie opts))%Z in
  mkSessionState
    (if should_save opts l modified then store_set (sid l) d expires (sessions ss)
     else store_touch (sid l) expires (sessions ss))
    (next_sid ss).

(** The ids of the stored sessions have been drawn from the counter. *)
Definition wf (ss : session_state) : Prop :=
  forall c, is_Some (sessions ss !! c) -> exists k, k < next_sid ss /\ c = sid_of k.

(** ** The store *)

Section store.
Implicit Types (st : session_store) (c : string) (d : jsval) (now expires : Z).

Lemma store_get_Some now c st d :
  store_get now c st = Some d <->
  exists r, st !! c = Some r /\ (now < sess_expires r)%Z /\ sess_data r = d.
Proof.
  unfold store_get. destruct (st !! c) as [r|]; simpl; [|naive_solver].
  case_decide; naive_solver.
Qed.

(** A session that was set is read back until it expires, and not
    after. *)
Lemma store_get_set now c d expires st :
  store_get now c (store_set c d expires st) = if decide (now < expires)%Z then Some d else None.
Proof. unfold store_get, store_set. by rewrite lookup_insert_eq. Qed.

Lemma store_get_set_ne now c c' d expires st :
  c <> c' -> store_get now c' (store_set c d expires st) = store_get now c' st.
Proof. intros Hne. unfold store_get, store_set. by rewrite lookup_insert_ne. Qed.

(** Touching changes the expiry and nothing else. *)
Lemma store_get_touch now c expires st :
  store_get now c (store_touch c expires st) =
    r ← st !! c; if decide (now < expires)%Z then Some (sess_data r) else None.
Proof. unfold store_get, store_touch. rewrite lookup_alter_eq. by destruct (st !! c). Qed.

Lemma store_get_touch_ne now c c' expires st :
  c <> c' -> store_get now c' (store_touch c expires st) = store_get now c' st.
Proof. intros Hne. unfold store_get, store_touch. by rewrite lookup_alter_ne. Qed.

End store.

(** ** The middleware *)

Section middleware.
Context (opts : SessionOptions).
Implicit Types (ss : session_state) (l : loaded) (c : string) (d : jsval) (now : Z)
  (modified : bool).

Lemma sid_of_inj : Inj (=) (=) sid_of.
Proof. unfold sid_of. apply _. Qed.

Lemma wf_no_sessions : wf no_sessions.
Proof. intros c [r Hr]. simpl in Hr. by rewrite lookup_empty in Hr. Qed.

(** The cases of [load]. *)
Lemma load_known now c d ss :
  store_get now c (sessions ss) = Some d -> load now (Some c) ss = (mkLoaded c d false, ss).
Proof. unfold load. simpl. by intros ->. Qed.

Lemma load_fresh now request_cookie ss :
  (forall c, request_cookie = Some c -> store_get now c (sessions ss) = None) ->
  load now request_cookie ss =
    (mkLoaded (sid_of (next_sid ss)) (JObj ∅) true, mkSessionState (sessions ss) (S (next_sid ss))).
Proof.
  unfold load. intros Hnone. destruct request_cookie as [c|]; simpl; [|done].
  by rewrite (Hnone c eq_refl).
Qed.

(** [load] does not change the store, and what it leaves on the request
    is an object when the stored sessions are. *)
Lemma load_sessions now request_cookie ss l ss' :
  load now request_cookie ss = (l, ss') -> sessions ss' = sessions ss.
Proof. unfold load. case_match; [case_match|]; by intros [= <- <-]. Qed.

(** The id of a new session is not in the store. *)
Lemma load_fresh_sid now request_cookie ss l ss' :
  wf ss -> load now request_cookie ss = (l, ss') -> fresh l = true ->
  sessions ss !! sid l = None /\ data l = JObj ∅.
Proof.
  intros Hwf. unfold load. case_match; [case_match; by intros [= <- <-]|].
  intros [= <- <-] _. simpl. split; [|done].
  apply eq_None_not_Some. intros (k & Hk & Heq%sid_of_inj)%Hwf. lia.
Qed.

(** A loaded session is one of the store, not expired. *)
Lemma load_loaded now request_cookie ss l ss' :
  load now request_cookie ss = (l, ss') -> fresh l = false ->
  request_cookie = Some (sid l) /\ store_get now (sid l) (sessions ss) = Some (data l) /\ ss' = ss.
Proof.
  unfold load. destruct request_cookie as [c|]; simpl; [|by intros [= <- <-]].
  destruct (store_get now c (sessions ss)) as [d|] eqn:Hd; simpl; by intros [= <- <-].
Qed.

Lemma wf_load now request_cookie ss l ss' :
  wf ss -> load now request_cookie ss = (l, ss') ->
  wf ss' /\ (fresh l = true -> exists k, k < next_sid ss' /\ sid l = sid_of k).
Proof.
  intros Hwf. unfold load. case_match; [case_match; by intros [= <- <-]|].
  intros [= <- <-]. split.
  - intros c Hc. destruct (Hwf c Hc) as (k & Hk & ->). exists k. simpl. split; [lia|done].
  - intros _. exists (next_sid ss). simpl. split; [lia|done].
Qed.

Lemma wf_finish now l d modified ss :
  wf ss -> (exists k, k < next_sid ss /\ sid l = sid_of k) -> wf (finish opts now l d modified ss).
Proof.
  intros Hwf Hsid c. unfold finish, store_set, store_touch. simpl.
  destruct (should_save opts l modified).
  - destruct (decide (c = sid l)) as [->|Hne]; [done|]. rewrite lookup_insert_ne by done. apply Hwf.
  - destruct (decide (c = sid l)) as [->|Hne]; [done|]. rewrite lookup_alter_ne by done. apply Hwf.
Qed.

(** Finishing a request leaves the other sessions as they were. *)
Lemma finish_lookup_ne now l d modified ss c :
  c <> sid l -> sessions (finish opts now l d modified ss) !! c = sessions ss !! c.
Proof.
  intros Hne. unfold finish, store_set, store_touch. simpl.
  destruct (should_save opts l modified); [by rewrite lookup_insert_ne|by rewrite lookup_alter_ne].
Qed.

Lemma finish_other now now' l d modified ss c :
  c <> sid l ->
  store_get now' c (sessions (finish opts now l d modified ss)) = store_get now' c (sessions ss).
Proof. intros Hne. unfold store_get. by rewrite finish_lookup_ne. Qed.

(** Loading a session draws at most one id from the counter. *)
Lemma load_next_sid now request_cookie ss l ss' :
  load now request_cookie ss = (l, ss') -> next_sid ss <= next_sid ss'.
Proof. unfold load. case_match; [case_match|]; intros [= <- <-]; simpl; lia. Qed.

(** A saved session is read back with its data until [maxAge] has
    passed, and is gone after. *)
Lemma finish_saved now now' l d modified ss :
  should_save opts l modified = true ->
  store_get now' (sid l) (sessions (finish opts now l d modified ss)) =
    if decide (now' < now + maxAge (cookie opts))%Z then Some d else None.
Proof. intros Hsave. unfold finish. simpl. rewrite Hsave. apply store_get_set. Qed.

End middleware.
