(* ===== verification/Server.v ===== *)
(** * Server: the application of [src/api/index.js]

    The file builds an Express application, installs its middleware in
    order (lines 28-48), configures the Apollo server (lines 51-60),
    mounts it at [/api] (line 62), listens (lines 65-69) and sets the
    socket timeout (line 72).  Here: the values the file computes
    ([port], [session_options], [validationRules] through [QueryGuard]),
    the middleware as functions of the request, the continuation [next]
    and the state of the connection, the application [app] as the list
    of them in the order of the [app.use] calls, and [handle], what the
    application does with one request.  Express, helmet, cors and the
    Apollo server are libraries: their middleware follow their
    documented behaviour.  The authentication routes, the query
    resolvers and the resolvers of the fields of [Note] and [User] are
    not in [src/]; they are parameters. *)

From S2P Require Import Prelude JsValue Schema Store Context Resolvers Gateway QueryGuard Execute Session.

(** ** The environment and the constants *)

(** [process.env.NAME]: the variable, [undefined] when it is not set. *)
Definition env_var (env : gmap string string) (name : string) : jsval :=
  match env !! name with
  | Some v => JStr v
  | None => JUndefined
  end.

(** [const port = process.env.PORT || 4000;] *)
Definition port (env : gmap string string) : jsval := js_or (env_var env "PORT") (JNum 4000).

(** [const DB_HOST = process.env.DB_HOST;] *)
Definition DB_HOST (env : gmap string string) : jsval := env_var env "DB_HOST".

(** The argument of [session(...)], lines 33-42. *)
Definition session_options (env : gmap string string) : SessionOptions :=
  {| resave := true;
     saveUninitialized := true;
     secret := env_var env "SESSION_SECRET";
     cookie := {| maxAge := 1209600000 |};
     store := {| url := DB_HOST env; autoReconnect := true |} |}.

(** [server.applyMiddleware({ app, path: '/api' })] *)
Definition graphql_path : string := "/api".

(** [expressServer.setTimeout(5000)], in milliseconds. *)
Definition socket_timeout : Z := 5000.

(** The message [listen] logs: the port in it is a literal. *)
Definition listen_message (graphqlPath : string) : string :=
  "GraphQL Server running at http://localhost:4000" +:+ graphqlPath.

(** ** Requests and responses *)

Record Request : Type := mkRequest {
  method : string;
  path : string;
  request_cookie : option string;
  body : option executable;
  arrival : Z;
}.

(** The body of a response: a GraphQL envelope with errors and no data,
    one with the outcome of each root field, or what the other handlers
    send. *)
Inductive response_body : Type :=
| GraphQLErrors (errs : list validation_error)
| GraphQLData (fields : list (string * field_outcome))
| ContextError (e : js_error)
| BadRequest
| NoContent
| NotFoundPage
| AuthReply (v : jsval).

Record Response : Type := mkResponse {
  status : nat;
  headers : list (string * string);
  set_cookie : option string;
  response : response_body;
}.

(** What the handlers of one request share: the session store, the data
    store, [req.session] with a mark for its modification, and the
    headers set on [res] so far. *)
Record conn (St : Type) : Type := mkConn {
  cn_sessions : session_state;
  cn_db : St;
  cn_session : jsval;
  cn_modified : bool;
  cn_headers : list (string * string);
}.

Arguments mkConn {St}.
Arguments cn_sessions {St}.
Arguments cn_db {St}.
Arguments cn_session {St}.
Arguments cn_modified {St}.
Arguments cn_headers {St}.

(** A handler ends the request; a middleware may do so or call [next]. *)
Definition handler (St : Type) : Type := conn St -> Response * conn St.

Definition middleware (St : Type) : Type := Request -> handler St -> handler St.

(** What lasts from one request to the next. *)
Record server_state (St : Type) : Type := mkServerState {
  srv_sessions : session_state;
  srv_db : St;
}.

Arguments mkServerState {St}.
Arguments srv_sessions {St}.
Arguments srv_db {St}.

(** [res.send]: the response with the headers set so far. *)
Definition respond {St : Type} (code : nat) (b : response_body) : handler St :=
  fun c => (mkResponse code (cn_headers c) None b, c).

Definition set_headers {St : Type} (hs : list (string * string)) (c : conn St) : conn St :=
  mkConn (cn_sessions c) (cn_db c) (cn_session c) (cn_modified c) (cn_headers c ++ hs).

(** ** The middleware, in the order of the file *)

(** The headers [helmet()] sets. *)
Definition helmet_headers : list (string * string) :=
  [ ("X-DNS-Prefetch-Control", "off");
    ("X-Frame-Options", "SAMEORIGIN");
    ("Strict-Transport-Security", "max-age=15552000; includeSubDomains");
    ("X-Download-Options", "noopen");
    ("X-Content-Type-Options", "nosniff");
    ("X-XSS-Protection", "1; mode=block") ].

(** The headers of every response: those of [helmet] and of [cors]. *)
Definition all_headers : list (string * string) :=
  helmet_headers ++ [("Access-Control-Allow-Origin", "*")].

(** [app.use(helmet())] *)
Definition helmet {St : Type} : middleware St := fun req next c =>
  next (set_headers helmet_headers c).

(** [app.use(cors())]: any origin is allowed; a preflight request is
    answered here. *)
Definition cors {St : Type} : middleware St := fun req next c =>
  let c' := set_headers [("Access-Control-Allow-Origin", "*")] c in
  if String.eqb (method req) "OPTIONS" then respond 204 NoContent c' else next c'.

(** [app.use(session({ ... }))]: the session is loaded or created
    before the handlers that follow, and persisted when they are done. *)
Definition session {St : Type} (opts : SessionOptions) : middleware St := fun req next c =>
  let '(l, ss) := load (arrival req) (request_cookie req) (cn_sessions c) in
  let '(res, c') := next (mkConn ss (cn_db c) (data l) false (cn_headers c)) in
  let ss' := finish opts (arrival req) l (cn_session c') (cn_modified c') (cn_sessions c') in
  (mkResponse (status res) (headers res)
     (if should_set_cookie opts l (cn_modified c') then Some (sid l) else None)
     (response res),
   mkConn ss' (cn_db c') (cn_session c') (cn_modified c') (cn_headers c')).

(** [app.use(passport.initialize())] *)
Definition passport_initialize {St : Type} : middleware St := fun req next c => next c.

Section app.

(** The renderer, the models, the authentication routes and the query
    resolvers the application is linked with.  A route answers with a
    value and sets or clears the user of the session. *)
Context (marked : MarkedOptions -> string -> string).
Context (models : jsval).
Context {St : Type} `{!NoteModel.Ops St}.
Context (auth : Request -> jsval -> option (jsval * option jsval)).
Context (Query : list (string * resolver St)).
Context (Types : list (string * list (string * reader St))).

(** [req.session.user = u], or [delete req.session.user]. *)
Definition set_session_user (session : jsval) (u : option jsval) : jsval :=
  match session with
  | JObj o => JObj (match u with Some v => <["user" := v]> o | None => delete "user" o end)
  | _ => session
  end.

(** [app.use(authRoutes)] *)
Definition authRoutes : middleware St := fun req next c =>
  match auth req (cn_session c) with
  | Some (v, u) =>
      respond 200 (AuthReply v)
        (mkConn (cn_sessions c) (cn_db c) (set_session_user (cn_session c) u) true (cn_headers c))
  | None => next c
  end.

(** [resolvers]: the mutations of [Mutation.js] and the queries. *)
Definition resolvers (t : operation_type) : list (string * resolver St) :=
  match t with
  | OpQuery => Query
  | OpMutation => Mutation.exports marked
  end.

Definition resolver_of (t : operation_type) (field : string) : resolver St :=
  match assoc field (resolvers t) with
  | Some f => f
  | None => default_resolver field
  end.

(** One root field: its resolver at the root value [undefined], its
    result completed along the selection set at the type the schema
    declares, on the store the resolver left. *)
Definition run_field (t : operation_type) (ctx : jsval) (f : ftree) : St -> field_outcome * St :=
  fun s =>
    match f with
    | FNode name args kids =>
        match lookup_field typeDefs (root_type t) name with
        | Some fd =>
            let '(r, s') := resolver_of t name JUndefined (js_object args) ctx s in
            (complete_root Types s' ctx (fd_type fd) kids r, s')
        | None => (FieldPropagate (Error "unknown field"), s)
        end
    end.

(** The root fields in order, each on the store the one before left.
    The fields of a mutation run one after the other, and a field that
    fails the operation is the last to run; the fields of a query all
    run. *)
Fixpoint run_fields (t : operation_type) (ctx : jsval) (fs : list ftree)
    : St -> list (string * field_outcome) * St :=
  fun s =>
    match fs with
    | [] => ([], s)
    | FNode name args kids :: fs' =>
        let '(o, s') := run_field t ctx (FNode name args kids) s in
        match t, o with
        | OpMutation, FieldPropagate _ => ([(name, o)], s')
        | _, _ =>
            let '(os, s'') := run_fields t ctx fs' s' in
            ((name, o) :: os, s'')
        end
    end.

(** The Apollo server, lines 51-60, on the operation of a request: the
    context is built from the request, the operation is validated, and
    only an accepted operation is executed.  The result is the status
    and the body of the response, and the data store afterwards. *)
Definition graphql (req : Request) (session : jsval) : St -> nat * response_body * St :=
  fun db =>
    match body req with
    | None => (400, BadRequest, db)
    | Some doc =>
        match context models (request_with_session session) with
        | Thrown e => (500, ContextError e, db)
        | Ok ctx =>
            match guard doc with
            | inl errs => (200, GraphQLErrors errs, db)
            | inr fs =>
                let '(os, db') := run_fields (op_type doc) ctx fs db in
                (200, GraphQLData os, db')
            end
        end
    end.

(** [server.applyMiddleware({ app, path: '/api' })]: the requests to
    [/api] are the server's. *)
Definition apollo : middleware St := fun req next c =>
  if String.eqb (path req) graphql_path then
    let '(code, b, db') := graphql req (cn_session c) (cn_db c) in
    respond code b (mkConn (cn_sessions c) db' (cn_session c) (cn_modified c) (cn_headers c))
  else next c.

(** What Express does when no middleware has answered. *)
Definition not_found : handler St := respond 404 NotFoundPage.

(** The application: the middleware in the order of the [app.use]
    calls, the Apollo server last. *)
Definition app (env : gmap string string) : list (middleware St) :=
  [ helmet; cors; session (session_options env); passport_initialize; authRoutes; apollo ].

(** The handlers behind the session middleware. *)
Definition routes (req : Request) : handler St :=
  passport_initialize req (authRoutes req (apollo req not_found)).

(** One request through the application. *)
Definition handle (env : gmap string string) (req : Request)
    : server_state St -> Response * server_state St :=
  fun s =>
    let '(res, c) :=
      foldr (fun (m : middleware St) k => m req k) not_found (app env)
        (mkConn (srv_sessions s) (srv_db s) JUndefined false []) in
    (res, mkServerState (cn_sessions c) (cn_db c)).

(** The state after a sequence of requests, oldest first. *)
Definition handle_all (env : gmap string string) (reqs : list Request)
    : server_state St -> server_state St :=
  fun s => foldl (fun s req => (handle env req s).2) s reqs.

(** The socket timeout: a response that takes longer than
    [socket_timeout] is not sent; what the handlers did stays done. *)
Definition serve (env : gmap string string) (duration : Z) (req : Request)
    : server_state St -> option Response * server_state St :=
  fun s =>
    let '(res, s') := handle env req s in
    (if decide (socket_timeout < duration)%Z then None else Some res, s').

End app.

(** ** The constants *)

(** The cookie and the stored session last two weeks. *)
Lemma session_options_maxAge (env : gmap string string) :
  maxAge (cookie (session_options env)) = (14 * 24 * 60 * 60 * 1000)%Z.
Proof. reflexivity. Qed.

(** With the options of the file a session is always written back, and
    the cookie is set for a new session. *)
Lemma session_options_save (env : gmap string string) (l : loaded) (modified : bool) :
  should_save (session_options env) l modified = true.
Proof. unfold should_save. by destruct (fresh l). Qed.

Lemma session_options_set_cookie (env : gmap string string) (l : loaded) (modified : bool) :
  should_set_cookie (session_options env) l modified = fresh l || modified.
Proof. unfold should_set_cookie. by destruct (fresh l). Qed.

(** a session is read back as it was left.  With the options of
    [index.js], whatever a request leaves in its session, changed or
    not, a request that arrives with the cookie of that session within
    two weeks finds the same data, and finds the store as the first
    request left it. *)
Theorem session_roundtrip (env : gmap string string) (now now' : Z) (l : loaded) (d : jsval)
    (modified : bool) (ss : session_state) :
  (now' < now + 1209600000)%Z ->
  load now' (Some (sid l)) (finish (session_options env) now l d modified ss) =
    (mkLoaded (sid l) d false, finish (session_options env) now l d modified ss).
Proof.
  intros Hnow. apply load_known.
  rewrite (finish_saved _ _ _ _ _ _ _ (session_options_save env l modified)).
  by rewrite decide_True.
Qed.

(** After two weeks it is gone: the request gets a new, empty session. *)
Lemma session_expired (env : gmap string string) (now now' : Z) (l : loaded) (d : jsval)
    (modified : bool) (ss : session_state) :
  (now + 1209600000 <= now')%Z ->
  fresh (load now' (Some (sid l)) (finish (session_options env) now l d modified ss)).1 = true.
Proof.
  intros Hnow. rewrite load_fresh; [done|]. intros c [= <-].
  rewrite (finish_saved _ _ _ _ _ _ _ (session_options_save env l modified)).
  rewrite decide_False; [done|]. simpl. lia.
Qed.

(** The port is 4000 unless [PORT] is set to a non-empty string. *)
Lemma port_cases (env : gmap string string) :
  port env = match env !! "PORT" with
             | Some p => if decide (p = "") then JNum 4000 else JStr p
             | None => JNum 4000
             end.
Proof.
  unfold port, env_var, js_or. destruct (env !! "PORT") as [p|]; [|done]. simpl.
  case_decide as Hp; [by subst|]. by apply String.eqb_neq in Hp as ->.
Qed.

Section handle.
Context (marked : MarkedOptions -> string -> string).
Context (models : jsval).
Context {St : Type} `{!NoteModel.Ops St}.
Context (auth : Request -> jsval -> option (jsval * option jsval)).
Context (Query : list (string * resolver St)).
Context (Types : list (string * list (string * reader St))).
Context (env : gmap string string).
Implicit Types (req : Request) (s : server_state St) (c : conn St) (res : Response)
  (doc : executable) (fs : list ftree) (session : jsval) (db : St).

Local Abbreviation graphql := (graphql marked models Query Types).
Local Abbreviation routes := (routes marked models auth Query Types).
Local Abbreviation handle := (handle marked models auth Query Types env).
Local Abbreviation run_fields := (run_fields marked Query Types).
Local Abbreviation run_field := (run_field marked Query Types).

(** *** The Apollo server *)


Lemma graphql_accepted req o db doc fs :
  body req = Some doc -> guard doc = inr fs ->
  graphql req (JObj o) db =
    let '(os, db') := run_fields (op_type doc) (context_of models o) fs db in
    (200, GraphQLData os, db').
Proof.
  intros Hb Hg. unfold Server.graphql. by rewrite Hb, context_session_obj, Hg.
Qed.

(** The data store changes only by the execution of an accepted
    operation. *)
Lemma graphql_db req session db :
  (graphql req session db).2 = db \/
  exists doc fs ctx, body req = Some doc /\ guard doc = inr fs /\
    context models (request_with_session session) = Ok ctx /\
    (graphql req session db).2 = (run_fields (op_type doc) ctx fs db).2.
Proof.
  unfold Server.graphql. destruct (body req) as [doc|]; [|by left].
  destruct (context models _) as [ctx|e] eqn:Hctx; [|by left].
  destruct (guard doc) as [errs|fs] eqn:Hg; [by left|]. right. exists doc, fs, ctx.
  by destruct (run_fields _ _ _ _).
Qed.

(** With a session object the context is built: the response is not a
    context error. *)
Lemma graphql_no_context_error req o db (e : js_error) :
  (graphql req (JObj o) db).1.2 <> ContextError e.
Proof.
  unfold Server.graphql. destruct (body req) as [doc|]; [|done].
  rewrite context_session_obj. destruct (guard doc); [done|]. by destruct (run_fields _ _ _ _).
Qed.

(** *** The routes *)

Lemma routes_auth req c v u :
  auth req (cn_session c) = Some (v, u) ->
  routes req c =
    (mkResponse 200 (cn_headers c) None (AuthReply v),
     mkConn (cn_sessions c) (cn_db c) (set_session_user (cn_session c) u) true (cn_headers c)).
Proof. intros Ha. unfold Server.routes, passport_initialize, authRoutes. by rewrite Ha. Qed.

Lemma routes_graphql req c :
  auth req (cn_session c) = None -> path req = graphql_path ->
  routes req c =
    let '(code, b, db') := graphql req (cn_session c) (cn_db c) in
    (mkResponse code (cn_headers c) None b,
     mkConn (cn_sessions c) db' (cn_session c) (cn_modified c) (cn_headers c)).
Proof.
  intros Ha Hp. unfold Server.routes, passport_initialize, authRoutes, apollo.
  rewrite Ha, Hp. simpl. by destruct (graphql _ _ _) as [[code b] db'].
Qed.

Lemma routes_not_found req c :
  auth req (cn_session c) = None -> path req <> graphql_path ->
  routes req c = (mkResponse 404 (cn_headers c) None NotFoundPage, c).
Proof.
  intros Ha Hp%String.eqb_neq. unfold Server.routes, passport_initialize, authRoutes, apollo.
  by rewrite Ha, Hp.
Qed.

(** What the routes can do: answer as authentication routes, setting or
    clearing the session's user; answer as the Apollo server, which may
    change the data store; or answer that there is no such page. *)
Inductive routed req c : Response -> conn St -> Prop :=
| routed_auth v u :
    auth req (cn_session c) = Some (v, u) ->
    routed req c (mkResponse 200 (cn_headers c) None (AuthReply v))
      (mkConn (cn_sessions c) (cn_db c) (set_session_user (cn_session c) u) true (cn_headers c))
| routed_graphql code b db' :
    auth req (cn_session c) = None -> path req = graphql_path ->
    graphql req (cn_session c) (cn_db c) = (code, b, db') ->
    routed req c (mkResponse code (cn_headers c) None b)
      (mkConn (cn_sessions c) db' (cn_session c) (cn_modified c) (cn_headers c))
| routed_not_found :
    auth req (cn_session c) = None -> path req <> graphql_path ->
    routed req c (mkResponse 404 (cn_headers c) None NotFoundPage) c.

Lemma routes_routed req c : routed req c (routes req c).1 (routes req c).2.
Proof.
  destruct (auth req (cn_session c)) as [[v u]|] eqn:Ha.
  - rewrite (routes_auth req c v u Ha). by constructor.
  - destruct (decide (path req = graphql_path)) as [Hp|Hp].
    + rewrite (routes_graphql req c Ha Hp).
      destruct (graphql _ _ _) as [[code b] db'] eqn:Hg. by constructor.
    + rewrite (routes_not_found req c Ha Hp). by constructor.
Qed.

(** *** One request *)

(** A preflight request is answered by [cors]: no session is loaded or
    created, and no store is touched. *)
Lemma handle_preflight req s :
  method req = "OPTIONS" ->
  handle req s = (mkResponse 204 all_headers None NoContent, s).
Proof. intros Hm. unfold Server.handle. simpl. unfold cors. rewrite Hm. simpl. by destruct s. Qed.

(** The connection the routes are entered with. *)
Definition routed_conn req s : conn St :=
  let '(l, ss) := load (arrival req) (request_cookie req) (srv_sessions s) in
  mkConn ss (srv_db s) (data l) false all_headers.

(** Any other request passes the session middleware: its session is
    loaded or created, the routes run, and the session is persisted. *)
Lemma handle_routed req s :
  method req <> "OPTIONS" ->
  handle req s =
    let l := (load (arrival req) (request_cookie req) (srv_sessions s)).1 in
    let '(res, c') := routes req (routed_conn req s) in
    (mkResponse (status res) (headers res)
       (if should_set_cookie (session_options env) l (cn_modified c') then Some (sid l) else None)
       (response res),
     mkServerState
       (finish (session_options env) (arrival req) l (cn_session c') (cn_modified c')
          (cn_sessions c'))
       (cn_db c')).
Proof.
  intros Hm%String.eqb_neq. unfold Server.handle, routed_conn. simpl. unfold helmet, cors.
  rewrite Hm. unfold session. simpl. destruct (load _ _ _) as [l ss].
  change (passport_initialize req _) with (routes req).
  by destruct (routes req _) as [res c'].
Qed.

(** The cases of a request. *)
Lemma handle_cases req s :
  (method req = "OPTIONS" /\ handle req s = (mkResponse 204 all_headers None NoContent, s)) \/
  (method req <> "OPTIONS" /\
   exists res c',
     routed req (routed_conn req s) res c' /\
     let l := (load (arrival req) (request_cookie req) (srv_sessions s)).1 in
     handle req s =
       (mkResponse (status res) (headers res)
          (if should_set_cookie (session_options env) l (cn_modified c') then Some (sid l)
           else None)
          (response res),
        mkServerState
          (finish (session_options env) (arrival req) l (cn_session c') (cn_modified c')
             (cn_sessions c'))
          (cn_db c'))).
Proof.
  destruct (decide (method req = "OPTIONS")) as [Hm|Hm]; [left; eauto using handle_preflight|].
  right. split; [done|]. rewrite (handle_routed req s Hm).
  pose proof (routes_routed req (routed_conn req s)) as Hr.
  destruct (routes req _) as [res c']. eauto.
Qed.

Lemma routed_conn_db req s : cn_db (routed_conn req s) = srv_db s.
Proof. unfold routed_conn. by destruct (load _ _ _). Qed.

Lemma routed_conn_headers req s : cn_headers (routed_conn req s) = all_headers.
Proof. unfold routed_conn. by destruct (load _ _ _). Qed.

(** every response carries the headers of [helmet] and of [cors],
    whoever answers. *)
Theorem handle_headers req s : headers (handle req s).1 = all_headers.
Proof.
  destruct (handle_cases req s) as [[_ ->]|(_ & res & c' & Hr & ->)]; [done|].
  simpl. destruct Hr; apply routed_conn_headers.
Qed.


(** C37: the data store changes only when the Apollo server executes an
    operation the guard has accepted. *)
Theorem store_changes_by_accepted req s :
  srv_db (handle req s).2 <> srv_db s ->
  path req = graphql_path /\ exists doc fs, body req = Some doc /\ guard doc = inr fs.
Proof.
  destruct (handle_cases req s) as [[_ ->]|(_ & res & c' & Hr & ->)]; [done|].
  simpl. destruct Hr as [| code b db' _ Hp Hq|]; simpl; rewrite ?routed_conn_db; try done.
  intros Hne. split; [done|].
  destruct (graphql_db req (cn_session (routed_conn req s)) (cn_db (routed_conn req s)))
    as [Heq|(doc & fs & ctx & Hb & Hg & _)]; [|by eauto].
  rewrite Hq, routed_conn_db in Heq. done.
Qed.

End handle.

(** ** Invariants of the server *)

(** The stored sessions are objects, under ids drawn from the counter. *)
Definition sessions_ok (ss : session_state) : Prop :=
  Session.wf ss /\ map_Forall (fun _ r => is_Some (as_object (sess_data r))) (sessions ss).

Section invariants.
Context (marked : MarkedOptions -> string -> string).
Context (models : jsval).
Context {St : Type} `{!NoteModel.Ops St} `{!NoteModel.Laws St}.
Context (auth : Request -> jsval -> option (jsval * option jsval)).
Context (Query : list (string * resolver St)).
Context (Types : list (string * list (string * reader St))).
Context (env : gmap string string).
Implicit Types (req : Request) (s : server_state St) (c : conn St) (res : Response)
  (doc : executable) (fs : list ftree) (session : jsval) (db : St) (t : operation_type).

Local Abbreviation graphql := (graphql marked models Query Types).
Local Abbreviation routes := (routes marked models auth Query Types).
Local Abbreviation handle := (handle marked models auth Query Types env).
Local Abbreviation handle_all := (handle_all marked models auth Query Types env).
Local Abbreviation run_fields := (run_fields marked Query Types).
Local Abbreviation run_field := (run_field marked Query Types).
Local Abbreviation resolver_of := (resolver_of marked Query).
Local Abbreviation system_inv := (Mutation.system_inv marked).

(** The queries are not in [src/]: they are assumed to keep the
    invariant of the data store. *)
Context (Query_inv : forall name f parent args ctx db r db',
  (name, f) ∈ Query -> system_inv db -> f parent args ctx db = (r, db') -> system_inv db').

Lemma resolver_of_system_inv t (field : string) parent args ctx db r db' :
  system_inv db -> resolver_of t field parent args ctx db = (r, db') -> system_inv db'.
Proof.
  intros Hinv. unfold Server.resolver_of.
  destruct (assoc field (resolvers marked Query t)) as [f|] eqn:Hf.
  - apply assoc_Some in Hf. destruct t; simpl in Hf.
    + by apply (Query_inv field).
    + by apply (Mutation.system_inv_run marked field).
  - unfold default_resolver. destruct parent; by intros [= <- <-].
Qed.

Lemma run_field_system_inv t ctx (f : ftree) db :
  system_inv db -> system_inv (run_field t ctx f db).2.
Proof.
  intros Hinv. destruct f as [name args kids]. unfold Server.run_field.
  destruct (lookup_field typeDefs (root_type t) name) as [fd|]; [|done].
  destruct (resolver_of t name _ _ _ db) as [r db'] eqn:Hrun.
  by eapply resolver_of_system_inv.
Qed.

Lemma run_fields_cons t ctx (name : string) args kids fs db :
  run_fields t ctx (FNode name args kids :: fs) db =
    let '(o, db') := run_field t ctx (FNode name args kids) db in
    match t, o with
    | OpMutation, FieldPropagate _ => ([(name, o)], db')
    | _, _ => let '(os, db'') := run_fields t ctx fs db' in ((name, o) :: os, db'')
    end.
Proof. reflexivity. Qed.

Lemma run_fields_system_inv t ctx fs db :
  system_inv db -> system_inv (run_fields t ctx fs db).2.
Proof.
  revert db. induction fs as [|[name args kids] fs IH]; intros db Hinv; [done|].
  rewrite run_fields_cons.
  pose proof (run_field_system_inv t ctx (FNode name args kids) db Hinv) as Hf.
  destruct (run_field t ctx _ db) as [o db'].
  specialize (IH db' Hf). destruct (run_fields t ctx fs db') as [os db''].
  by destruct t, o.
Qed.

Lemma graphql_system_inv req session db :
  system_inv db -> system_inv (graphql req session db).2.
Proof.
  intros Hinv.
  destruct (graphql_db marked models Query Types req session db)
    as [->|(doc & fs & ctx & _ & _ & _ & ->)]; [done|].
  by apply run_fields_system_inv.
Qed.

(** Every request keeps the invariant of the data store. *)
Lemma handle_system_inv req s : system_inv (srv_db s) -> system_inv (srv_db (handle req s).2).
Proof.
  intros Hinv.
  destruct (handle_cases marked models auth Query Types env req s)
    as [[_ ->]|(_ & res & c' & Hr & ->)]; [done|].
  simpl. destruct Hr as [| code b db' _ _ Hq|]; simpl; rewrite ?routed_conn_db; try done.
  pose proof (graphql_system_inv req (cn_session (routed_conn req s)) (srv_db s) Hinv) as Hg.
  by rewrite <- (routed_conn_db req s), Hq in Hg.
Qed.

(** *** Sessions *)

Lemma set_session_user_object session (u : option jsval) :
  is_Some (as_object session) -> is_Some (as_object (set_session_user session u)).
Proof. destruct session; simpl; by eauto. Qed.

(** The session the routes are entered with is an object. *)
Lemma routed_conn_session req s :
  sessions_ok (srv_sessions s) -> is_Some (as_object (cn_session (routed_conn req s))).
Proof.
  intros [_ Hobj]. unfold routed_conn.
  destruct (load _ _ _) as [l ss] eqn:Hl. simpl.
  destruct (fresh l) eqn:Hf.
  - unfold load in Hl. by repeat case_match; simplify_eq/=.
  - apply load_loaded in Hl as (_ & (r & Hr & _ & <-)%store_get_Some & _); [|done].
    by apply (Hobj _ _ Hr).
Qed.

Lemma routed_conn_sessions req s :
  cn_sessions (routed_conn req s) = (load (arrival req) (request_cookie req) (srv_sessions s)).2.
Proof. unfold routed_conn. by destruct (load _ _ _). Qed.

Lemma routed_session req c res c' :
  routed marked models auth Query Types req c res c' ->
  is_Some (as_object (cn_session c)) ->
  cn_sessions c' = cn_sessions c /\ is_Some (as_object (cn_session c')).
Proof. destruct 1; simpl; auto using set_session_user_object. Qed.

Lemma sessions_ok_finish now (l : loaded) (d : jsval) (modified : bool) ss :
  sessions_ok ss -> (exists k, k < next_sid ss /\ sid l = sid_of k) -> is_Some (as_object d) ->
  sessions_ok (finish (session_options env) now l d modified ss).
Proof.
  intros [Hwf Hobj] Hsid Hd. split; [by apply wf_finish|].
  unfold finish. rewrite session_options_save. simpl. by apply map_Forall_insert_2.
Qed.

Lemma sessions_ok_load now (request_cookie : option string) ss :
  sessions_ok ss ->
  let '(l, ss') := load now request_cookie ss in
  sessions_ok ss' /\ exists k, k < next_sid ss' /\ sid l = sid_of k.
Proof.
  intros [Hwf Hobj]. destruct (load now request_cookie ss) as [l ss'] eqn:Hl.
  destruct (wf_load now request_cookie ss l ss' Hwf Hl) as [Hwf' Hfresh].
  split; [split; [done|by rewrite (load_sessions _ _ _ _ _ Hl)]|].
  destruct (fresh l) eqn:Hf; [by auto|].
  apply load_loaded in Hl as (_ & (r & Hr & _)%store_get_Some & ->); [|done]. apply Hwf. eauto.
Qed.

(** Every request keeps the sessions well formed. *)
Lemma handle_sessions_ok req s :
  sessions_ok (srv_sessions s) -> sessions_ok (srv_sessions (handle req s).2).
Proof.
  intros Hok.
  destruct (handle_cases marked models auth Query Types env req s)
    as [[_ ->]|(_ & res & c' & Hr & ->)]; [done|].
  simpl. apply routed_session in Hr as [Hss Hobj]; [|by apply routed_conn_session].
  pose proof (sessions_ok_load (arrival req) (request_cookie req) _ Hok) as Hload.
  rewrite Hss, routed_conn_sessions. destruct (load _ _ _) as [l ss']. simpl.
  destruct Hload. by apply sessions_ok_finish.
Qed.

(** The invariant of the server. *)
Definition server_inv s : Prop := system_inv (srv_db s) /\ sessions_ok (srv_sessions s).

Lemma handle_server_inv req s : server_inv s -> server_inv (handle req s).2.
Proof. intros [? ?]. split; [by apply handle_system_inv|by apply handle_sessions_ok]. Qed.

(** C6: whatever requests the server has handled, in whatever order and
    from whatever clients: every note is stored under its id with its
    [htmlContent] the rendering of its [content], and every stored
    session is an object under an id the server has issued. *)
Theorem handle_all_server_inv (reqs : list Request) s :
  server_inv s -> server_inv (handle_all reqs s).
Proof.
  revert s. induction reqs as [|req reqs IH]; intros s Hinv; [done|].
  apply IH. by apply handle_server_inv.
Qed.

(** C38: the session middleware runs before the Apollo server, so that
    the context function finds [req.session]: no request is answered
    with a failure to build the context. *)
Theorem handle_no_context_error req s (e : js_error) :
  sessions_ok (srv_sessions s) -> response (handle req s).1 <> ContextError e.
Proof.
  intros Hok.
  destruct (handle_cases marked models auth Query Types env req s)
    as [[_ ->]|(_ & res & c' & Hr & ->)]; [done|].
  simpl. destruct Hr as [| code b db' _ _ Hq|]; simpl; try done.
  destruct (routed_conn_session req s Hok) as [o Ho].
  destruct (cn_session (routed_conn req s)); simplify_eq/=.
  pose proof (graphql_no_context_error marked models Query Types req o (cn_db (routed_conn req s)) e) as Hne.
  by rewrite Hq in Hne.
Qed.

End invariants.

(** ** Sessions and mutations, end to end *)

Section scenarios.
Context (marked : MarkedOptions -> string -> string).
Context (models : jsval).
Context {St : Type} `{!NoteModel.Ops St} `{!NoteModel.Laws St}.
Context (auth : Request -> jsval -> option (jsval * option jsval)).
Context (Query : list (string * resolver St)).
Context (Types : list (string * list (string * reader St))).
Context (env : gmap string string).
Implicit Types (req : Request) (s : server_state St) (c : conn St) (res : Response)
  (doc : executable) (fs : list ftree) (session : jsval) (db : St) (o : gmap string jsval).

Local Abbreviation graphql := (graphql marked models Query Types).
Local Abbreviation handle := (handle marked models auth Query Types env).
Local Abbreviation run_fields := (run_fields marked Query Types).
Local Abbreviation run_field := (run_field marked Query Types).
Local Abbreviation render := (Mutation.render marked).

(** Two weeks, in milliseconds. *)
Definition two_weeks : Z := 14 * 24 * 60 * 60 * 1000.

(** The session a request finds: the one its cookie names when the
    store has it and it has not expired, a new empty one otherwise. *)
Lemma routed_conn_known req s (sid : string) session :
  request_cookie req = Some sid ->
  store_get (arrival req) sid (sessions (srv_sessions s)) = Some session ->
  routed_conn req s = mkConn (srv_sessions s) (srv_db s) session false all_headers /\
  (load (arrival req) (request_cookie req) (srv_sessions s)).1 = mkLoaded sid session false.
Proof. intros Hc Hget. unfold routed_conn. by rewrite Hc, (load_known _ _ _ _ Hget). Qed.

Lemma routed_conn_fresh req s :
  (forall sid, request_cookie req = Some sid ->
     store_get (arrival req) sid (sessions (srv_sessions s)) = None) ->
  routed_conn req s =
    mkConn (mkSessionState (sessions (srv_sessions s)) (S (next_sid (srv_sessions s))))
      (srv_db s) (JObj ∅) false all_headers /\
  (load (arrival req) (request_cookie req) (srv_sessions s)).1
    = mkLoaded (sid_of (next_sid (srv_sessions s))) (JObj ∅) true.
Proof. intros Hnone. unfold routed_conn. by rewrite (load_fresh _ _ _ Hnone). Qed.

(** A request without a session that an authentication route answers:
    a session is created with the user the route sets, stored for two
    weeks, and its id is sent as the cookie. *)
Lemma handle_login req s (v : jsval) (u : option jsval) :
  method req <> "OPTIONS" -> request_cookie req = None ->
  auth req (JObj ∅) = Some (v, u) ->
  handle req s =
    (mkResponse 200 all_headers (Some (sid_of (next_sid (srv_sessions s)))) (AuthReply v),
     mkServerState
       (mkSessionState
          (store_set (sid_of (next_sid (srv_sessions s))) (set_session_user (JObj ∅) u)
             (arrival req + two_weeks) (sessions (srv_sessions s)))
          (S (next_sid (srv_sessions s))))
       (srv_db s)).
Proof.
  intros Hm Hc Ha. rewrite (handle_routed marked models auth Query Types env req s Hm).
  destruct (routed_conn_fresh req s) as [-> ->]; [by rewrite Hc|].
  by rewrite (routes_auth marked models auth Query Types req (mkConn _ _ (JObj ∅) _ _) v u Ha).
Qed.

(** A request to the Apollo server in a session [o]. *)
Lemma handle_graphql req s o :
  method req <> "OPTIONS" -> path req = graphql_path ->
  cn_session (routed_conn req s) = JObj o -> auth req (JObj o) = None ->
  response (handle req s).1 = (graphql req (JObj o) (srv_db s)).1.2 /\
  srv_db (handle req s).2 = (graphql req (JObj o) (srv_db s)).2.
Proof.
  intros Hm Hp Ho Ha. rewrite (handle_routed marked models auth Query Types env req s Hm).
  rewrite (routes_graphql marked models auth Query Types req _); [|by rewrite Ho|done].
  rewrite Ho, routed_conn_db. by destruct (graphql _ _ _) as [[code b] db'].
Qed.

(** C12: the session of a login lasts two weeks.  After a request that
    logged the user [u] in, a request that carries the cookie finds the
    session with that user if it arrives within two weeks of the login,
    and an empty session if it arrives later. *)
Theorem session_lasts_two_weeks req1 req2 s (v u : jsval) (sid : string) :
  method req1 <> "OPTIONS" -> request_cookie req1 = None ->
  auth req1 (JObj ∅) = Some (v, Some u) ->
  set_cookie (handle req1 s).1 = Some sid -> request_cookie req2 = Some sid ->
  cn_session (routed_conn req2 (handle req1 s).2) =
    if decide (arrival req2 < arrival req1 + two_weeks)%Z then JObj {[ "user" := u ]} else JObj ∅.
Proof.
  intros Hm Hc Ha. rewrite (handle_login req1 s v (Some u) Hm Hc Ha). simpl.
  intros [= <-] Hc2. set (s1 := mkServerState _ _).
  assert (store_get (arrival req2) (sid_of (next_sid (srv_sessions s))) (sessions (srv_sessions s1))
          = if decide (arrival req2 < arrival req1 + two_weeks)%Z
            then Some (JObj {[ "user" := u ]}) else None) as Hget by apply store_get_set.
  case_decide.
  - by destruct (routed_conn_known req2 s1 _ _ Hc2 Hget) as [-> _].
  - destruct (routed_conn_fresh req2 s1) as [-> _]; [|done].
    intros sid' Hsid'. rewrite Hc2 in Hsid'. by simplify_eq.
Qed.

(** One root field of a mutation: the resolver the gateway finds for it,
    and its result completed along the selection set. *)
Lemma run_field_mutation o (name : string) (fd : FieldDefinition) args kids db :
  lookup_field typeDefs "Mutation" name = Some fd ->
  run_field OpMutation (context_of models o) (FNode name args kids) db =
    let '(r, db') := resolver_for marked name JUndefined (js_object args) (context_of models o) db in
    (complete_root Types db' (context_of models o) (fd_type fd) kids r, db').
Proof. intros Hfd. unfold Server.run_field. simpl. by rewrite Hfd. Qed.

(** [newNote] in a session without a user. *)
Lemma run_field_newNote_anonymous o args kids db :
  truthy (session_user (JObj o)) = false ->
  run_field OpMutation (context_of models o) (FNode "newNote" args kids) db = (FieldNull [], db).
Proof.
  intros Hanon. rewrite (run_field_mutation o "newNote" _ args kids db eq_refl).
  by rewrite (execute_newNote_anonymous marked models o _ _ Hanon).
Qed.

(** An operation with a single root field. *)
Lemma run_fields_single (t : operation_type) (ctx : jsval) (name : string) args kids db :
  run_fields t ctx [FNode name args kids] db =
    let '(out, db') := run_field t ctx (FNode name args kids) db in ([(name, out)], db').
Proof.
  rewrite run_fields_cons. destruct (run_field t ctx _ db) as [out db']. by destruct t, out.
Qed.

(** C14: [newNote] without a login.  A request without a usable session
    cookie that asks for [newNote] is answered with [null] for the
    field, and no note is stored. *)
Theorem newNote_without_login req s doc args kids :
  method req <> "OPTIONS" -> path req = graphql_path -> request_cookie req = None ->
  auth req (JObj ∅) = None ->
  body req = Some doc -> op_type doc = OpMutation -> guard doc = inr [FNode "newNote" args kids] ->
  response (handle req s).1 = GraphQLData [("newNote", FieldNull [])] /\
  srv_db (handle req s).2 = srv_db s.
Proof.
  intros Hm Hp Hc Ha Hb Hop Hg.
  destruct (routed_conn_fresh req s) as [Hconn _]; [by rewrite Hc|].
  destruct (handle_graphql req s ∅ Hm Hp) as [-> ->]; [by rewrite Hconn|done|].
  rewrite (graphql_accepted marked models Query Types req ∅ _ doc _ Hb Hg), Hop, run_fields_single.
  by rewrite run_field_newNote_anonymous.
Qed.

(** C13: [newNote] after a login.  A request in the session of a user
    with the string id [uid] that asks for [newNote] with a string as
    content stores a new note with that author and the rendering of the
    content, and answers with it. *)
Theorem newNote_in_session req s o (user : jsval) (uid content : string) doc args kids :
  NoteModel.inv (srv_db s) ->
  method req <> "OPTIONS" -> path req = graphql_path ->
  cn_session (routed_conn req s) = JObj o -> auth req (JObj o) = None ->
  o !! "user" = Some user -> truthy user = true -> get_prop user "id" = Ok (JStr uid) ->
  body req = Some doc -> op_type doc = OpMutation -> guard doc = inr [FNode "newNote" args kids] ->
  get_prop (js_object args) "content" = Ok (JStr content) ->
  exists i t, NoteModel.abs (srv_db s) !! i = None /\
    let n := new_note i content (render content) uid t in
    let db' := srv_db (handle req s).2 in
    response (handle req s).1 =
      GraphQLData [("newNote", complete_root Types db' (context_of models o) (NamedType "Note") kids
                                 (Ok (note_to_js n)))] /\
    NoteModel.abs db' = <[i := n]> (NoteModel.abs (srv_db s)).
Proof.
  intros Hinv Hm Hp Ho Ha Hu Ht Hid Hb Hop Hg Hc.
  destruct (handle_graphql req s o Hm Hp Ho Ha) as [-> ->].
  rewrite (graphql_accepted marked models Query Types req o _ doc _ Hb Hg), Hop, run_fields_single.
  rewrite (run_field_mutation o "newNote" _ args kids (srv_db s) eq_refl).
  destruct (resolver_for marked "newNote" _ _ _ (srv_db s)) as [r0 db'] eqn:Hrun.
  assert (session_user (JObj o) = user) as Hsu by (simpl; by rewrite Hu).
  pose proof (newNote_resolver_step marked models o (js_object args) (JStr uid) content (srv_db s)
                r0 db' Hinv) as Hstep.
  rewrite Hsu in Hstep. specialize (Hstep Ht Hid Hc Hrun).
  apply (NoteSpecFacts.step_insert_inv _ _ _ _ content (render content) uid) in Hstep
    as (i & t & Hi & -> & Hdb); [|unfold NoteSpec.insert_input; by rewrite Hc].
  by exists i, t.
Qed.

(** The socket timeout does not undo anything.  The response is
    withheld exactly when it took longer than five seconds; the state
    of the server is that of the request handled. *)
Lemma serve_timeout (duration : Z) req s :
  (serve marked models auth Query Types env duration req s).2 = (handle req s).2 /\
  ((serve marked models auth Query Types env duration req s).1 = None <-> (5000 < duration)%Z).
Proof.
  unfold serve. destruct (handle req s) as [res s']. simpl. split; [done|].
  unfold socket_timeout. case_decide; naive_solver.
Qed.

End scenarios.

(** ** The theorems at concrete requests *)

Module ServerSamples.
Import Samples MemStore GuardSamples.

(** Authentication routes with one route, [/login], that logs [u1] in. *)
Definition login_auth : Request -> jsval -> option (jsval * option jsval) := fun req _ =>
  if String.eqb (path req) "/login" then Some (JStr "ok", Some (js_object [("id", JStr "u1")]))
  else None.

Definition env0 : gmap string string := ∅.

(** The server before its first request. *)
Definition started : server_state store := mkServerState no_sessions MemStore.empty.

(** The resolver of [Note.author]: the user whose id the note holds. *)
Definition sample_types : list (string * list (string * reader store)) :=
  [("Note", [("author", fun parent _ _ _ =>
                let? a := get_prop parent "author" in
                Ok (js_object [("id", a); ("name", JStr "User One")]))])].

Definition sample_handle : Request -> server_state store -> Response * server_state store :=
  handle sample_marked JNull login_auth [] sample_types env0.

(** A login at time 1000; [newNote] without a cookie; [newNote] and the
    operation of the specification with the cookie of the login. *)
Definition login_request : Request := mkRequest "POST" "/login" None None 1000.

Definition anonymous_request : Request := mkRequest "POST" "/api" None (Some new_note_op) 1500.

Definition create_request : Request := mkRequest "POST" "/api" (Some "0") (Some new_note_op) 2000.

Definition fan_out_request : Request := mkRequest "POST" "/api" (Some "0") (Some fan_out) 3000.

Definition logged_in : server_state store := (sample_handle login_request started).2.

End ServerSamples.

Import Samples MemStore MemStoreFacts GuardSamples ServerSamples.

Lemma no_Query_inv (name : string) (f : resolver store) parent args ctx db r db' :
  (name, f) ∈ ([] : list (string * resolver store)) -> Mutation.system_inv sample_marked db -> f parent args ctx db = (r, db') ->
  Mutation.system_inv sample_marked db'.
Proof. by intros ?%elem_of_nil. Qed.

Lemma started_server_inv : server_inv sample_marked started.
Proof.
  split; [apply empty_system_inv|]. split; [apply wf_no_sessions|apply map_Forall_empty].
Qed.

Lemma logged_in_server_inv : server_inv sample_marked logged_in.
Proof. apply (handle_server_inv _ _ _ _ _ _ no_Query_inv), started_server_inv. Qed.


Lemma store_changes_by_accepted_witness :
  path create_request = graphql_path /\
  exists doc fs, body create_request = Some doc /\ guard doc = inr fs.
Proof.
  refine (store_changes_by_accepted sample_marked JNull login_auth [] sample_types env0 create_request
            logged_in _).
  intros Heq. apply (f_equal (fun db => size (notes db))) in Heq. by vm_compute in Heq.
Defined.

Lemma handle_all_server_inv_witness :
  server_inv sample_marked
    (handle_all sample_marked JNull login_auth [] sample_types env0
       [login_request; anonymous_request; create_request; fan_out_request] started).
Proof.
  exact (handle_all_server_inv sample_marked JNull login_auth [] sample_types env0 no_Query_inv
           [login_request; anonymous_request; create_request; fan_out_request] started
           started_server_inv).
Defined.

Lemma handle_no_context_error_witness :
  response (sample_handle create_request logged_in).1 <> ContextError (TypeError "").
Proof.
  apply (handle_no_context_error sample_marked JNull login_auth [] sample_types env0 create_request
           logged_in (TypeError "")), logged_in_server_inv.
Defined.

Lemma session_lasts_two_weeks_witness :
  cn_session (routed_conn create_request logged_in) =
    if decide (arrival create_request < arrival login_request + two_weeks)%Z
    then JObj {[ "user" := js_object [("id", JStr "u1")] ]} else JObj ∅.
Proof.
  exact (session_lasts_two_weeks sample_marked JNull login_auth [] sample_types env0
           login_request create_request started (JStr "ok") (js_object [("id", JStr "u1")]) "0"
           ltac:(done) eq_refl eq_refl eq_refl eq_refl).
Defined.

Lemma session_roundtrip_witness :
  load 2000 (Some "0")
    (finish (session_options env0) 1000 (mkLoaded "0" (JObj ∅) true)
       (JObj {[ "user" := JStr "u1" ]}) true no_sessions) =
    (mkLoaded "0" (JObj {[ "user" := JStr "u1" ]}) false,
     finish (session_options env0) 1000 (mkLoaded "0" (JObj ∅) true)
       (JObj {[ "user" := JStr "u1" ]}) true no_sessions).
Proof.
  exact (session_roundtrip env0 1000 2000 (mkLoaded "0" (JObj ∅) true)
           (JObj {[ "user" := JStr "u1" ]}) true no_sessions ltac:(done)).
Defined.

Lemma newNote_without_login_witness :
  response (sample_handle anonymous_request logged_in).1 = GraphQLData [("newNote", FieldNull [])] /\
  srv_db (sample_handle anonymous_request logged_in).2 = srv_db logged_in.
Proof.
  refine (newNote_without_login sample_marked JNull login_auth [] sample_types env0 anonymous_request
            logged_in new_note_op [("content", JStr "# Hi")] _ ltac:(done) eq_refl eq_refl
            eq_refl eq_refl eq_refl _).
  by vm_compute.
Defined.

Lemma newNote_in_session_witness :
  exists i t, NoteModel.abs (srv_db logged_in) !! i = None /\
    let n := new_note i "# Hi" (Mutation.render sample_marked "# Hi") "u1" t in
    let db' := srv_db (sample_handle create_request logged_in).2 in
    response (sample_handle create_request logged_in).1
      = GraphQLData
          [("newNote",
            complete_root sample_types db'
              (context_of JNull {[ "user" := js_object [("id", JStr "u1")] ]}) (NamedType "Note")
              [FNode "id" [] []; FNode "content" [] [];
               FNode "author" [] [FNode "id" [] []; FNode "name" [] []]]
              (Ok (note_to_js n)))] /\
    NoteModel.abs db' = <[i := n]> (NoteModel.abs (srv_db logged_in)).
Proof.
  refine (newNote_in_session sample_marked JNull login_auth [] sample_types env0 create_request logged_in
            {[ "user" := js_object [("id", JStr "u1")] ]} (js_object [("id", JStr "u1")])
            "u1" "# Hi" new_note_op [("content", JStr "# Hi")] _
            _ ltac:(done) eq_refl _ eq_refl _ eq_refl eq_refl eq_refl eq_refl _ eq_refl).
  - apply logged_in_server_inv.
  - by vm_compute.
  - by vm_compute.
  - by vm_compute.
Defined.

(** The response to the operation of the specification: the selected
    fields of the new note, with its author. *)
Lemma create_request_response :
  response (sample_handle create_request logged_in).1 =
    GraphQLData
      [("newNote",
        FieldValue (js_object [("id", JStr "0"); ("content", JStr "# Hi");
                               ("author", js_object [("id", JStr "u1"); ("name", JStr "User One")])]))].
Proof. by vm_compute. Qed.
