(* ===== verification/Boot.v ===== *)
(** * Boot: what [src/api/index.js] does when the process starts

    The top level of the file runs once: it loads [.env] into the
    environment (line 10), reads [PORT] and [DB_HOST] (lines 19-20),
    asks for the database connection (line 25), builds the session
    store (line 38), registers the authentication strategies (line 46),
    listens (line 65), sets the socket timeout (line 72) and, once the
    socket is bound, logs the address (line 66).  [main] is that
    sequence as the list of the effects in their order, with the
    environment the handlers then see.  The effects themselves (the
    database driver, passport, the socket) are outside the sources. *)

From S2P Require Import Prelude JsValue Schema Store Context Resolvers Gateway QueryGuard Execute Session Server.

(** The effects of the top level. *)
Inductive boot_event : Type :=
| LoadDotenv
| DbConnect (host : jsval)
| SessionStore (opts : StoreOptions)
| AuthInit (models : jsval)
| Listen (port : jsval)
| SetTimeout (ms : Z)
| Log (msg : string).

(** [require('dotenv').config()]: the variables of the file [.env]
    enter the environment; a variable that is already set keeps its
    value. *)
Definition dotenv_config (file env : gmap string string) : gmap string string := env ∪ file.

(** [db.connect(DB_HOST)] (lines 20 and 25): the host is whatever the
    environment has, [undefined] when it has none. *)
Definition connect (env : gmap string string) : list boot_event :=
  [ DbConnect (DB_HOST env) ].

(** Lines 65-72: [app.listen] with its callback, then [setTimeout].  The
    callback of [listen] runs when the socket is bound, after the top
    level has set the timeout. *)
Definition start (env : gmap string string) : list boot_event :=
  [ Listen (port env); SetTimeout socket_timeout; Log (listen_message graphql_path) ].

(** The top level of [index.js]: the environment after line 10 and the
    effects in order. *)
Definition main (file env0 : gmap string string) (models : jsval)
    : gmap string string * list boot_event :=
  let env := dotenv_config file env0 in
  (env,
   LoadDotenv :: connect env ++
     [ SessionStore (store (session_options env)); AuthInit models ] ++ start env).

(** The port the process listens on, and what it logs. *)
Definition listening (events : list boot_event) : option jsval :=
  last (omap (fun e => match e with Listen p => Some p | _ => None end) events).

Definition logged (events : list boot_event) : list string :=
  omap (fun e => match e with Log m => Some m | _ => None end) events.

(** ** The environment *)

Section boot.
Context (file env0 : gmap string string) (models : jsval).

(** A variable of the environment wins over the file, even when it is
    set to the empty string. *)
Lemma dotenv_config_lookup (name : string) :
  dotenv_config file env0 !! name =
    match env0 !! name with
    | Some v => Some v
    | None => file !! name
    end.
Proof.
  unfold dotenv_config. destruct (env0 !! name) as [v|] eqn:Hv.
  - by apply lookup_union_Some_l.
  - by rewrite lookup_union_r.
Qed.

Lemma main_env : (main file env0 models).1 = dotenv_config file env0.
Proof. reflexivity. Qed.

(** The database is asked for before the server listens, and the
    timeout is set before the address is logged. *)
Lemma main_order :
  exists es1 es2 es3 es4,
    (main file env0 models).2 =
      es1 ++ DbConnect (DB_HOST (dotenv_config file env0)) :: es2 ++
        Listen (port (dotenv_config file env0)) :: es3 ++ SetTimeout 5000 :: es4.
Proof. by eexists [LoadDotenv], [SessionStore _; AuthInit _], [], [Log _]. Qed.

(** With no [DB_HOST] in the environment or in the file, the database
    and the session store are asked for with [undefined]. *)
Lemma main_DB_HOST_unset :
  env0 !! "DB_HOST" = None -> file !! "DB_HOST" = None ->
  DbConnect JUndefined ∈ (main file env0 models).2 /\
  SessionStore (mkStoreOptions JUndefined true) ∈ (main file env0 models).2.
Proof.
  intros He Hf. unfold main, connect, session_options, DB_HOST, env_var. simpl.
  rewrite dotenv_config_lookup, He, Hf. set_solver.
Qed.

(** C33: the process listens on [PORT] and says it listens on 4000.  The
    port is the variable [PORT] of the environment, else that of
    [.env], when it is not the empty string, and 4000 otherwise; the
    address logged names port 4000 in every case. *)
Theorem main_listens :
  listening (main file env0 models).2 =
    Some match dotenv_config file env0 !! "PORT" with
         | Some p => if decide (p = "") then JNum 4000 else JStr p
         | None => JNum 4000
         end /\
  logged (main file env0 models).2 = ["GraphQL Server running at http://localhost:4000/api"].
Proof. split; [|done]. unfold listening, main, connect, start. simpl. by rewrite port_cases. Qed.

End boot.

(** With [PORT=8080] in [.env] the server listens on 8080 and logs
    port 4000. *)
Lemma main_listens_8080 :
  listening (main {[ "PORT" := "8080" ]} ∅ JNull).2 = Some (JStr "8080") /\
  logged (main {[ "PORT" := "8080" ]} ∅ JNull).2 =
    ["GraphQL Server running at http://localhost:4000/api"].
Proof. by vm_compute. Qed.
