(* ===== verification/Inflight.v ===== *)
(** * Inflight: requests in flight at the same time

    [src/api/index.js] installs the session middleware before the
    handlers (lines 32-43) with [resave: true]: a request reads its
    session from the store when it arrives and writes it back when its
    response ends, and the process serves other requests in between,
    wherever the request waits: for the session store, and for the data
    store at each root field of its operation.

    A request in flight is at a [stage]: it has [Arrived]; it is
    [Executing] the root fields of an operation the guard accepted; it
    is [Ending], with its response made and its session to persist; or
    it is [Answered].  [resume] takes a request to its next stage on the
    state of the server as it is then; [node_step] resumes one of the
    requests in flight, and [run_node] follows a schedule.  [disconnect]
    is the client going away, or the socket timeout of line 72 closing
    the connection: nothing is sent any more, and nothing stops.  The
    session store and the data store are read and written in one step
    each, and the time of a request is that of its arrival.

    The theorems show that a request alone is handled as [Server.handle]
    says, and requests in turn as [Server.handle_all] says, that every
    interleaving keeps the invariant of the server,
    that the sessions no request in flight carries are left as they
    were, that every request is answered, and that with [resave: true] a
    request that ends late writes the session it read when it arrived
    over what a login has stored since. *)

From S2P Require Import Prelude JsValue Schema Store Context Resolvers Gateway QueryGuard Execute Session Server Concurrency.

(** Where a request in flight is.  From the session middleware on, a
    request carries the session it loaded. *)
Inductive stage : Type :=
| Arrived
| Executing (l : loaded) (session : jsval) (fl : flight)
| Ending (l : loaded) (session : jsval) (modified : bool) (code : nat) (b : response_body)
| Answered (res : Response).

(** A request in flight, and whether its client is still there. *)
Record inflight : Type := mkInflight {
  if_req : Request;
  if_stage : stage;
  if_connected : bool;
}.

(** The server with its requests in flight. *)
Record node (St : Type) : Type := mkNode {
  nd_state : server_state St;
  nd_requests : list inflight;
}.
Arguments mkNode {St} _ _.
Arguments nd_state {St} _.
Arguments nd_requests {St} _.

(** What the scheduler does: it resumes a request, or a client goes. *)
Inductive event : Type :=
| Resume (i : nat)
| Disconnect (i : nat).

(** The steps of a schedule. *)
Fixpoint resumes (sched : list event) : nat :=
  match sched with
  | [] => 0
  | Resume _ :: sched' => S (resumes sched')
  | Disconnect _ :: sched' => resumes sched'
  end.

(** The schedule without the clients that go away. *)
Fixpoint only_resumes (sched : list event) : list event :=
  match sched with
  | [] => []
  | Resume i :: sched' => Resume i :: only_resumes sched'
  | Disconnect _ :: sched' => only_resumes sched'
  end.

Section node.
Context (marked : MarkedOptions -> string -> string).
Context (models : jsval).
Context {St : Type} `{!NoteModel.Ops St}.
Context (auth : Request -> jsval -> option (jsval * option jsval)).
Context (Query : list (string * resolver St)).
Context (Types : list (string * list (string * reader St))).
Context (opts : SessionOptions).

(** The handlers behind the session middleware, up to the first root
    field: the authentication routes answer and set the user of the
    session; the Apollo server at [/api] builds the context, validates
    the operation and, when the guard accepts it, starts on its root
    fields; any other request is not found. *)
Definition dispatch (req : Request) (l : loaded) : stage :=
  match auth req (data l) with
  | Some (v, u) => Ending l (set_session_user (data l) u) true 200 (AuthReply v)
  | None =>
      if String.eqb (path req) graphql_path then
        match body req with
        | None => Ending l (data l) false 400 BadRequest
        | Some doc =>
            match context models (request_with_session (data l)) with
            | Thrown e => Ending l (data l) false 500 (ContextError e)
            | Ok ctx =>
                match guard doc with
                | inl errs => Ending l (data l) false 200 (GraphQLErrors errs)
                | inr fs => Executing l (data l) (take_off (op_type doc) ctx fs)
                end
            end
        end
      else Ending l (data l) false 404 NotFoundPage
  end.

(** One request, from where it waits to where it waits next.  A
    preflight request is answered by [cors] at once; any other loads
    its session and is dispatched; an operation runs its next root
    field, or has none left and makes its response; a response that
    ends persists the session the request carries. *)
Definition resume (req : Request) (st : stage) (s : server_state St)
    : option (stage * server_state St) :=
  match st with
  | Arrived =>
      if String.eqb (method req) "OPTIONS" then
        Some (Answered (mkResponse 204 all_headers None NoContent), s)
      else
        let '(l, ss) := load (arrival req) (request_cookie req) (srv_sessions s) in
        Some (dispatch req l, mkServerState ss (srv_db s))
  | Executing l session fl =>
      match advance marked Query Types fl (srv_db s) with
      | Some (fl', db') => Some (Executing l session fl', mkServerState (srv_sessions s) db')
      | None => Some (Ending l session false 200 (GraphQLData (fl_done fl)), s)
      end
  | Ending l session modified code b =>
      Some (Answered
              (mkResponse code all_headers
                 (if should_set_cookie opts l modified then Some (sid l) else None) b),
            mkServerState
              (finish opts (arrival req) l session modified (srv_sessions s)) (srv_db s))
  | Answered _ => None
  end.

(** The scheduler resumes the [i]-th request. *)
Definition node_step (i : nat) (n : node St) : option (node St) :=
  r ← nd_requests n !! i;
  '(st', s') ← resume (if_req r) (if_stage r) (nd_state n);
  Some (mkNode s' (<[i := mkInflight (if_req r) st' (if_connected r)]> (nd_requests n))).

(** The client of the [i]-th request goes away. *)
Definition disconnect (i : nat) (n : node St) : option (node St) :=
  r ← nd_requests n !! i;
  Some (mkNode (nd_state n)
          (<[i := mkInflight (if_req r) (if_stage r) false]> (nd_requests n))).

Definition node_event (e : event) (n : node St) : option (node St) :=
  match e with
  | Resume i => node_step i n
  | Disconnect i => disconnect i n
  end.

(** A schedule: the events in their order. *)
Fixpoint run_node (sched : list event) (n : node St) : option (node St) :=
  match sched with
  | [] => Some n
  | e :: sched' => n' ← node_event e n; run_node sched' n'
  end.

(** What the client of a request receives. *)
Definition received (r : inflight) : option Response :=
  match if_stage r with
  | Answered res => if if_connected r then Some res else None
  | _ => None
  end.

(** The requests as they arrive. *)
Definition arrive (req : Request) : inflight := mkInflight req Arrived true.

(** The root fields of the operation a request carries, when the guard
    accepts it. *)
Definition request_fields (req : Request) : list ftree :=
  match body req with
  | Some doc => match guard doc with inr fs => fs | inl _ => [] end
  | None => []
  end.

(** The steps a request has still to take, at most; those of the
    requests of a node; the nodes that have answered every request. *)
Definition steps_left (r : inflight) : nat :=
  match if_stage r with
  | Arrived => 3 + length (request_fields (if_req r))
  | Executing _ _ fl => 2 + length (fl_todo fl)
  | Ending _ _ _ _ _ => 1
  | Answered _ => 0
  end.

Definition pending (n : node St) : nat := sum_list (steps_left <$> nd_requests n).

Definition is_answered (r : inflight) : Prop :=
  match if_stage r with Answered _ => True | _ => False end.


(** The session a request in flight carries, and the requests that
    have to do with the session [c]: they came with its cookie, or
    carry it. *)
Definition stage_loaded (st : stage) : option (loaded * jsval) :=
  match st with
  | Executing l session _ | Ending l session _ _ _ => Some (l, session)
  | Arrived | Answered _ => None
  end.

Definition carries (c : string) (r : inflight) : Prop :=
  request_cookie (if_req r) = Some c \/ (exists l session, stage_loaded (if_stage r) = Some (l, session) /\ sid l = c).

(** The sessions in flight are under ids the server has issued, and
    they are objects. *)
Definition issued (ss : session_state) (st : stage) : Prop :=
  forall l session, stage_loaded st = Some (l, session) ->
    exists k, k < next_sid ss /\ sid l = sid_of k.

Definition session_object (st : stage) : Prop :=
  forall l session, stage_loaded st = Some (l, session) -> is_Some (as_object session).

(** A node with every client taken to be there. *)
Definition forget (n : node St) : node St :=
  mkNode (nd_state n) ((fun r => mkInflight (if_req r) (if_stage r) true) <$> nd_requests n).

Definition requests_wf (n : node St) : Prop :=
  Session.wf (srv_sessions (nd_state n)) /\
  Forall (fun r => issued (srv_sessions (nd_state n)) (if_stage r)) (nd_requests n).

End node.

#[global] Instance is_answered_dec (r : inflight) : Decision (is_answered r).
Proof. unfold is_answered. destruct (if_stage r); apply _. Defined.

(** ** One step *)

Section steps.
Context (marked : MarkedOptions -> string -> string).
Context (models : jsval).
Context {St : Type} `{!NoteModel.Ops St}.
Context (auth : Request -> jsval -> option (jsval * option jsval)).
Context (Query : list (string * resolver St)).
Context (Types : list (string * list (string * reader St))).
Context (opts : SessionOptions).
Implicit Types (req : Request) (st : stage) (s : server_state St) (r : inflight) (n : node St)
  (l : loaded) (fl : flight) (sched : list event) (c : string).

Local Abbreviation dispatch := (dispatch models auth).
Local Abbreviation resume := (resume marked models auth Query Types opts).
Local Abbreviation node_step := (node_step marked models auth Query Types opts).
Local Abbreviation node_event := (node_event marked models auth Query Types opts).
Local Abbreviation run_node := (run_node marked models auth Query Types opts).
Local Abbreviation advance := (advance marked Query Types).

Lemma node_step_Some i n n' :
  node_step i n = Some n' <->
  exists r st' s',
    nd_requests n !! i = Some r /\ resume (if_req r) (if_stage r) (nd_state n) = Some (st', s') /\
    n' = mkNode s' (<[i := mkInflight (if_req r) st' (if_connected r)]> (nd_requests n)).
Proof.
  unfold Inflight.node_step. destruct (nd_requests n !! i) as [r|]; simpl.
  - destruct (resume _ _ _) as [[st' s']|] eqn:Hres; simpl; split.
    + intros [= <-]. by eexists _, _, _.
    + intros (? & ? & ? & [= <-] & ? & ->). congruence.
    + done.
    + intros (? & ? & ? & [= <-] & ? & _). congruence.
  - split; [done|]. by intros (? & ? & ? & ? & _).
Qed.

Lemma run_node_app sched1 sched2 n :
  run_node (sched1 ++ sched2) n = n' ← run_node sched1 n; run_node sched2 n'.
Proof.
  revert n. induction sched1 as [|e sched1 IH]; intros n; simpl; [done|].
  destruct (node_event e n) as [n'|]; simpl; [apply IH|done].
Qed.

(** What a request that arrives is dispatched to: it ends, or it starts
    on the root fields of its operation. *)
Lemma dispatch_cases req l :
  (exists session modified code b,
     dispatch req l = Ending l session modified code b /\
     (session = data l \/ exists u, session = set_session_user (data l) u)) \/
  (exists doc ctx,
     body req = Some doc /\ guard doc = inr (request_fields req) /\
     dispatch req l = Executing l (data l) (take_off (op_type doc) ctx (request_fields req))).
Proof.
  unfold Inflight.dispatch, request_fields. destruct (auth req (data l)) as [[v u]|]; [left; by eauto 10|].
  destruct (String.eqb _ _); [|left; by eauto 10].
  destruct (body req) as [doc|]; [|left; by eauto 10].
  destruct (context _ _); [|left; by eauto 10].
  destruct (guard doc) as [errs|fs] eqn:Hg; [left; by eauto 10|right]. by eauto.
Qed.

(** Every step of a request is one of the steps it had left. *)
Lemma resume_steps_left req st s st' s' connected :
  resume req st s = Some (st', s') ->
  steps_left (mkInflight req st' connected) < steps_left (mkInflight req st connected).
Proof.
  unfold steps_left. destruct st as [|l session fl|l session modified code b|res]; simpl; [| | |done].
  - destruct (String.eqb _ _); [intros [= <- <-]; simpl; lia|].
    destruct (load _ _ _) as [l ss]. intros [= <- <-].
    destruct (dispatch_cases req l) as [(? & ? & ? & ? & -> & _)|(? & ? & _ & _ & ->)]; simpl; lia.
  - destruct (advance fl (srv_db s)) as [[fl' db']|] eqn:Hadv; intros [= <- <-]; simpl; [|lia].
    apply advance_todo in Hadv. lia.
  - intros [= <- <-]. simpl. lia.
Qed.


Lemma node_step_pending i n n' : node_step i n = Some n' -> pending n' < pending n.
Proof.
  intros (r & st' & s' & Hi & Hres & ->)%node_step_Some.
  apply (resume_steps_left _ _ _ _ _ (if_connected r)) in Hres.
  unfold pending. simpl. rewrite list_fmap_insert.
  pose proof (sum_list_insert (steps_left <$> nd_requests n) i
                (steps_left (mkInflight (if_req r) st' (if_connected r))) (steps_left r)) as Hsum.
  rewrite list_lookup_fmap, Hi in Hsum. specialize (Hsum eq_refl).
  destruct r as [req st connected]. simpl in *. lia.
Qed.

(** A client that goes away changes nothing of what the server does. *)
Lemma disconnect_Some i n n' :
  disconnect i n = Some n' <->
  exists r, nd_requests n !! i = Some r /\
    n' = mkNode (nd_state n) (<[i := mkInflight (if_req r) (if_stage r) false]> (nd_requests n)).
Proof. unfold disconnect. destruct (nd_requests n !! i) as [r|]; simpl; naive_solver. Qed.

Lemma disconnect_pending i n n' : disconnect i n = Some n' -> pending n' = pending n.
Proof.
  intros (r & Hi & ->)%disconnect_Some. unfold pending. simpl. rewrite list_fmap_insert.
  by rewrite list_insert_id by (by rewrite list_lookup_fmap, Hi).
Qed.

Lemma run_node_pending sched n n' :
  run_node sched n = Some n' -> resumes sched + pending n' <= pending n.
Proof.
  revert n. induction sched as [|e sched IH]; intros n; simpl; [intros [= <-]; lia|].
  destruct (node_event e n) as [n1|] eqn:He; simpl; [|done]. intros Hrun%IH.
  destruct e as [i|i]; simpl in He.
  - apply node_step_pending in He. lia.
  - apply disconnect_pending in He. lia.
Qed.

Lemma resumes_replicate k i : resumes (replicate k (Resume i)) = k.
Proof. induction k; simpl; congruence. Qed.



(** *** Clients that go away *)

Lemma node_step_forget i n :
  node_step i (forget n) = forget <$> node_step i n.
Proof.
  unfold Inflight.node_step, forget. simpl. rewrite list_lookup_fmap.
  destruct (nd_requests n !! i) as [r|]; simpl; [|done].
  destruct (resume _ _ _) as [[st' s']|]; simpl; [|done]. by rewrite list_fmap_insert.
Qed.

Lemma disconnect_forget i n n' : disconnect i n = Some n' -> forget n' = forget n.
Proof.
  intros (r & Hi & ->)%disconnect_Some. unfold forget. simpl. f_equal.
  rewrite list_fmap_insert. simpl. apply list_insert_id. by rewrite list_lookup_fmap, Hi.
Qed.

Lemma run_node_forget sched n n' :
  run_node sched n = Some n' -> run_node (only_resumes sched) (forget n) = Some (forget n').
Proof.
  revert n. induction sched as [|[i|i] sched IH]; intros n; simpl; [by intros [= <-]| |].
  - rewrite node_step_forget. destruct (node_step i n) as [n1|]; simpl; [apply IH|done].
  - destruct (disconnect i n) as [n1|] eqn:Hd; simpl; [|done].
    rewrite <- (disconnect_forget i n n1 Hd). apply IH.
Qed.

(** *** A request that is not resumed *)

Lemma node_event_untouched i e n n' r :
  e <> Resume i -> nd_requests n !! i = Some r -> node_event e n = Some n' ->
  exists connected, nd_requests n' !! i = Some (mkInflight (if_req r) (if_stage r) connected).
Proof.
  intros Hne Hi. destruct e as [j|j]; simpl.
  - intros (r' & st' & s' & Hj & _ & ->)%node_step_Some. simpl.
    rewrite list_lookup_insert_ne by congruence. exists (if_connected r). by destruct r.
  - intros (r' & Hj & ->)%disconnect_Some. simpl. destruct (decide (j = i)) as [->|Hji].
    + rewrite list_lookup_insert_eq by (by eapply lookup_lt_Some). simplify_eq. by eexists.
    + rewrite list_lookup_insert_ne by done. exists (if_connected r). by destruct r.
Qed.

Lemma run_node_untouched i sched n n' r :
  Forall (fun e => e <> Resume i) sched -> nd_requests n !! i = Some r ->
  run_node sched n = Some n' ->
  exists connected, nd_requests n' !! i = Some (mkInflight (if_req r) (if_stage r) connected).
Proof.
  intros Hsched. revert n r. induction Hsched as [|e sched He _ IH]; intros n r Hi; simpl.
  { intros [= <-]. exists (if_connected r). by destruct r. }
  destruct (node_event e n) as [n1|] eqn:Hev; simpl; [|done].
  destruct (node_event_untouched i e n n1 r He Hi Hev) as [connected Hi1].
  intros Hrun. exact (IH n1 _ Hi1 Hrun).
Qed.

End steps.

(** ** A request alone *)

Section alone.
Context (marked : MarkedOptions -> string -> string).
Context (models : jsval).
Context {St : Type} `{!NoteModel.Ops St}.
Context (auth : Request -> jsval -> option (jsval * option jsval)).
Context (Query : list (string * resolver St)).
Context (Types : list (string * list (string * reader St))).
Context (env : gmap string string).
Implicit Types (req : Request) (st : stage) (s : server_state St) (r : inflight) (n : node St)
  (l : loaded) (fl : flight) (sched : list event) (ss : session_state) (db : St).

Local Abbreviation dispatch := (dispatch models auth).
Local Abbreviation resume := (resume marked models auth Query Types (session_options env)).
Local Abbreviation node_step := (node_step marked models auth Query Types (session_options env)).
Local Abbreviation run_node := (run_node marked models auth Query Types (session_options env)).
Local Abbreviation routes := (routes marked models auth Query Types).
Local Abbreviation handle := (handle marked models auth Query Types env).
Local Abbreviation handle_all := (handle_all marked models auth Query Types env).
Local Abbreviation run_fields := (run_fields marked Query Types).
Local Abbreviation run_field := (run_field marked Query Types).

(** The responses to requests handled one after the other. *)
Fixpoint answers (reqs : list Request) (s : server_state St) : list Response :=
  match reqs with
  | [] => []
  | req :: reqs' => (handle req s).1 :: answers reqs' (handle req s).2
  end.

(** A request with its response. *)
Definition answered (req : Request) (res : Response) : inflight :=
  mkInflight req (Answered res) true.

(** The only request of a node, resumed. *)
Lemma node_step_alone req st connected s :
  node_step 0 (mkNode s [mkInflight req st connected]) =
    '(st', s') ← resume req st s; Some (mkNode s' [mkInflight req st' connected]).
Proof. reflexivity. Qed.

(** The handlers behind the session middleware do what [dispatch] and
    then the root fields in their order do. *)
Lemma routes_dispatch req l ss db hs :
  routes req (mkConn ss db (data l) false hs) =
    match dispatch req l with
    | Ending _ session modified code b =>
        (mkResponse code hs None b, mkConn ss db session modified hs)
    | Executing _ session fl =>
        let '(os, db') := run_fields (fl_type fl) (fl_ctx fl) (fl_todo fl) db in
        (mkResponse 200 hs None (GraphQLData os), mkConn ss db' session false hs)
    | _ => (mkResponse 404 hs None NotFoundPage, mkConn ss db (data l) false hs)
    end.
Proof.
  unfold Server.routes, passport_initialize, authRoutes, apollo, Inflight.dispatch, graphql. simpl.
  destruct (auth req (data l)) as [[v u]|]; [done|].
  destruct (String.eqb _ _); [|done].
  destruct (body req) as [doc|]; [|done].
  destruct (context _ _); [|done].
  destruct (guard doc) as [errs|fs]; [done|]. simpl.
  by destruct (run_fields _ _ _ _).
Qed.

(** An operation that no other request interrupts runs its root fields
    as [Server.run_fields] does. *)
Lemma run_node_executing req l session connected t ctx fs dn ss db :
  run_node (replicate (length (run_fields t ctx fs db).1) (Resume 0))
    (mkNode (mkServerState ss db) [mkInflight req (Executing l session (mkFlight t ctx fs dn)) connected]) =
  Some (mkNode (mkServerState ss (run_fields t ctx fs db).2)
          [mkInflight req (Executing l session (mkFlight t ctx [] (dn ++ (run_fields t ctx fs db).1)))
             connected]).
Proof.
  revert dn db. induction fs as [|[name args kids] fs IH]; intros dn db.
  { simpl. by rewrite app_nil_r. }
  rewrite run_fields_cons.
  pose proof (advance_cons marked Query Types t ctx name args kids fs dn db) as Hadv.
  destruct (run_field t ctx (FNode name args kids) db) as [o db'].
  specialize (IH (dn ++ [(name, o)]) db'). rewrite <- app_assoc in IH.
  destruct (run_fields t ctx fs db') as [os db''].
  destruct t, o; cbn [fst snd length replicate Inflight.run_node node_event];
    rewrite node_step_alone; cbn [Inflight.resume srv_db srv_sessions]; rewrite Hadv; simpl;
    try exact IH; done.
Qed.

(** From the session loaded to the response: the root fields in turn,
    the response made, the session persisted. *)
Lemma run_node_dispatched req l ss db connected :
  exists k,
    run_node (replicate k (Resume 0))
      (mkNode (mkServerState ss db) [mkInflight req (dispatch req l) connected]) =
    let '(res, c') := routes req (mkConn ss db (data l) false all_headers) in
    Some (mkNode
            (mkServerState
               (finish (session_options env) (arrival req) l (cn_session c') (cn_modified c')
                  (cn_sessions c'))
               (cn_db c'))
            [mkInflight req
               (Answered
                  (mkResponse (status res) (headers res)
                     (if should_set_cookie (session_options env) l (cn_modified c') then Some (sid l)
                      else None)
                     (response res)))
               connected]).
Proof.
  rewrite routes_dispatch.
  destruct (dispatch_cases models auth req l)
    as [(session & modified & code & b & -> & _)|(doc & ctx & _ & _ & ->)].
  - by exists 1.
  - unfold take_off. cbn [fl_type fl_ctx fl_todo].
    pose proof (run_node_executing req l (data l) connected (op_type doc) ctx (request_fields req) [] ss db)
      as Hrun.
    destruct (run_fields (op_type doc) ctx (request_fields req) db) as [os db'] eqn:Hfs.
    exists (length os + 2). rewrite replicate_add, run_node_app. simpl in Hrun. by rewrite Hrun.
Qed.

(** A request that no other interrupts is handled as [Server.handle]
    says. *)
Lemma run_node_alone req s :
  exists k,
    run_node (replicate k (Resume 0)) (mkNode s [arrive req]) =
      Some (mkNode (handle req s).2 [answered req (handle req s).1]).
Proof.
  destruct (decide (method req = "OPTIONS")) as [Hm|Hm].
  - exists 1. rewrite (handle_preflight marked models auth Query Types env req s Hm).
    cbn [replicate Inflight.run_node node_event]. unfold arrive. rewrite node_step_alone.
    cbn [Inflight.resume]. by rewrite Hm.
  - rewrite (handle_routed marked models auth Query Types env req s Hm). unfold routed_conn.
    destruct (load (arrival req) (request_cookie req) (srv_sessions s)) as [l ss] eqn:Hl.
    destruct (run_node_dispatched req l ss (srv_db s) true) as [k Hk]. exists (S k).
    cbn [replicate Inflight.run_node node_event]. unfold arrive. rewrite node_step_alone.
    apply String.eqb_neq in Hm. cbn [Inflight.resume]. rewrite Hm, Hl. simpl.
    rewrite Hk. by destruct (routes req _) as [res c'].
Qed.

(** C25: a request alone is handled as [Server.handle] says.  When no
    other request is in flight, the stages of a request (its session
    loaded, its root fields one by one, its response made, its session
    persisted) end, after at most three steps and one for each root
    field, with the response and the state of the server that
    [Server.handle] gives for the application of [index.js]. *)
Theorem alone_handle req s :
  exists k,
    k <= 3 + length (request_fields req) /\
    run_node (replicate k (Resume 0)) (mkNode s [arrive req]) =
      Some (mkNode (handle req s).2 [mkInflight req (Answered (handle req s).1) true]).
Proof.
  destruct (run_node_alone req s) as [k Hk]. exists k. split; [|done].
  apply (run_node_pending marked models auth Query Types) in Hk.
  rewrite resumes_replicate in Hk. unfold pending in Hk. simpl in Hk. unfold steps_left in Hk.
  simpl in Hk. lia.
Qed.

(** *** Requests in turn *)

(** A step of a request does not look at the other requests. *)
Lemma node_step_middle (rs1 rs2 : list inflight) r s :
  node_step (length rs1) (mkNode s (rs1 ++ r :: rs2)) =
    '(st', s') ← resume (if_req r) (if_stage r) s;
    Some (mkNode s' (rs1 ++ mkInflight (if_req r) st' (if_connected r) :: rs2)).
Proof.
  unfold Inflight.node_step. cbn [nd_requests nd_state]. rewrite list_lookup_middle by done.
  simpl. destruct (resume _ _ _) as [[st' s']|]; simpl; [|done].
  by rewrite (insert_app_r_alt rs1 (r :: rs2) (length rs1)), Nat.sub_diag by lia.
Qed.

Lemma run_node_middle (rs1 rs2 : list inflight) k r s r' s' :
  run_node (replicate k (Resume 0)) (mkNode s [r]) = Some (mkNode s' [r']) ->
  run_node (replicate k (Resume (length rs1))) (mkNode s (rs1 ++ r :: rs2)) =
    Some (mkNode s' (rs1 ++ r' :: rs2)).
Proof.
  revert r s. induction k as [|k IH]; intros r s; cbn [replicate Inflight.run_node node_event].
  { by intros [= -> ->]. }
  destruct r as [req st connected]. rewrite node_step_alone, node_step_middle.
  cbn [if_req if_stage if_connected]. destruct (resume req st s) as [[st1 s1]|]; simpl; [|done].
  apply IH.
Qed.

(** Requests handled in turn, each from its arrival to its response
    with no other resumed in between, are handled as [Server.handle_all]
    says: the sequential server is one of the schedules. *)
Lemma run_node_in_turn (rs : list inflight) reqs s :
  exists sched,
    run_node sched (mkNode s (rs ++ (arrive <$> reqs))) =
      Some (mkNode (handle_all reqs s) (rs ++ zip_with answered reqs (answers reqs s))).
Proof.
  revert rs s. induction reqs as [|req reqs IH]; intros rs s; [by exists []|].
  destruct (run_node_alone req s) as [k Hk].
  destruct (IH (rs ++ [answered req (handle req s).1]) (handle req s).2) as [sched Hsched].
  exists (replicate k (Resume (length rs)) ++ sched).
  rewrite run_node_app, fmap_cons, (run_node_middle rs (arrive <$> reqs) k _ _ _ _ Hk). simpl.
  by rewrite <- !app_assoc in Hsched.
Qed.

(** C26: the server that handles its requests one after the other is
    one of the schedules.  For every sequence of requests there is a
    schedule of the requests in flight, each taken from its arrival to
    its response, that ends with every request answered as
    [Server.handle] answers it in its turn and with the state of the
    server that [Server.handle_all] gives. *)
Theorem in_turn_handle_all reqs s :
  exists sched,
    run_node sched (mkNode s (arrive <$> reqs)) =
      Some (mkNode (handle_all reqs s) (zip_with answered reqs (answers reqs s))).
Proof. exact (run_node_in_turn [] reqs s). Qed.

End alone.

(** ** The sessions in flight *)

Section sessions.
Context (marked : MarkedOptions -> string -> string).
Context (models : jsval).
Context {St : Type} `{!NoteModel.Ops St}.
Context (auth : Request -> jsval -> option (jsval * option jsval)).
Context (Query : list (string * resolver St)).
Context (Types : list (string * list (string * reader St))).
Context (opts : SessionOptions).
Implicit Types (req : Request) (st : stage) (s : server_state St) (r : inflight) (n : node St)
  (l : loaded) (fl : flight) (sched : list event) (ss : session_state) (c : string).

Local Abbreviation dispatch := (dispatch models auth).
Local Abbreviation resume := (resume marked models auth Query Types opts).
Local Abbreviation node_step := (node_step marked models auth Query Types opts).
Local Abbreviation node_event := (node_event marked models auth Query Types opts).
Local Abbreviation run_node := (run_node marked models auth Query Types opts).

(** A request keeps the session it loaded until its response ends. *)
Lemma stage_loaded_dispatch req l l' session :
  stage_loaded (dispatch req l) = Some (l', session) -> l' = l.
Proof.
  destruct (dispatch_cases models auth req l)
    as [(? & ? & ? & ? & -> & _)|(? & ? & _ & _ & ->)]; simpl; congruence.
Qed.

Lemma issued_mono ss ss' st : next_sid ss <= next_sid ss' -> issued ss st -> issued ss' st.
Proof. intros Hle Hst l session Hl. destruct (Hst l session Hl) as (k & Hk & ->). exists k. split; [lia|done]. Qed.

(** What a step of a request does to the sessions: it loads one, under
    the cookie of the request or a new id, or it persists the one the
    request carries; the other sessions stay as they are. *)
Lemma resume_sessions req st s st' s' :
  Session.wf (srv_sessions s) -> issued (srv_sessions s) st ->
  resume req st s = Some (st', s') ->
  Session.wf (srv_sessions s') /\ issued (srv_sessions s') st' /\
  next_sid (srv_sessions s) <= next_sid (srv_sessions s') /\
  forall c, is_Some (sessions (srv_sessions s) !! c) ->
    ~ carries c (mkInflight req st true) ->
    sessions (srv_sessions s') !! c = sessions (srv_sessions s) !! c /\
    ~ carries c (mkInflight req st' true).
Proof.
  intros Hwf Hst. destruct st as [|l session fl|l session modified code b|res]; simpl.
  - destruct (String.eqb _ _).
    { intros [= <- <-]. by repeat split. }
    destruct (load _ _ _) as [l ss] eqn:Hl. intros [= <- <-]. simpl.
    destruct (wf_load _ _ _ _ _ Hwf Hl) as [Hwf' Hfresh].
    assert (exists k, k < next_sid ss /\ sid l = sid_of k) as Hsid.
    { destruct (fresh l) eqn:Hf; [by auto|].
      apply load_loaded in Hl as (_ & (r & Hr & _)%store_get_Some & ->); [|done]. apply Hwf. eauto. }
    split_and!; [done| |by eapply load_next_sid|].
    + intros l' session ->%stage_loaded_dispatch. done.
    + intros c Hc Hcarries. rewrite (load_sessions _ _ _ _ _ Hl). split; [done|].
      intros [Hcookie|(l' & session & ->%stage_loaded_dispatch & <-)]; [by apply Hcarries; left|].
      destruct (fresh l) eqn:Hf.
      * destruct (load_fresh_sid _ _ _ _ _ Hwf Hl Hf) as [Hnone _]. rewrite Hnone in Hc.
        by destruct Hc.
      * apply load_loaded in Hl as (Hcookie & _); [|done]. apply Hcarries. by left.
  - destruct (advance _ _ _ fl (srv_db s)) as [[fl' db']|]; intros [= <- <-]; simpl.
    + split_and!; [done|exact Hst|done|]. intros c _ Hcarries. split; [done|].
      intros [?|(? & ? & [= <- <-] & <-)]; apply Hcarries; [by left|right; by eexists _, _].
    + split_and!; [done|exact Hst|done|]. intros c _ Hcarries. split; [done|].
      intros [?|(? & ? & [= <- <-] & <-)]; apply Hcarries; [by left|right; by eexists _, _].
  - intros [= <- <-]. simpl. destruct (Hst l session eq_refl) as (k & Hk & Hsid).
    split_and!; [apply wf_finish; by eauto|by intros ? ?|done|].
    intros c _ Hcarries. split.
    + apply finish_lookup_ne. intros ->. apply Hcarries. right. by eexists _, _.
    + intros [?|(? & ? & [=] & _)]. apply Hcarries. by left.
  - done.
Qed.

Lemma node_step_wf i n n' : requests_wf n -> node_step i n = Some n' -> requests_wf n'.
Proof.
  intros [Hwf Hall] (r & st' & s' & Hi & Hres & ->)%node_step_Some.
  pose proof (proj1 (Forall_lookup _ _) Hall i r Hi) as Hr.
  destruct (resume_sessions _ _ _ _ _ Hwf Hr Hres) as (Hwf' & Hst' & Hle & _).
  split; [done|]. simpl. apply Forall_insert; [|done].
  eapply Forall_impl; [exact Hall|]. intros r'. by apply issued_mono.
Qed.

Lemma disconnect_wf i n n' : requests_wf n -> disconnect i n = Some n' -> requests_wf n'.
Proof.
  intros [Hwf Hall] (r & Hi & ->)%disconnect_Some. split; [done|]. simpl.
  apply Forall_insert; [done|]. exact (proj1 (Forall_lookup _ _) Hall i r Hi).
Qed.

Lemma run_node_wf sched n n' : requests_wf n -> run_node sched n = Some n' -> requests_wf n'.
Proof.
  revert n. induction sched as [|e sched IH]; intros n Hwf; simpl; [by intros [= <-]|].
  destruct (node_event e n) as [n1|] eqn:He; simpl; [|done]. apply IH.
  destruct e; simpl in He; eauto using node_step_wf, disconnect_wf.
Qed.

(** A step leaves alone the sessions that no request in flight has to
    do with. *)
Lemma node_event_other e n n' c :
  requests_wf n -> is_Some (sessions (srv_sessions (nd_state n)) !! c) ->
  Forall (fun r => ~ carries c r) (nd_requests n) ->
  node_event e n = Some n' ->
  sessions (srv_sessions (nd_state n')) !! c = sessions (srv_sessions (nd_state n)) !! c /\
  Forall (fun r => ~ carries c r) (nd_requests n').
Proof.
  intros [Hwf Hall] Hc Hnone. destruct e as [i|i]; simpl.
  - intros (r & st' & s' & Hi & Hres & ->)%node_step_Some. simpl.
    pose proof (proj1 (Forall_lookup _ _) Hall i r Hi) as Hr.
    pose proof (proj1 (Forall_lookup _ _) Hnone i r Hi) as Hri.
    destruct (resume_sessions _ _ _ _ _ Hwf Hr Hres) as (_ & _ & _ & Hother).
    destruct (Hother c Hc) as [Heq Hst']; [by destruct r|]. split; [done|].
    by apply Forall_insert.
  - intros (r & Hi & ->)%disconnect_Some. simpl. split; [done|].
    apply Forall_insert; [done|]. exact (proj1 (Forall_lookup _ _) Hnone i r Hi).
Qed.

(** C28: the sessions of the others are left alone.  Whatever requests
    are in flight and in whatever order they are resumed, a stored
    session that none of them came with, and none of them carries, is
    in the store afterwards exactly as it was: with its data and its
    expiry. *)
Theorem other_sessions_kept sched n n' c :
  requests_wf n -> is_Some (sessions (srv_sessions (nd_state n)) !! c) ->
  Forall (fun r => ~ carries c r) (nd_requests n) ->
  run_node sched n = Some n' ->
  sessions (srv_sessions (nd_state n')) !! c = sessions (srv_sessions (nd_state n)) !! c.
Proof.
  revert n. induction sched as [|e sched IH]; intros n Hwf Hc Hnone; simpl; [by intros [= <-]|].
  destruct (node_event e n) as [n1|] eqn:He; simpl; [|done]. intros Hrun.
  destruct (node_event_other e n n1 c Hwf Hc Hnone He) as [Heq Hnone1].
  rewrite <- Heq. apply IH; [|by rewrite Heq|done|done].
  destruct e; simpl in He; eauto using node_step_wf, disconnect_wf.
Qed.

(** The sessions stay objects. *)
Local Abbreviation objects ss :=
  (map_Forall (fun _ x => is_Some (as_object (sess_data x))) (sessions ss)).

Lemma load_object now (request_cookie : option string) ss l ss' :
  objects ss ->
  load now request_cookie ss = (l, ss') -> is_Some (as_object (data l)).
Proof.
  intros Hobj Hl. destruct (fresh l) eqn:Hf.
  - unfold load in Hl. by repeat case_match; simplify_eq/=.
  - apply load_loaded in Hl as (_ & (r & Hr & _ & <-)%store_get_Some & _); [|done].
    by apply (Hobj _ _ Hr).
Qed.

Lemma finish_objects now l (d : jsval) (modified : bool) ss :
  objects ss ->
  is_Some (as_object d) ->
  objects (finish opts now l d modified ss).
Proof.
  intros Hobj Hd. unfold finish, store_set, store_touch. simpl.
  destruct (should_save opts l modified); [by apply map_Forall_insert_2|].
  intros c r. rewrite lookup_alter. case_decide; [|by apply Hobj].
  destruct (sessions ss !! sid l) as [r0|] eqn:Hr0; intros [= <-]. simpl. by apply (Hobj _ _ Hr0).
Qed.

Lemma resume_objects req st s st' s' :
  objects (srv_sessions s) ->
  session_object st -> resume req st s = Some (st', s') ->
  objects (srv_sessions s') /\
  session_object st'.
Proof.
  intros Hobj Hst. destruct st as [|l session fl|l session modified code b|res]; simpl; [| | |done].
  - destruct (String.eqb _ _); [by intros [= <- <-]|].
    destruct (load _ _ _) as [l ss] eqn:Hl. intros [= <- <-]. simpl.
    rewrite (load_sessions _ _ _ _ _ Hl). split; [done|]. intros l' session.
    pose proof (load_object _ _ _ _ _ Hobj Hl) as Hd.
    destruct (dispatch_cases models auth req l)
      as [(? & ? & ? & ? & -> & [->|[u ->]])|(? & ? & _ & _ & ->)]; simpl; intros [= <- <-];
      auto using set_session_user_object.
  - destruct (advance _ _ _ fl (srv_db s)) as [[fl' db']|]; intros [= <- <-]; simpl;
      (split; [done|]); intros ? ? [= <- <-]; by apply (Hst l session).
  - intros [= <- <-]. simpl. split; [|by intros ? ?]. apply finish_objects; [done|].
    by apply (Hst l session).
Qed.

End sessions.

(** ** The invariant of the server, with requests in flight *)

Section invariant.
Context (marked : MarkedOptions -> string -> string).
Context (models : jsval).
Context {St : Type} `{!NoteModel.Ops St} `{!NoteModel.Laws St}.
Context (auth : Request -> jsval -> option (jsval * option jsval)).
Context (Query : list (string * resolver St)).
Context (Types : list (string * list (string * reader St))).
Context (opts : SessionOptions).
Context (Query_inv : forall name f parent args ctx db r db',
  (name, f) ∈ Query -> Mutation.system_inv marked db -> f parent args ctx db = (r, db') ->
  Mutation.system_inv marked db').
Implicit Types (req : Request) (st : stage) (s : server_state St) (r : inflight) (n : node St)
  (sched : list event).

Local Abbreviation resume := (resume marked models auth Query Types opts).
Local Abbreviation node_event := (node_event marked models auth Query Types opts).
Local Abbreviation run_node := (run_node marked models auth Query Types opts).

(** The invariant of the server, and the sessions in flight objects
    under ids the server has issued. *)
Definition node_inv n : Prop :=
  server_inv marked (nd_state n) /\
  Forall (fun r => issued (srv_sessions (nd_state n)) (if_stage r) /\ session_object (if_stage r))
    (nd_requests n).

Lemma resume_system_inv req st s st' s' :
  Mutation.system_inv marked (srv_db s) -> resume req st s = Some (st', s') ->
  Mutation.system_inv marked (srv_db s').
Proof.
  intros Hinv. destruct st as [|l session fl|l session modified code b|res]; simpl; [| | |done].
  - destruct (String.eqb _ _); [by intros [= <- <-]|]. destruct (load _ _ _). by intros [= <- <-].
  - destruct (advance _ _ _ fl (srv_db s)) as [[fl' db']|] eqn:Hadv; intros [= <- <-]; [|done].
    destruct (advance_Some _ _ _ _ _ _ _ Hadv) as (name & args & kids & rest & _ & -> & _).
    by apply run_field_system_inv.
  - by intros [= <- <-].
Qed.

Lemma node_event_inv e n n' : node_inv n -> node_event e n = Some n' -> node_inv n'.
Proof.
  intros [[Hdb [Hwf Hobj]] Hall]. apply Forall_and in Hall as [Hiss Hso].
  destruct e as [i|i]; simpl.
  - intros Hstep. pose proof (node_step_wf _ _ _ _ _ _ i n n' (conj Hwf Hiss) Hstep) as [Hwf' Hiss'].
    apply node_step_Some in Hstep as (r & st' & s' & Hi & Hres & ->). simpl in *.
    pose proof (proj1 (Forall_lookup _ _) Hso i r Hi) as Hr.
    destruct (resume_objects _ _ _ _ _ _ _ _ _ _ _ Hobj Hr Hres) as [Hobj' Hst'].
    split; [split; [by eapply resume_system_inv|done]|].
    apply Forall_and. split; [done|]. by apply Forall_insert.
  - intros (r & Hi & ->)%disconnect_Some. split; [done|]. simpl. apply Forall_and.
    split; apply Forall_insert; try done;
      [exact (proj1 (Forall_lookup _ _) Hiss i r Hi)|exact (proj1 (Forall_lookup _ _) Hso i r Hi)].
Qed.

(** C27: the invariant of the server holds with requests in flight.
    Whatever requests are in flight and in whatever order they are
    resumed, at every point every note is stored under its id with its
    [htmlContent] the rendering of its [content], every stored session
    is an object under an id the server has issued, and so is every
    session a request carries. *)
Theorem inflight_server_inv sched n n' :
  node_inv n -> run_node sched n = Some n' -> node_inv n'.
Proof.
  revert n. induction sched as [|e sched IH]; intros n Hinv; simpl; [by intros [= <-]|].
  destruct (node_event e n) as [n1|] eqn:He; simpl; [|done]. apply IH. by eapply node_event_inv.
Qed.

End invariant.

(** ** A response that ends late *)

Section resave.
Context (marked : MarkedOptions -> string -> string).
Context (models : jsval).
Context {St : Type} `{!NoteModel.Ops St}.
Context (auth : Request -> jsval -> option (jsval * option jsval)).
Context (Query : list (string * resolver St)).
Context (Types : list (string * list (string * reader St))).
Implicit Types (req : Request) (st : stage) (s : server_state St) (r : inflight) (n : node St)
  (l : loaded) (sched : list event) (opts : SessionOptions) (env : gmap string string).

Local Abbreviation node_step := (node_step marked models auth Query Types).
Local Abbreviation run_node := (run_node marked models auth Query Types).

(** The response of a request ends: what the store then has for its
    session. *)
Lemma node_step_ending opts i n n' req l session modified code b connected :
  nd_requests n !! i = Some (mkInflight req (Ending l session modified code b) connected) ->
  node_step opts i n = Some n' ->
  srv_sessions (nd_state n') =
    finish opts (arrival req) l session modified (srv_sessions (nd_state n)) /\
  srv_db (nd_state n') = srv_db (nd_state n).
Proof. intros Hi (r & st' & s' & Hi' & Hres & ->)%node_step_Some. by simplify_eq/=. Qed.

(** C29: with [resave: true] the last response to end wins.  A request
    whose response is made carries the session it read when it arrived,
    with what the request itself did to it.  When its response ends,
    that session is what the store has from then on, for two weeks,
    whatever the requests resumed in between have written there: a
    login in the same session, stored while this request was in flight,
    is gone. *)
Theorem late_end_overwrites env i sched n n1 n2 req l session modified code b connected (now : Z) :
  nd_requests n !! i = Some (mkInflight req (Ending l session modified code b) connected) ->
  Forall (fun e => e <> Resume i) sched ->
  run_node (session_options env) sched n = Some n1 ->
  node_step (session_options env) i n1 = Some n2 ->
  (now < arrival req + 1209600000)%Z ->
  store_get now (sid l) (sessions (srv_sessions (nd_state n2))) = Some session.
Proof.
  intros Hi Hsched Hrun Hstep Hnow.
  destruct (run_node_untouched _ _ _ _ _ _ i sched n n1 _ Hsched Hi Hrun) as [connected' Hi1].
  destruct (node_step_ending _ _ _ _ _ _ _ _ _ _ _ Hi1 Hstep) as [-> _].
  rewrite (finish_saved _ _ _ _ _ _ _ (session_options_save env l modified)).
  by rewrite decide_True.
Qed.

(** Without [resave], a request that did not change its session leaves
    the data of the stored one as it finds it. *)
Lemma late_end_touches opts i n n' req l session code b connected (now : Z) :
  resave opts = false -> fresh l = false ->
  nd_requests n !! i = Some (mkInflight req (Ending l session false code b) connected) ->
  node_step opts i n = Some n' ->
  sess_data <$> sessions (srv_sessions (nd_state n')) !! sid l =
    sess_data <$> sessions (srv_sessions (nd_state n)) !! sid l.
Proof.
  intros Hre Hf Hi Hstep. destruct (node_step_ending _ _ _ _ _ _ _ _ _ _ _ Hi Hstep) as [-> _].
  unfold finish, should_save, store_touch. rewrite Hf, Hre. simpl. rewrite lookup_alter_eq.
  by destruct (sessions _ !! sid l).
Qed.

End resave.

(** ** A login while a request of the same session is in flight *)

Module InflightSamples.
Import Samples MemStore GuardSamples ServerSamples.

(** The server after a first request without a cookie: the session [0]
    is stored, with no user. *)
Definition visited : server_state store := (sample_handle anonymous_request started).2.

(** A login with the cookie of the session [0]. *)
Definition login_again : Request := mkRequest "POST" "/login" (Some "0") None 2100.

(** In flight in the session [0]: [newNote], and the login. *)
Definition racing_login : node store := mkNode visited [arrive create_request; arrive login_again].

Definition sample_run (opts : SessionOptions) : list event -> node store -> option (node store) :=
  run_node sample_marked JNull login_auth [] sample_types opts.

(** The options of [index.js] with [resave: false]. *)
Definition no_resave : SessionOptions :=
  mkSessionOptions false true (secret (session_options env0)) (cookie (session_options env0))
    (Session.store (session_options env0)).

(** [newNote] is dispatched, runs its field and makes its response. *)
Definition note_first : list event := [Resume 0; Resume 0; Resume 0].

(** The login arrives and its response ends. *)
Definition login_whole : list event := [Resume 1; Resume 1].

(** The node when the response of [newNote] is made, and then when the
    login has ended, and then when [newNote] has. *)
Definition note_ending : node store := default racing_login (sample_run (session_options env0) note_first racing_login).

Definition login_ended : node store := default note_ending (sample_run (session_options env0) login_whole note_ending).

Definition note_ended : node store :=
  default login_ended (node_step sample_marked JNull login_auth [] sample_types (session_options env0) 0 login_ended).

(** The session [0] as a request at time 5000 finds it, after a
    schedule. *)
Definition session_after (opts : SessionOptions) (sched : list event) : option jsval :=
  n ← sample_run opts sched racing_login;
  store_get 5000 "0" (sessions (srv_sessions (nd_state n))).

(** A request for a stored session that nobody has to do with. *)
Definition stranger : node store :=
  mkNode logged_in [arrive anonymous_request; arrive (mkRequest "GET" "/" (Some "7") None 2500)].

(** The two requests resumed in turn, the first left before its
    response. *)
Definition stranger_served : node store :=
  default stranger
    (sample_run (session_options env0) [Resume 0; Resume 1; Resume 1; Resume 0] stranger).

End InflightSamples.

Import Samples MemStore MemStoreFacts GuardSamples ServerSamples InflightSamples.

(** The login is lost when [newNote] ends after it, and kept when the
    two requests are handled in turn, or when [resave] is off. *)
Lemma login_lost :
  session_after (session_options env0) (note_first ++ login_whole ++ [Resume 0]) = Some (JObj ∅) /\
  session_after (session_options env0) (note_first ++ [Resume 0] ++ login_whole) =
    Some (JObj {[ "user" := js_object [("id", JStr "u1")] ]}) /\
  session_after no_resave (note_first ++ login_whole ++ [Resume 0]) =
    Some (JObj {[ "user" := js_object [("id", JStr "u1")] ]}).
Proof. by vm_compute. Qed.

Lemma late_end_overwrites_witness :
  store_get 5000 "0" (sessions (srv_sessions (nd_state note_ended))) = Some (JObj ∅).
Proof.
  refine (late_end_overwrites sample_marked JNull login_auth [] sample_types env0 0 login_whole
            note_ending login_ended note_ended create_request (mkLoaded "0" (JObj ∅) false) (JObj ∅)
            false 200 _ true 5000 _ _ _ _ _).
  - by vm_compute.
  - repeat constructor; discriminate.
  - by vm_compute.
  - by vm_compute.
  - reflexivity.
Defined.

Lemma visited_server_inv : server_inv sample_marked visited.
Proof. apply (handle_server_inv _ _ _ _ _ _ no_Query_inv), started_server_inv. Qed.

Lemma racing_login_inv : node_inv sample_marked racing_login.
Proof. split; [exact visited_server_inv|]. repeat constructor; by intros ? ?. Qed.

Lemma inflight_server_inv_witness : node_inv sample_marked note_ended.
Proof.
  refine (inflight_server_inv sample_marked JNull login_auth [] sample_types (session_options env0)
            no_Query_inv (note_first ++ login_whole ++ [Resume 0]) racing_login note_ended
            racing_login_inv _).
  by vm_compute.
Defined.

Lemma stranger_wf : requests_wf stranger.
Proof. split; [apply logged_in_server_inv|]. repeat constructor; by intros ? ?. Qed.

Lemma other_sessions_kept_witness :
  sessions (srv_sessions (nd_state stranger_served)) !! "0" = sessions (srv_sessions logged_in) !! "0".
Proof.
  refine (other_sessions_kept sample_marked JNull login_auth [] sample_types (session_options env0)
            [Resume 0; Resume 1; Resume 1; Resume 0] stranger stranger_served "0" stranger_wf _ _ _).
  - by eexists.
  - repeat constructor; intros [?|(? & ? & ? & _)]; done.
  - by vm_compute.
Defined.

